(** * TinyAD9833: command interpreter and AD9833 register encoder

    A shallow embedding of [TinyAD9833.ino] (serial command parser for an
    AD9833 DDS generator on a Digispark ATtiny85) and the properties of its
    numeric accumulator, command dispatcher and frequency encoder.

    Conventions of the embedding.
    - The target is an AVR: [byte] is 8 bits, [word] and [int] are 16 bits,
      [unsigned long] is 32 bits, [char] is a signed 8-bit type.  Integers
      are values of [Z]; every store into a variable of such a type writes
      the wrap-around out ([to_byte], [to_word], [to_ulong], [to_int8]).
    - [double] is the 32-bit type of avr-gcc, the IEEE 754 binary32
      format.  A finite value is the rational it denotes, kept in lowest
      terms; every conversion, product and quotient is the exact result
      rounded to the nearest binary32 number, ties to even ([round32]),
      and overflows to a non-finite value.  [NonFinite] stands for the
      infinities and NaN alike, and zero has no sign: no comparison of the
      program tells them apart, and the conversion of either to
      [unsigned long] is left to the platform.
    - The program's globals and the two function-local statics of
      [parseCommand] form the record [state].  What the program sends to
      the USB serial port and to the AD9833 is an output trace of [event]s;
      one [RegisterWrite] stands for one call of the 16-bit shift-out
      sequence of [AD9833_writeRegister].  The code runs in a small
      state-and-output monad [M]. *)

From Stdlib Require Import ZArith QArith Qround Qpower Lqa List Ascii String Bool Lia.
From Stdlib Require SpecFloat.
Import ListNotations.
Local Open Scope Z_scope.

(** ** Machine integers of the AVR target *)

Definition to_byte (x : Z) : Z := x mod 2 ^ 8.
Definition to_word (x : Z) : Z := x mod 2 ^ 16.
Definition to_ulong (x : Z) : Z := x mod 2 ^ 32.
Definition to_int8 (x : Z) : Z :=
  let r := x mod 2 ^ 8 in if r <? 128 then r else r - 256.

(** The value of a [char] (signed on AVR) holding the received byte. *)
Definition char_val (c : ascii) : Z := to_int8 (Z.of_N (N_of_ascii c)).

(** [toupper] of avr-libc: lower-case letters are mapped, all else is kept. *)
Definition toupper (c : ascii) : ascii :=
  let v := char_val c in
  if (97 <=? v) && (v <=? 122) then ascii_of_N (Z.to_N (v - 32)) else c.

(** ** Floating point values *)

Inductive double : Type :=
| Finite (q : Q)
| NonFinite.

(** [2 ^ k], for an exponent of either sign. *)
Definition pow2 (k : Z) : Q := Qpower 2 k.

(** The position of the leading bit of a positive rational: the [e] with
    [2 ^ e <= q < 2 ^ (e + 1)]. *)
Definition Qlog2 (q : Q) : Z :=
  let e := Z.log2 (Qnum q) - Z.log2 (Zpos (Qden q)) in
  if Qle_bool (pow2 e) q then e else e - 1.

(** The nearest integer, halfway cases to the even one. *)
Definition Qrne (x : Q) : Z :=
  let f := Qfloor x in
  match (x - inject_Z f ?= 1 # 2)%Q with
  | Lt => f
  | Gt => f + 1
  | Eq => if Z.even f then f else f + 1
  end.

(** The binary32 number nearest to a positive rational: a significand of
    24 bits, a unit in the last place of [2 ^ -149] at least (the
    subnormal numbers), and no result from [2 ^ 128] on. *)
Definition round32_magnitude (a : Q) : option Q :=
  let k := Z.max (Qlog2 a - 23) (-149) in
  let r := (inject_Z (Qrne (a / pow2 k)) * pow2 k)%Q in
  if Qle_bool (pow2 128) r then None else Some (Qred r).

(** Rounding to binary32, to nearest, ties to even. *)
Definition round32 (q : Q) : double :=
  match (q ?= 0)%Q with
  | Eq => Finite 0
  | Gt => match round32_magnitude q with
          | Some r => Finite r
          | None => NonFinite
          end
  | Lt => match round32_magnitude (- q) with
          | Some r => Finite (- r)
          | None => NonFinite
          end
  end.

(** The non-negative binary32 numbers: [M * 2 ^ K] with a significand [M]
    of at most 24 bits, in lowest terms. *)
Definition binary32 (r : Q) : Prop :=
  Qred r = r /\
  exists M K, 0 <= M < 2 ^ 24 /\ -149 <= K /\
              (r == inject_Z M * pow2 K)%Q /\ (r < pow2 128)%Q.

(** The conversion of an [unsigned long] to [double]. *)
Definition double_of_ulong (n : Z) : double := round32 (inject_Z n).

Definition dmul (a b : double) : double :=
  match a, b with
  | Finite x, Finite y => round32 (x * y)
  | _, _ => NonFinite
  end.

Definition ddiv (a b : double) : double :=
  match a, b with
  | Finite x, Finite y => if Qeq_bool y 0 then NonFinite else round32 (x / y)
  | _, _ => NonFinite
  end.

(** [a < b]; a comparison with a non-finite left operand (+inf or NaN, the
    only ones that arise) is false. *)
Definition dlt (a b : double) : bool :=
  match a, b with
  | Finite x, Finite y => negb (Qle_bool y x)
  | _, _ => false
  end.

(** C's [round]: to the nearest integer, halfway cases away from zero.
    The result needs no rounding: the integers next to a binary32 number
    are binary32 numbers (lemma [round_is_binary32]). *)
Definition round_half_away (q : Q) : Z :=
  if Qnum q <? 0 then - Qfloor (- q + (1 # 2)) else Qfloor (q + (1 # 2)).

Definition dround (a : double) : double :=
  match a with
  | Finite x => Finite (inject_Z (round_half_away x))
  | NonFinite => NonFinite
  end.

(** Truncation toward zero, the first step of a conversion to an integer. *)
Definition truncate (q : Q) : Z :=
  if Qnum q <? 0 then Qceiling q else Qfloor q.

(** Two doubles denote the same number. *)
Definition deq (a b : double) : Prop :=
  match a, b with
  | Finite x, Finite y => x == y
  | NonFinite, NonFinite => True
  | _, _ => False
  end.

(** ** Output trace *)

Inductive event : Type :=
| SerialWrite (c : ascii)          (* SerialUSB.write( c ) *)
| SerialPrintln (s : string)       (* SerialUSB.println( s ) *)
| SerialPrintlnHex (dat : Z)       (* SerialUSB.println( dat, HEX ) *)
| RegisterWrite (dat : Z).         (* one 16-bit frame shifted to the AD9833 *)

Definition is_register_write (e : event) : option Z :=
  match e with RegisterWrite dat => Some dat | _ => None end.

(** The words written to the chip, in order. *)
Fixpoint register_writes (tr : list event) : list Z :=
  match tr with
  | [] => []
  | e :: tr' =>
      match is_register_write e with
      | Some dat => dat :: register_writes tr'
      | None => register_writes tr'
      end
  end.

(** ** Program state *)

Definition numberOfDigits : nat := 8.

Record state : Type := mkState {
  digitArray : list Z;   (* byte digitArray[ numberOfDigits ] *)
  multiplier : Z;        (* long unsigned *)
  divider : Z;           (* long unsigned *)
  debug : Z;             (* int8_t *)
  echo : Z;              (* int8_t *)
  waveType : Z;          (* word *)
  numeric : Z;           (* static byte of parseCommand *)
  decimal : Z            (* static byte of parseCommand *)
}.

Definition wReset : Z := 0x0100.
Definition wSine : Z := 0x0000.
Definition wTriangle : Z := 0x0002.
Definition wRectangle : Z := 0x0028.
Definition wRectangle2 : Z := 0x0020.

(** The initial values of the globals and statics. *)
Definition initial_state : state :=
  {| digitArray := [0; 0; 0; 1; 0; 0; 0; 0];
     multiplier := 1;
     divider := 1;
     debug := 0;
     echo := 1;
     waveType := wReset;
     numeric := 0;
     decimal := 0 |}.

Definition set_digitArray (a : list Z) (s : state) : state :=
  mkState a (multiplier s) (divider s) (debug s) (echo s) (waveType s)
          (numeric s) (decimal s).
Definition set_multiplier (v : Z) (s : state) : state :=
  mkState (digitArray s) v (divider s) (debug s) (echo s) (waveType s)
          (numeric s) (decimal s).
Definition set_divider (v : Z) (s : state) : state :=
  mkState (digitArray s) (multiplier s) v (debug s) (echo s) (waveType s)
          (numeric s) (decimal s).
Definition set_debug (v : Z) (s : state) : state :=
  mkState (digitArray s) (multiplier s) (divider s) v (echo s) (waveType s)
          (numeric s) (decimal s).
Definition set_echo (v : Z) (s : state) : state :=
  mkState (digitArray s) (multiplier s) (divider s) (debug s) v (waveType s)
          (numeric s) (decimal s).
Definition set_waveType (v : Z) (s : state) : state :=
  mkState (digitArray s) (multiplier s) (divider s) (debug s) (echo s) v
          (numeric s) (decimal s).
Definition set_numeric (v : Z) (s : state) : state :=
  mkState (digitArray s) (multiplier s) (divider s) (debug s) (echo s)
          (waveType s) v (decimal s).
Definition set_decimal (v : Z) (s : state) : state :=
  mkState (digitArray s) (multiplier s) (divider s) (debug s) (echo s)
          (waveType s) (numeric s) v.

(** ** The state-and-output monad *)

Definition M (A : Type) : Type := state -> A * state * list event.

Definition ret {A} (a : A) : M A := fun s => (a, s, []).

Definition bind {A B} (m : M A) (k : A -> M B) : M B :=
  fun s =>
    let '(a, s1, tr1) := m s in
    let '(b, s2, tr2) := k a s1 in
    (b, s2, tr1 ++ tr2).

Definition gets {A} (f : state -> A) : M A := fun s => (f s, s, []).
Definition modify (f : state -> state) : M unit := fun s => (tt, f s, []).
Definition emit (e : event) : M unit := fun s => (tt, s, [e]).
Definition when (b : bool) (m : M unit) : M unit := if b then m else ret tt.

Notation "x <- m ;; k" := (bind m (fun x => k))
  (at level 61, m at next level, right associativity).
Notation "m ;;; k" := (bind m (fun _ => k))
  (at level 61, right associativity).

Definition state_of {A} (r : A * state * list event) : state := snd (fst r).
Definition trace_of {A} (r : A * state * list event) : list event := snd r.
Definition value_of {A} (r : A * state * list event) : A := fst (fst r).

(** ** Arrays *)

(** [a[ i ] = v] for an index inside the array. *)
Fixpoint upd (i : nat) (v : Z) (a : list Z) : list Z :=
  match a, i with
  | [], _ => []
  | _ :: a', O => v :: a'
  | x :: a', S i' => x :: upd i' v a'
  end.

Definition aget (a : list Z) (i : nat) : Z := nth i a 0.

(** ** powerOf10 *)

Fixpoint powerOf10_loop (x : nat) (y : Z) : Z :=
  match x with
  | O => y
  | S x' => powerOf10_loop x' (to_ulong (y * 10))
  end.

(** [unsigned long powerOf10( byte x )]: the argument is converted to
    [byte] at the call. *)
Definition powerOf10 (x : Z) : Z := powerOf10_loop (Z.to_nat (to_byte x)) 1.

(** ** parseValue *)

Fixpoint parseValue_loop (count iii : nat) (a : list Z) (f : Z) : Z :=
  match count with
  | O => f
  | S count' =>
      parseValue_loop count' (S iii) a
        (to_ulong (f + to_ulong (aget a iii * powerOf10 (Z.of_nat iii))))
  end.

(** The integer [f] that [parseValue] accumulates from the digit array. *)
Definition parseValue_f (s : state) : Z :=
  parseValue_loop numberOfDigits 0 (digitArray s) 0.

Definition parseValue (s : state) : double :=
  ddiv (dmul (double_of_ulong (parseValue_f s)) (double_of_ulong (multiplier s)))
       (double_of_ulong (divider s)).

(** ** The firmware *)

Section Firmware.

(** The C++ standard leaves the conversion of a [double] to [unsigned long]
    undefined when the truncated value is not representable.  The result
    the platform delivers in that case is a parameter of the embedding (it
    is stored in an [unsigned long], hence reduced by [to_ulong]). *)
Variable unrepresentable_to_ulong : double -> Z.

Definition ulong_of_double (x : double) : Z :=
  match x with
  | Finite q =>
      let t := truncate q in
      if (0 <=? t) && (t <? 2 ^ 32) then t
      else to_ulong (unrepresentable_to_ulong x)
  | NonFinite => to_ulong (unrepresentable_to_ulong x)
  end.

(** *** AD9833_writeRegister, AD9833_reset *)

Definition AD9833_writeRegister (dat : Z) : M unit :=
  let dat := to_word dat in
  dbg <- gets debug ;;
  when (negb (dbg =? 0)) (emit (SerialPrintlnHex dat)) ;;;
  emit (RegisterWrite dat).

Definition AD9833_reset : M unit :=
  AD9833_writeRegister 0x2100.

(** *** AD9833_setFrequency *)

(** [0x10000000UL / 25000000.0] *)
Definition freq_to_reg : double :=
  ddiv (double_of_ulong 0x10000000) (Finite (inject_Z 25000000)).

(** [wRectangle == waveType && frequency < 12e6] *)
Definition half_frequency_test (wt : Z) (frequency : double) : bool :=
  (wRectangle =? wt) && dlt frequency (Finite (inject_Z 12000000)).

(** [if ( regFrequency >= 0x8000000UL ) regFrequency = 0x7FFFFFFUL;] *)
Definition clamp_reg (regFrequency : Z) : Z :=
  if 0x8000000 <=? regFrequency then 0x7FFFFFF else regFrequency.

Definition freq_lsb_word (regFrequency : Z) : Z :=
  Z.lor (to_word (Z.land regFrequency 0x3FFF)) 0x4000.

Definition freq_msb_word (regFrequency : Z) : Z :=
  Z.lor (to_word (Z.shiftr (Z.land regFrequency 0xFFFC000) 14)) 0x4000.

Definition AD9833_setFrequency (isFreq : bool) : M unit :=
  frequency <- gets parseValue ;;
  frequency <-
    (if isFreq then
       let frequency := dmul frequency freq_to_reg in
       wt <- gets waveType ;;
       if half_frequency_test wt frequency then
         modify (set_waveType wRectangle2) ;;;
         ret (dmul frequency (Finite (inject_Z 2)))
       else ret frequency
     else ret frequency) ;;
  let regFrequency := clamp_reg (ulong_of_double (dround frequency)) in
  AD9833_writeRegister (freq_lsb_word regFrequency) ;;;
  AD9833_writeRegister (freq_msb_word regFrequency) ;;;
  wt <- gets waveType ;;
  AD9833_writeRegister (Z.lor 0x2000 wt).

(** *** showHelp *)

Definition showHelp : M unit :=
  emit (SerialPrintln "TinyAD9833 Frequency Generator"%string) ;;;
  emit (SerialPrintln "usage: <number>[STONED]"%string) ;;;
  emit (SerialPrintln "<number>: 1..8 digits, opt. dot, k, M"%string) ;;;
  emit (SerialPrintln "S:Sin, T:Tri, O:Off"%string) ;;;
  emit (SerialPrintln "N: to reg, n*0.093 Hz Sin"%string) ;;;
  emit (SerialPrintln "E: echo"%string) ;;;
  emit (SerialPrintln "Z: debug"%string).

(** *** parseCommand *)

(** The loop [for ( byte i = numberOfDigits - 1; i > 0; i-- )] of the digit
    branch, entered with [i]. *)
Fixpoint shift_loop (i : nat) (num : Z) (a : list Z) : list Z :=
  match i with
  | O => a
  | S j => shift_loop j num (upd i (if num =? 0 then 0 else aget a j) a)
  end.

Definition println : M unit := emit (SerialPrintln ""%string).

(** The [switch ( toupper( c ) )] of the terminator branch. *)
Definition execute (C : ascii) : M unit :=
  match C with
  | "?"%char => println ;;; showHelp
  | "E"%char =>
      println ;;;
      a <- gets digitArray ;;
      modify (set_echo (to_int8 (aget a 0)))
  | "K"%char => modify (set_multiplier 1000)
  | "M"%char => modify (set_multiplier 1000000)
  | "N"%char =>
      println ;;;
      modify (set_waveType wSine) ;;;
      AD9833_setFrequency false
  | "O"%char => println ;;; AD9833_reset
  | "S"%char =>
      modify (set_waveType wSine) ;;;
      println ;;;
      AD9833_setFrequency true
  | "T"%char =>
      println ;;;
      modify (set_waveType wTriangle) ;;;
      AD9833_setFrequency true
  | "Z"%char =>
      println ;;;
      a <- gets digitArray ;;
      modify (set_debug (to_int8 (aget a 0)))
  | _ => ret tt
  end.

(** The head of the terminator branch: the divider is fixed from the
    decimal point, the two counters are cleared. *)
Definition terminate : M unit :=
  d <- gets decimal ;;
  n <- gets numeric ;;
  when (negb (d =? 0) && negb (n =? 0))
       (modify (set_divider (powerOf10 (n - d + 1)))) ;;;
  modify (set_numeric 0) ;;;
  modify (set_decimal 0).

Definition is_digit (c : ascii) : bool :=
  (48 <=? char_val c) && (char_val c <=? 57).

(** One call of [parseCommand]; [available] is the byte waiting in the
    serial input buffer, if any. *)
Definition parseCommand (available : option ascii) : M unit :=
  match available with
  | None => ret tt
  | Some c =>
      e <- gets echo ;;
      when (negb (e =? 0) && (32 <=? char_val c)) (emit (SerialWrite c)) ;;;
      if is_digit c then
        n <- gets numeric ;;
        a <- gets digitArray ;;
        modify (set_digitArray
                  (upd 0 (to_byte (char_val c - 48))
                       (shift_loop (numberOfDigits - 1) n a))) ;;;
        modify (set_numeric (to_byte (n + 1))) ;;;
        modify (set_multiplier 1) ;;;
        modify (set_divider 1)
      else if char_val c =? 46 then
        n <- gets numeric ;;
        modify (set_decimal (to_byte (n + 1)))
      else
        terminate ;;;
        execute (toupper c)
  end.

(** *** setup and loop *)

Definition setup : M unit :=
  AD9833_reset ;;;      (* initSigGen *)
  AD9833_reset.

(** [loop] called once for each byte of [input]. *)
Fixpoint loop (input : list ascii) : M unit :=
  match input with
  | [] => ret tt
  | c :: rest => parseCommand (Some c) ;;; loop rest
  end.

(** The state after the bytes [input] were processed from [s]. *)
Definition after (s : state) (input : list ascii) : state :=
  state_of (loop input s).

(** The chip writes caused by processing [input] from [s]. *)
Definition writes (s : state) (input : list ascii) : list Z :=
  register_writes (trace_of (loop input s)).

(** States the firmware can be in between two calls of [loop]. *)
Inductive reachable : state -> Prop :=
| reachable_setup : reachable (state_of (setup initial_state))
| reachable_step s available :
    reachable s -> reachable (state_of (parseCommand available s)).

(** The value [parseValue] returns to a command dispatched from [s]: the
    terminator branch has run its head before the command reads it. *)
Definition finalized_value (s : state) : double :=
  parseValue (state_of (terminate s)).

(** *** Derived quantities of the encoder *)

(** The frequency the encoder rounds, as a function of the state it is
    called in. *)
Definition encoder_frequency (isFreq : bool) (s : state) : double :=
  if isFreq then
    let frequency := dmul (parseValue s) freq_to_reg in
    if half_frequency_test (waveType s) frequency
    then dmul frequency (Finite (inject_Z 2))
    else frequency
  else parseValue s.

(** The clamped register value of the encoder. *)
Definition encoder_reg (isFreq : bool) (s : state) : Z :=
  clamp_reg (ulong_of_double (dround (encoder_frequency isFreq s))).

(** The register value a command computes from the state it is
    dispatched in. *)
Definition command_reg (isFreq : bool) (s : state) : Z :=
  clamp_reg
    (ulong_of_double
       (dround (if isFreq then dmul (finalized_value s) freq_to_reg
                else finalized_value s))).

End Firmware.

(** A concrete platform, used where an instance is needed: the conversion
    of an unrepresentable value keeps the low 32 bits of the truncated
    value, and maps a non-finite value to 0. *)
Definition wrapping_conversion (x : double) : Z :=
  match x with
  | Finite q => truncate q
  | NonFinite => 0
  end.

(** The state in which [loop] is first called. *)
Definition booted : state := state_of (setup initial_state).

(** ** The standard library's binary32

    [SpecFloat] is the standard library's specification of IEEE 754
    arithmetic, on significands and exponents.  At precision 24 and
    maximal exponent 128 it is binary32; it serves to cross-check
    [round32] and the operations built on it. *)

Definition SF_of_ulong (n : Z) : SpecFloat.spec_float :=
  SpecFloat.binary_normalize 24 128 n 0 false.

Definition double_of_SF (x : SpecFloat.spec_float) : double :=
  match x with
  | SpecFloat.S754_zero _ => Finite 0
  | SpecFloat.S754_finite sign m e =>
      Finite (Qred ((if sign then - inject_Z (Zpos m) else inject_Z (Zpos m))
                    * pow2 e))
  | _ => NonFinite
  end.

(** The same value in the same lowest terms. *)
Definition same_double (a b : double) : bool :=
  match a, b with
  | Finite x, Finite y => (Qnum x =? Qnum y) && (Qden x =? Qden y)%positive
  | NonFinite, NonFinite => true
  | _, _ => false
  end.

(** Conversion, product, quotient and the encoder's scaling of the
    quotient, computed both ways from two integers. *)
Definition cross_check (m n : Z) : bool :=
  let x := SF_of_ulong m in
  let y := SF_of_ulong n in
  let c := SpecFloat.SFdiv 24 128 (SF_of_ulong 0x10000000)
                           (SF_of_ulong 25000000) in
  same_double (double_of_SF x) (double_of_ulong m) &&
  same_double (double_of_SF (SpecFloat.SFmul 24 128 x y))
              (dmul (double_of_ulong m) (double_of_ulong n)) &&
  same_double (double_of_SF (SpecFloat.SFdiv 24 128 x y))
              (ddiv (double_of_ulong m) (double_of_ulong n)) &&
  same_double
    (double_of_SF (SpecFloat.SFmul 24 128 (SpecFloat.SFdiv 24 128 x y) c))
    (dmul (ddiv (double_of_ulong m) (double_of_ulong n)) freq_to_reg).

Definition cross_check_samples : list Z :=
  [0; 1; 2; 3; 5; 7; 10; 15; 100; 405; 1000; 12345; 300000; 1000000;
   5000000; 12345678; 16777215; 16777216; 16777217; 16777219; 25000000;
   33554434; 99999999; 100000000; 268435456; 1410065408; 4294967295].

(** ** Notions used in the statements *)

(** The letters the [switch] of the terminator branch has a case for. *)
Definition command_letters : list ascii :=
  ["?"; "E"; "K"; "M"; "N"; "O"; "S"; "T"; "Z"]%char.

(** A terminator without a case of its own: neither a digit nor the
    decimal point, and its upper-case form is no command letter. *)
Definition unrecognized (c : ascii) : bool :=
  negb (is_digit c) && negb (char_val c =? 46) &&
  negb (existsb (Ascii.eqb (toupper c)) command_letters).

(** The commands that call the encoder, with the [isFreq] argument they
    pass and the wave type they store first. *)
Definition encoder_command (C : ascii) : option (bool * Z) :=
  match C with
  | "N"%char => Some (false, wSine)
  | "S"%char => Some (true, wSine)
  | "T"%char => Some (true, wTriangle)
  | _ => None
  end.

(** What a command can change: [execute] never touches the digit array,
    the divider or the two counters. *)
Record execute_frame (s s' : state) : Prop := {
  frame_digitArray : digitArray s' = digitArray s;
  frame_divider : divider s' = divider s;
  frame_numeric : numeric s' = numeric s;
  frame_decimal : decimal s' = decimal s;
  frame_multiplier :
    multiplier s' = multiplier s \/ multiplier s' = 1000 \/
    multiplier s' = 1000000;
  frame_waveType :
    waveType s' = waveType s \/ waveType s' = wSine \/ waveType s' = wTriangle
}.

(** A decimal digit. *)
Definition digit_ok (d : Z) : Prop := 0 <= d <= 9.

(** What holds of every reachable state: eight slots of decimal digits,
    a unit multiplier, one of the three wave types that have a command,
    a divider in the range of [unsigned long]. *)
Record inv (s : state) : Prop := {
  inv_length : List.length (digitArray s) = numberOfDigits;
  inv_digits : Forall digit_ok (digitArray s);
  inv_multiplier :
    multiplier s = 1 \/ multiplier s = 1000 \/ multiplier s = 1000000;
  inv_waveType :
    waveType s = wReset \/ waveType s = wSine \/ waveType s = wTriangle;
  inv_divider : 0 <= divider s < 2 ^ 32
}.

(** [weighted_sum i a] is the sum of [a[ k ] * 10 ^ (i + k)] over the
    slots [k] of [a]. *)
Fixpoint weighted_sum (i : nat) (a : list Z) : Z :=
  match a with
  | [] => 0
  | d :: a' => d * 10 ^ Z.of_nat i + weighted_sum (S i) a'
  end.

(** The digit a digit character stands for. *)
Definition digit_value (c : ascii) : Z := char_val c - 48.

(** The decimal integer a sequence of digit characters spells, read in
    entry order. *)
Definition spelled (ds : list ascii) : Z :=
  fold_left (fun acc c => 10 * acc + digit_value c) ds 0.

(** What the state holds after one to eight digits of a fresh entry. *)
Record entered (ds : list ascii) (s s' : state) : Prop := {
  entered_digitArray :
    digitArray s' =
    rev (map digit_value ds) ++ repeat 0 (numberOfDigits - List.length ds);
  entered_numeric : numeric s' = Z.of_nat (List.length ds);
  entered_multiplier : multiplier s' = 1;
  entered_divider : divider s' = 1;
  entered_decimal : decimal s' = decimal s
}.

(** A state holding the value [digit * multiplier] with wave type [wave]. *)
Definition holding (digit mult wave : Z) : state :=
  {| digitArray := [digit; 0; 0; 0; 0; 0; 0; 0];
     multiplier := mult; divider := 1; debug := 0; echo := 1;
     waveType := wave; numeric := 0; decimal := 0 |}.


(** ** Further notions for the properties beyond the claims *)

(** A lower-case letter, as [toupper] tests it. *)
Definition is_lower (c : ascii) : bool :=
  (97 <=? char_val c) && (char_val c <=? 122).

(** The bytes echoed with [SerialUSB.write], in order. *)
Fixpoint serial_writes (tr : list event) : list ascii :=
  match tr with
  | [] => []
  | SerialWrite c :: tr' => c :: serial_writes tr'
  | _ :: tr' => serial_writes tr'
  end.

(** The words printed by the debug trace of the register writer. *)
Fixpoint hex_prints (tr : list event) : list Z :=
  match tr with
  | [] => []
  | SerialPrintlnHex dat :: tr' => dat :: hex_prints tr'
  | _ :: tr' => hex_prints tr'
  end.

(** The word a chip write addresses to the FREQ0 register: D15 D14 = 01. *)
Definition freq0_word (w : Z) : Prop := 0x4000 <= w < 0x8000.

(** The 28-bit value two FREQ0 words carry, LSB word first. *)
Definition recombine (lsbWord msbWord : Z) : Z :=
  Z.lor (Z.shiftl (Z.land msbWord 0x3FFF) 14) (Z.land lsbWord 0x3FFF).

(** The state a command of the [switch] leaves, case by case. *)
Definition execute_state (C : ascii) (t : state) : state :=
  match C with
  | "E"%char => set_echo (to_int8 (aget (digitArray t) 0)) t
  | "K"%char => set_multiplier 1000 t
  | "M"%char => set_multiplier 1000000 t
  | "N"%char => set_waveType wSine t
  | "S"%char => set_waveType wSine t
  | "T"%char => set_waveType wTriangle t
  | "Z"%char => set_debug (to_int8 (aget (digitArray t) 0)) t
  | _ => t
  end.

(** The ranges the two switches and the two counters stay in. *)
Record small_ranges (s : state) : Prop := {
  range_echo : 0 <= echo s <= 9;
  range_debug : 0 <= debug s <= 9;
  range_numeric : 0 <= numeric s < 256;
  range_decimal : 0 <= decimal s < 256
}.

(** ** The three-wire link, pin by pin

    [AD9833_writeRegister] once more, at the level of the port register:
    the result is the final value of PORTB and the values written to
    it, in order.  [PB0], [PB1], [PB2] and [_BV] are those of
    <avr/io.h>; PORTB and DDRB are 8-bit registers. *)

Definition PB0 : Z := 0.
Definition PB1 : Z := 1.
Definition PB2 : Z := 2.

(** [_BV( bit )] *)
Definition BV (bit : Z) : Z := Z.shiftl 1 bit.

Definition DATA_HIGH (portb : Z) : Z := to_byte (Z.lor portb (BV PB0)).
Definition DATA_LOW (portb : Z) : Z :=
  to_byte (Z.land portb (Z.lnot (BV PB0))).
Definition FSYNC_HIGH (portb : Z) : Z := to_byte (Z.lor portb (BV PB1)).
Definition FSYNC_LOW (portb : Z) : Z :=
  to_byte (Z.land portb (Z.lnot (BV PB1))).
Definition CLK_HIGH (portb : Z) : Z := to_byte (Z.lor portb (BV PB2)).
Definition CLK_LOW (portb : Z) : Z :=
  to_byte (Z.land portb (Z.lnot (BV PB2))).

(** The loop [for ( byte iii = 0; iii < 16; ++iii )] with [count]
    iterations to go. *)
Fixpoint shift_out (count : nat) (dat portb : Z) : Z * list Z :=
  match count with
  | O => (portb, [])
  | S count' =>
      let p1 := if negb (Z.land dat 0x8000 =? 0)
                then DATA_HIGH portb else DATA_LOW portb in
      let dat' := to_word (Z.shiftl dat 1) in
      let p2 := CLK_LOW p1 in
      let p3 := CLK_HIGH p2 in
      let r := shift_out count' dat' p3 in
      (fst r, p1 :: p2 :: p3 :: snd r)
  end.

Definition AD9833_writeRegister_pins (dat portb : Z) : Z * list Z :=
  let dat := to_word dat in
  let p1 := CLK_HIGH portb in
  let p2 := FSYNC_LOW p1 in
  let r := shift_out 16 dat p2 in
  let p3 := FSYNC_HIGH (fst r) in
  (p3, p1 :: p2 :: snd r ++ [p3]).

(** [initSigGen], pin by pin: the final DDRB and PORTB and the values
    written to PORTB. *)
Definition initSigGen_pins (ddrb portb : Z) : Z * Z * list Z :=
  let ddrb' := to_byte (Z.lor ddrb (Z.lor (Z.lor (BV PB0) (BV PB1)) (BV PB2))) in
  let p1 := FSYNC_HIGH portb in
  let p2 := CLK_HIGH p1 in
  let r := AD9833_writeRegister_pins 0x2100 p2 in
  (ddrb', fst r, p1 :: p2 :: snd r).

(** The levels of the three lines in a value of PORTB. *)
Definition data_line (portb : Z) : bool := Z.testbit portb PB0.
Definition fsync_line (portb : Z) : bool := Z.testbit portb PB1.
Definition clk_line (portb : Z) : bool := Z.testbit portb PB2.

(** The receiver: the AD9833 shifts the level of the data line in on
    each falling edge of the clock while frame sync is low.
    [sampled_bits prev tr] are the bits it takes from the port writes
    [tr] that follow the port value [prev]. *)
Fixpoint sampled_bits (prev : Z) (tr : list Z) : list bool :=
  match tr with
  | [] => []
  | p :: tr' =>
      if clk_line prev && negb (clk_line p) && negb (fsync_line p)
      then data_line p :: sampled_bits p tr'
      else sampled_bits p tr'
  end.

(** The number a bit sequence spells, most significant bit first. *)
Fixpoint bits_value (bits : list bool) (acc : Z) : Z :=
  match bits with
  | [] => acc
  | b :: bits' => bits_value bits' (2 * acc + Z.b2z b)
  end.

(** Bits 15 down to 0 of a word. *)
Definition word_bits (w : Z) : list bool :=
  map (fun i => Z.testbit w (15 - Z.of_nat i)) (seq 0 16).

(** The pins of PORTB the link does not use. *)
Definition other_pins_as (portb q : Z) : Prop :=
  forall i, 3 <= i < 8 -> Z.testbit q i = Z.testbit portb i.

(** ** Rounding to binary32 *)

Section Binary32.

Lemma pow2_pos k : (0 < pow2 k)%Q.
Proof. apply Qpower_0_lt. reflexivity. Qed.

Lemma pow2_add j k : (pow2 (j + k) == pow2 j * pow2 k)%Q.
Proof. apply Qpower_plus. intros H; discriminate H. Qed.

Lemma pow2_inject k : 0 <= k -> (pow2 k == inject_Z (2 ^ k))%Q.
Proof. intros H. symmetry. apply (Zpower_Qpower 2 k H). Qed.

Lemma pow2_le j k : j <= k -> (pow2 j <= pow2 k)%Q.
Proof. intros H. apply Qpower_le_compat_l; [exact H|]. discriminate. Qed.

Lemma pow2_lt j k : j < k -> (pow2 j < pow2 k)%Q.
Proof. intros H. apply Qpower_lt_compat_l; [exact H|]. reflexivity. Qed.

Lemma pow2_lt_inv j k : (pow2 j < pow2 k)%Q -> j < k.
Proof. intros H. apply (Qpower_lt_compat_l_inv 2); [exact H|reflexivity]. Qed.

Lemma pow2_succ k : (pow2 (k + 1) == 2 * pow2 k)%Q.
Proof. rewrite pow2_add. change (pow2 1) with 2%Q. ring. Qed.

Lemma pow2_pred k : (2 * pow2 (k - 1) == pow2 k)%Q.
Proof.
  replace k with ((k - 1) + 1) at 2 by lia. rewrite pow2_succ. reflexivity.
Qed.

Lemma Qlog2_spec q :
  (0 < q)%Q -> (pow2 (Qlog2 q) <= q < pow2 (Qlog2 q + 1))%Q.
Proof.
  intros Hq. destruct q as [n d].
  assert (Hn : 0 < n) by (unfold Qlt in Hq; cbn in Hq; lia).
  unfold Qlog2. cbn [Qnum Qden].
  set (a := Z.log2 n). set (b := Z.log2 (Z.pos d)).
  pose proof (Z.log2_nonneg n) as Ha0. fold a in Ha0.
  pose proof (Z.log2_nonneg (Z.pos d)) as Hb0. fold b in Hb0.
  destruct (Z.log2_spec n Hn) as [Ha1 Ha2]. fold a in Ha1, Ha2.
  destruct (Z.log2_spec (Z.pos d) (Pos2Z.is_pos d)) as [Hb1 Hb2].
  fold b in Hb1, Hb2.
  rewrite (Zle_Qle), <- pow2_inject in Ha1 by lia.
  rewrite (Zlt_Qlt), <- pow2_inject in Ha2 by lia.
  rewrite (Zle_Qle), <- pow2_inject in Hb1 by lia.
  rewrite (Zlt_Qlt), <- pow2_inject in Hb2 by lia.
  replace (Z.succ a) with (a + 1) in Ha2 by lia.
  replace (Z.succ b) with (b + 1) in Hb2 by lia.
  rewrite pow2_succ in Ha2, Hb2.
  assert (Eq : ((n # d) * inject_Z (Z.pos d) == inject_Z n)%Q).
  { rewrite (Qmake_Qdiv n d). field. intros H; discriminate H. }
  assert (EP : (pow2 (a - b) * pow2 b == pow2 a)%Q).
  { rewrite <- pow2_add. replace (a - b + b) with a by lia. reflexivity. }
  pose proof (pow2_pos a) as HX. pose proof (pow2_pos b) as HY.
  pose proof (pow2_pos (a - b)) as HP.
  set (q := n # d) in *. set (N := inject_Z n) in *.
  set (D := inject_Z (Z.pos d)) in *.
  set (X := pow2 a) in *. set (Y := pow2 b) in *. 
  destruct (Qle_bool (pow2 (a - b)) q) eqn:E.
  - apply Qle_bool_iff in E. split; [exact E|].
    rewrite pow2_succ. set (P := pow2 (a - b)) in *. clearbody q N D X Y P.
    nra.
  - assert (E' : (q < pow2 (a - b))%Q).
    { apply Qnot_le_lt. intros H. apply Qle_bool_iff in H. congruence. }
    replace (a - b - 1 + 1) with (a - b) by lia.
    split; [|exact E'].
    pose proof (pow2_pred (a - b)) as EP'.
    set (P := pow2 (a - b)) in *. set (P' := pow2 (a - b - 1)) in *.
    clearbody q N D X Y P P'. nra.
Qed.

Lemma Qlog2_unique q e :
  (0 < q)%Q -> (pow2 e <= q < pow2 (e + 1))%Q -> Qlog2 q = e.
Proof.
  intros Hq [H1 H2]. destruct (Qlog2_spec q Hq) as [S1 S2].
  assert (A : Qlog2 q < e + 1).
  { apply pow2_lt_inv. apply Qle_lt_trans with q; assumption. }
  assert (B : e < Qlog2 q + 1).
  { apply pow2_lt_inv. apply Qle_lt_trans with q; assumption. }
  lia.
Qed.

Lemma Qlog2_comp q q' : (0 < q)%Q -> (q == q')%Q -> Qlog2 q = Qlog2 q'.
Proof.
  intros Hq E. apply Qlog2_unique; [exact Hq|].
  rewrite E. apply Qlog2_spec. rewrite <- E. exact Hq.
Qed.

Lemma Qlog2_inject n : 0 < n -> Qlog2 (inject_Z n) = Z.log2 n.
Proof.
  intros Hn. destruct (Z.log2_spec n Hn) as [H1 H2].
  pose proof (Z.log2_nonneg n) as H0.
  apply Qlog2_unique.
  - change 0%Q with (inject_Z 0). rewrite <- Zlt_Qlt. exact Hn.
  - rewrite !pow2_inject by lia. rewrite <- Zle_Qle, <- Zlt_Qlt.
    replace (Z.log2 n + 1) with (Z.succ (Z.log2 n)) by lia. lia.
Qed.

Lemma Qrne_comp x y : (x == y)%Q -> Qrne x = Qrne y.
Proof.
  intros E. unfold Qrne. rewrite (Qfloor_comp _ _ E).
  assert (E' : (x - inject_Z (Qfloor y) == y - inject_Z (Qfloor y))%Q)
    by (rewrite E; reflexivity).
  rewrite (Qcompare_comp _ _ E' _ _ (Qeq_refl _)). reflexivity.
Qed.

Lemma Qrne_Z m : Qrne (inject_Z m) = m.
Proof.
  unfold Qrne. rewrite Qfloor_Z.
  assert (E : (inject_Z m - inject_Z m == 0)%Q) by ring.
  rewrite (Qcompare_comp _ _ E _ _ (Qeq_refl _)). reflexivity.
Qed.

Lemma Qrne_near x :
  (inject_Z (Qrne x) - (1 # 2) <= x <= inject_Z (Qrne x) + (1 # 2))%Q.
Proof.
  unfold Qrne.
  pose proof (Qfloor_le x) as H1. pose proof (Qlt_floor x) as H2.
  rewrite inject_Z_plus in H2. change (inject_Z 1) with 1%Q in H2.
  set (f := Qfloor x) in *.
  destruct (Qcompare_spec (x - inject_Z f) (1 # 2)) as [E|E|E].
  - destruct (Z.even f); rewrite ?inject_Z_plus;
      change (inject_Z 1) with 1%Q; lra.
  - lra.
  - rewrite inject_Z_plus. change (inject_Z 1) with 1%Q. lra.
Qed.

Lemma Qrne_le_Z x N : (x <= inject_Z N)%Q -> Qrne x <= N.
Proof.
  intros H. destruct (Qrne_near x) as [H1 _].
  destruct (Z_le_gt_dec (Qrne x) N) as [L|G]; [exact L|exfalso].
  assert (G' : N + 1 <= Qrne x) by lia.
  rewrite Zle_Qle, inject_Z_plus in G'. change (inject_Z 1) with 1%Q in G'.
  lra.
Qed.

Lemma Qrne_ge_Z x N : (inject_Z N <= x)%Q -> N <= Qrne x.
Proof.
  intros H. destruct (Qrne_near x) as [_ H1].
  destruct (Z_le_gt_dec N (Qrne x)) as [L|G]; [exact L|exfalso].
  assert (G' : Qrne x + 1 <= N) by lia.
  rewrite Zle_Qle, inject_Z_plus in G'. change (inject_Z 1) with 1%Q in G'.
  lra.
Qed.

Lemma Qred_idem r : Qred (Qred r) = Qred r.
Proof. apply Qred_complete, Qred_correct. Qed.

Lemma round32_magnitude_comp a a' :
  (0 < a)%Q -> (a == a')%Q -> round32_magnitude a = round32_magnitude a'.
Proof.
  intros Ha E. unfold round32_magnitude.
  rewrite <- (Qlog2_comp a a' Ha E).
  set (k := Z.max (Qlog2 a - 23) (-149)).
  assert (Ex : (a / pow2 k == a' / pow2 k)%Q) by (rewrite E; reflexivity).
  rewrite (Qrne_comp _ _ Ex). reflexivity.
Qed.

Lemma round32_comp q q' : (q == q')%Q -> round32 q = round32 q'.
Proof.
  intros E. unfold round32.
  rewrite <- (Qcompare_comp _ _ E _ _ (Qeq_refl 0)).
  destruct (Qcompare_spec q 0) as [H|H|H].
  - reflexivity.
  - rewrite (round32_magnitude_comp (- q) (- q')); [reflexivity|lra|].
    rewrite E; reflexivity.
  - rewrite (round32_magnitude_comp q q' H E). reflexivity.
Qed.

(** The rounded magnitude, taken apart. *)
Lemma round32_magnitude_parts a :
  (0 < a)%Q ->
  exists e k m,
    (pow2 e <= a < pow2 (e + 1))%Q /\
    k = Z.max (e - 23) (-149) /\
    m = Qrne (a / pow2 k) /\
    0 <= m <= 2 ^ 24 /\
    (inject_Z m - (1 # 2) <= a / pow2 k <= inject_Z m + (1 # 2))%Q /\
    round32_magnitude a =
      if Qle_bool (pow2 128) (inject_Z m * pow2 k)
      then None else Some (Qred (inject_Z m * pow2 k)).
Proof.
  intros Ha. destruct (Qlog2_spec a Ha) as [S1 S2].
  exists (Qlog2 a), (Z.max (Qlog2 a - 23) (-149)),
    (Qrne (a / pow2 (Z.max (Qlog2 a - 23) (-149)))).
  set (e := Qlog2 a) in *. set (k := Z.max (e - 23) (-149)).
  split; [split; assumption|]. split; [reflexivity|]. split; [reflexivity|].
  pose proof (pow2_pos k) as Hk.
  split; [|split; [apply Qrne_near|reflexivity]].
  split.
  - apply Qrne_ge_Z. change (inject_Z 0) with 0%Q.
    apply Qle_shift_div_l; [exact Hk|]. lra.
  - apply Qrne_le_Z. rewrite <- pow2_inject by lia.
    apply Qle_shift_div_r; [exact Hk|].
    rewrite <- pow2_add.
    apply Qle_trans with (pow2 (e + 1)); [lra|].
    apply pow2_le. lia.
Qed.

Lemma Qle_bool_false x y : Qle_bool x y = false <-> (y < x)%Q.
Proof.
  split; intros H.
  - apply Qnot_le_lt. intros L. apply Qle_bool_iff in L. congruence.
  - destruct (Qle_bool x y) eqn:E; [|reflexivity].
    apply Qle_bool_iff in E. lra.
Qed.

Lemma Some_eq {A} (x y : A) : Some x = Some y -> x = y.
Proof. congruence. Qed.

Lemma Finite_eq x y : Finite x = Finite y -> x = y.
Proof. congruence. Qed.

Lemma binary32_0 : binary32 0.
Proof.
  split; [reflexivity|]. exists 0, 0. repeat split; try lia.
Qed.

(** What rounding delivers is a binary32 number. *)
Lemma round32_magnitude_binary32 a r :
  (0 < a)%Q -> round32_magnitude a = Some r -> binary32 r /\ (0 <= r)%Q.
Proof.
  intros Ha Hr.
  destruct (round32_magnitude_parts a Ha)
    as (e & k & m & He & Ek & Em & Hm & Hx & E).
  rewrite E in Hr.
  destruct (Qle_bool (pow2 128) (inject_Z m * pow2 k)) eqn:Ho;
    [discriminate|].
  apply Some_eq in Hr. subst r. apply Qle_bool_false in Ho.
  pose proof (pow2_pos k) as Hk.
  assert (Hm0 : (0 <= inject_Z m)%Q).
  { change 0%Q with (inject_Z 0). rewrite <- Zle_Qle. lia. }
  split; [split|].
  - apply Qred_idem.
  - destruct (Z.eq_dec m (2 ^ 24)) as [Et|Nt].
    + exists (2 ^ 23), (k + 1). split; [lia|]. split; [lia|].
      rewrite Qred_correct. split; [|exact Ho].
      rewrite Et, pow2_succ.
      change (inject_Z (2 ^ 24)) with (2 * inject_Z (2 ^ 23))%Q. ring.
    + exists m, k. split; [lia|]. split; [lia|].
      rewrite Qred_correct. split; [reflexivity|exact Ho].
  - rewrite Qred_correct. apply Qmult_le_0_compat; lra.
Qed.

(** A binary32 number rounds to itself. *)
Lemma round32_magnitude_exact r :
  binary32 r -> (0 < r)%Q -> round32_magnitude r = Some r.
Proof.
  intros [Hred (M & K & HM & HK & Er & Hlt)] Hr.
  destruct (round32_magnitude_parts r Hr)
    as (e & k & m & He & Ek & Em & Hm & Hx & E).
  rewrite E. clear E.
  pose proof (pow2_pos k) as Hk. pose proof (pow2_pos K) as HK'.
  assert (HeK : e - 23 <= K).
  { assert (L : e < 24 + K); [|lia].
    apply pow2_lt_inv. apply Qle_lt_trans with r; [apply He|].
    rewrite Er, pow2_add, (pow2_inject 24) by lia.
    apply Qmult_lt_compat_r; [exact HK'|].
    rewrite <- Zlt_Qlt. lia. }
  assert (HkK : 0 <= K - k) by lia.
  assert (Ex : (r / pow2 k == inject_Z (M * 2 ^ (K - k)))%Q).
  { rewrite Er, inject_Z_mult, <- pow2_inject by lia.
    replace K with ((K - k) + k) at 1 by lia. rewrite pow2_add.
    field. lra. }
  assert (Emm : m = M * 2 ^ (K - k)).
  { rewrite Em, (Qrne_comp _ _ Ex). apply Qrne_Z. }
  assert (Err : (inject_Z m * pow2 k == r)%Q).
  { rewrite Emm, Er, inject_Z_mult, <- pow2_inject by lia.
    replace K with ((K - k) + k) at 2 by lia. rewrite pow2_add. ring. }
  rewrite (Qleb_comp _ _ (Qeq_refl _) _ _ Err).
  replace (Qle_bool (pow2 128) r) with false
    by (symmetry; apply Qle_bool_false; exact Hlt).
  rewrite (Qred_complete _ _ Err), Hred. reflexivity.
Qed.

(** The rounding error is at most half a unit in the last place. *)
Lemma round32_magnitude_error a r E :
  (0 < a)%Q -> (a < pow2 (E + 1))%Q -> -126 <= E ->
  round32_magnitude a = Some r ->
  (r - pow2 (E - 24) <= a <= r + pow2 (E - 24))%Q.
Proof.
  intros Ha HE HE' Hr.
  destruct (round32_magnitude_parts a Ha)
    as (e & k & m & He & Ek & Em & Hm & Hx & Eq).
  rewrite Eq in Hr.
  destruct (Qle_bool (pow2 128) (inject_Z m * pow2 k)); [discriminate|].
  apply Some_eq in Hr. subst r. rewrite Qred_correct.
  assert (HeE : e < E + 1).
  { apply pow2_lt_inv. apply Qle_lt_trans with a; [apply He|exact HE]. }
  assert (Hk1 : (pow2 (k - 1) <= pow2 (E - 24))%Q) by (apply pow2_le; lia).
  pose proof (pow2_pred k) as EP.
  pose proof (pow2_pos k) as Hk.
  assert (Ea : (a == a / pow2 k * pow2 k)%Q) by (field; lra).
  set (x := (a / pow2 k)%Q) in *. set (P := pow2 (k - 1)) in *.
  set (Pk := pow2 k) in *.
  set (U := pow2 (E - 24)) in *. set (mm := inject_Z m) in *.
  clearbody x P Pk U mm. destruct Hx as [Hx1 Hx2].
  assert (A1 : (0 <= (x - (mm - (1 # 2))) * Pk)%Q)
    by (apply Qmult_le_0_compat; lra).
  assert (A2 : (0 <= (mm + (1 # 2) - x) * Pk)%Q)
    by (apply Qmult_le_0_compat; lra).
  rewrite Ea. clear - Hk1 Hk EP A1 A2. split; lra.
Qed.

(** No overflow below [2 ^ 127], and the result keeps the sign. *)
Lemma round32_magnitude_finite a :
  (0 < a)%Q -> (a < pow2 127)%Q -> exists r, round32_magnitude a = Some r.
Proof.
  intros Ha Hb.
  destruct (round32_magnitude_parts a Ha)
    as (e & k & m & He & Ek & Em & Hm & Hx & Eq).
  rewrite Eq.
  assert (HeE : e < 127).
  { apply pow2_lt_inv. apply Qle_lt_trans with a; [apply He|exact Hb]. }
  replace (Qle_bool (pow2 128) (inject_Z m * pow2 k)) with false;
    [eexists; reflexivity|].
  symmetry. apply Qle_bool_false.
  pose proof (pow2_pos k) as Hk.
  apply Qle_lt_trans with (inject_Z (2 ^ 24) * pow2 k)%Q.
  - apply Qmult_le_compat_r; [|lra]. rewrite <- Zle_Qle. lia.
  - rewrite <- pow2_inject, <- pow2_add by lia. apply pow2_lt. lia.
Qed.

Lemma round32_0 : round32 0 = Finite 0.
Proof. reflexivity. Qed.

Lemma round32_pos q :
  (0 < q)%Q ->
  round32 q = match round32_magnitude q with
              | Some r => Finite r
              | None => NonFinite
              end.
Proof.
  intros H. unfold round32.
  destruct (Qcompare_spec q 0) as [E|E|E]; [lra|lra|reflexivity].
Qed.

Lemma round32_zero q : (q == 0)%Q -> round32 q = Finite 0.
Proof. intros E. rewrite (round32_comp _ _ E). reflexivity. Qed.

Lemma round32_binary32 q r :
  (0 <= q)%Q -> round32 q = Finite r -> binary32 r /\ (0 <= r)%Q.
Proof.
  intros Hq Hr.
  destruct (Qle_lt_or_eq _ _ Hq) as [Hpos|Hz].
  - rewrite round32_pos in Hr by exact Hpos.
    destruct (round32_magnitude q) as [r'|] eqn:E; [|discriminate].
    apply Finite_eq in Hr. subst r. apply (round32_magnitude_binary32 q r' Hpos E).
  - rewrite round32_zero in Hr by (symmetry; exact Hz).
    apply Finite_eq in Hr. subst r. split; [exact binary32_0|lra].
Qed.

Lemma round32_exact r : binary32 r -> (0 <= r)%Q -> round32 r = Finite r.
Proof.
  intros Hb Hr.
  destruct (Qle_lt_or_eq _ _ Hr) as [Hpos|Hz].
  - rewrite round32_pos, round32_magnitude_exact by assumption. reflexivity.
  - rewrite round32_zero by (symmetry; exact Hz).
    destruct Hb as [<- _]. f_equal.
    change 0%Q with (Qred 0). apply Qred_complete. exact Hz.
Qed.

Lemma round32_finite q :
  (0 <= q)%Q -> (q < pow2 127)%Q -> exists r, round32 q = Finite r.
Proof.
  intros Hq Hb.
  destruct (Qle_lt_or_eq _ _ Hq) as [Hpos|Hz].
  - rewrite round32_pos by exact Hpos.
    destruct (round32_magnitude_finite q Hpos Hb) as [r ->]. eauto.
  - rewrite round32_zero by (symmetry; exact Hz). eauto.
Qed.

Lemma round32_error q r E :
  (0 <= q)%Q -> (q < pow2 (E + 1))%Q -> -126 <= E ->
  round32 q = Finite r ->
  (r - pow2 (E - 24) <= q <= r + pow2 (E - 24))%Q.
Proof.
  intros Hq HE HE' Hr.
  destruct (Qle_lt_or_eq _ _ Hq) as [Hpos|Hz].
  - rewrite round32_pos in Hr by exact Hpos.
    destruct (round32_magnitude q) as [r'|] eqn:Em; [|discriminate].
    apply Finite_eq in Hr. subst r.
    apply (round32_magnitude_error q r' E Hpos HE HE' Em).
  - rewrite round32_zero in Hr by (symmetry; exact Hz).
    apply Finite_eq in Hr. subst r. pose proof (pow2_pos (E - 24)). lra.
Qed.

Lemma Qred_inject_Z n : Qred (inject_Z n) = inject_Z n.
Proof.
  unfold Qred, inject_Z.
  pose proof (Z.ggcd_gcd n 1) as Hg.
  pose proof (Z.ggcd_correct_divisors n 1) as Hd.
  destruct (Z.ggcd n 1) as [g [aa bb]]. cbn [fst snd] in *.
  rewrite Z.gcd_1_r in Hg. subst g. destruct Hd as [Hd1 Hd2].
  rewrite Z.mul_1_l in Hd1, Hd2. subst aa bb. reflexivity.
Qed.

(** Integers of at most 24 bits are binary32 numbers. *)
Lemma binary32_inject n : 0 <= n <= 2 ^ 24 -> binary32 (inject_Z n).
Proof.
  intros Hn. split; [apply Qred_inject_Z|].
  destruct (Z.eq_dec n (2 ^ 24)) as [->|Ne].
  - exists (2 ^ 23), 1. repeat split; try lia.
  - exists n, 0. split; [lia|]. split; [lia|]. split.
    + change (pow2 0) with 1%Q. ring.
    + apply Qle_lt_trans with (inject_Z (2 ^ 24)).
      * rewrite <- Zle_Qle. lia.
      * reflexivity.
Qed.

(** A rounded value that is not negative is a binary32 number, whatever
    the sign of what was rounded. *)
Lemma round32_binary32_out q r :
  round32 q = Finite r -> (0 <= r)%Q -> binary32 r.
Proof.
  intros Hr H0. unfold round32 in Hr.
  destruct (Qcompare_spec q 0) as [E|E|E].
  - apply Finite_eq in Hr. subst r. exact binary32_0.
  - destruct (round32_magnitude (- q)) as [r'|] eqn:Em; [|discriminate].
    apply Finite_eq in Hr. subst r.
    assert (Hq : (0 < - q)%Q) by lra.
    destruct (round32_magnitude_binary32 _ _ Hq Em) as [[Hred _] Hr'].
    assert (Ez : (r' == 0)%Q) by lra.
    split.
    + rewrite Qred_opp, Hred. reflexivity.
    + exists 0, 0. split; [lia|]. split; [lia|]. split.
      * rewrite Ez. reflexivity.
      * rewrite Ez. reflexivity.
  - destruct (round32_magnitude q) as [r'|] eqn:Em; [|discriminate].
    apply Finite_eq in Hr. subst r.
    apply (round32_magnitude_binary32 _ _ E Em).
Qed.

(** *** The operations on doubles *)

Lemma double_of_ulong_exact n :
  0 <= n <= 2 ^ 24 -> double_of_ulong n = Finite (inject_Z n).
Proof.
  intros Hn. apply round32_exact; [apply binary32_inject; exact Hn|].
  change 0%Q with (inject_Z 0). rewrite <- Zle_Qle. lia.
Qed.

Lemma double_of_ulong_binary32 n r :
  0 <= n -> double_of_ulong n = Finite r -> binary32 r /\ (0 <= r)%Q.
Proof.
  intros Hn. apply round32_binary32.
  change 0%Q with (inject_Z 0). rewrite <- Zle_Qle. exact Hn.
Qed.

Lemma double_of_ulong_finite n :
  0 <= n < 2 ^ 32 -> exists r, double_of_ulong n = Finite r.
Proof.
  intros Hn. apply round32_finite.
  - change 0%Q with (inject_Z 0). rewrite <- Zle_Qle. lia.
  - apply Qlt_trans with (inject_Z (2 ^ 32)).
    + rewrite <- Zlt_Qlt. lia.
    + reflexivity.
Qed.

Lemma dmul_binary32 x y r :
  (0 <= x)%Q -> (0 <= y)%Q -> dmul (Finite x) (Finite y) = Finite r ->
  binary32 r /\ (0 <= r)%Q.
Proof.
  intros Hx Hy. apply round32_binary32. apply Qmult_le_0_compat; assumption.
Qed.

Lemma ddiv_binary32 x y r :
  (0 <= x)%Q -> (0 <= y)%Q -> ddiv (Finite x) (Finite y) = Finite r ->
  binary32 r /\ (0 <= r)%Q.
Proof.
  intros Hx Hy. cbn [ddiv].
  destruct (Qeq_bool y 0) eqn:E; [discriminate|].
  apply Qeq_bool_neq in E.
  apply round32_binary32. apply Qle_shift_div_l; lra.
Qed.

(** Multiplying or dividing by one changes nothing. *)
Lemma dmul_one x :
  binary32 x -> (0 <= x)%Q -> dmul (Finite x) (double_of_ulong 1) = Finite x.
Proof.
  intros Hb Hx. rewrite (double_of_ulong_exact 1) by lia. cbn [dmul].
  rewrite (round32_comp _ x) by (change (inject_Z 1) with 1%Q; ring).
  apply round32_exact; assumption.
Qed.

Lemma ddiv_one x :
  binary32 x -> (0 <= x)%Q -> ddiv (Finite x) (double_of_ulong 1) = Finite x.
Proof.
  intros Hb Hx. rewrite (double_of_ulong_exact 1) by lia. cbn [ddiv].
  change (Qeq_bool (inject_Z 1) 0) with false. cbn iota.
  rewrite (round32_comp _ x) by (change (inject_Z 1) with 1%Q; field).
  apply round32_exact; assumption.
Qed.

(** Doubling is exact as long as it does not overflow. *)
Lemma dmul_two x :
  binary32 x -> (0 <= x)%Q -> (x < pow2 127)%Q ->
  dmul (Finite x) (Finite (inject_Z 2)) = Finite (Qred (x * inject_Z 2)).
Proof.
  intros [Hred (M & K & HM & HK & Ex & Hlt)] Hx Hb. cbn [dmul].
  rewrite <- (round32_comp (Qred (x * inject_Z 2))) by apply Qred_correct.
  apply round32_exact.
  - split; [apply Qred_idem|].
    exists M, (K + 1). split; [exact HM|]. split; [lia|].
    rewrite Qred_correct. split.
    + rewrite Ex, pow2_succ. change (inject_Z 2) with 2%Q. ring.
    + change (pow2 128) with (pow2 (127 + 1)). rewrite pow2_succ.
      change (inject_Z 2) with 2%Q. lra.
  - rewrite Qred_correct. change (inject_Z 2) with 2%Q. lra.
Qed.

Lemma round_half_away_nonneg q : (0 <= q)%Q -> 0 <= round_half_away q.
Proof.
  intros Hq. unfold round_half_away.
  destruct (Z.ltb_spec (Qnum q) 0) as [Hn|_].
  - exfalso. unfold Qle in Hq. cbn in Hq. lia.
  - change 0 with (Qfloor 0). apply Qfloor_resp_le. lra.
Qed.

Lemma round_half_away_comp q q' :
  (q == q')%Q -> round_half_away q = round_half_away q'.
Proof.
  intros E. unfold round_half_away.
  assert (Es : (Qnum q <? 0) = (Qnum q' <? 0)).
  { unfold Qeq in E. destruct (Z.ltb_spec (Qnum q) 0), (Z.ltb_spec (Qnum q') 0);
      try reflexivity; exfalso; nia. }
  rewrite Es. destruct (Qnum q' <? 0).
  - f_equal. apply Qfloor_comp. rewrite E. reflexivity.
  - apply Qfloor_comp. rewrite E. reflexivity.
Qed.

Lemma round_half_away_inject n : 0 <= n -> round_half_away (inject_Z n) = n.
Proof.
  intros Hn. unfold round_half_away. cbn [Qnum inject_Z].
  destruct (Z.ltb_spec n 0); [lia|].
  assert (L : (inject_Z n <= inject_Z n + (1 # 2))%Q) by lra.
  apply Qfloor_resp_le in L. rewrite Qfloor_Z in L.
  pose proof (Qfloor_le (inject_Z n + (1 # 2))) as U.
  assert (U' : (inject_Z (Qfloor (inject_Z n + (1 # 2))) < inject_Z (n + 1))%Q).
  { rewrite inject_Z_plus. change (inject_Z 1) with 1%Q. lra. }
  rewrite <- Zlt_Qlt in U'. lia.
Qed.

(** [round] stays within a half of a value that is not negative. *)
Lemma round_half_away_near q :
  (0 <= q)%Q ->
  (inject_Z (round_half_away q) - (1 # 2) <= q
   < inject_Z (round_half_away q) + (1 # 2))%Q.
Proof.
  intros Hq. unfold round_half_away.
  destruct (Z.ltb_spec (Qnum q) 0) as [Hn|_].
  - exfalso. unfold Qle in Hq. cbn in Hq. lia.
  - pose proof (Qfloor_le (q + (1 # 2))) as H1.
    pose proof (Qlt_floor (q + (1 # 2))) as H2.
    rewrite inject_Z_plus in H2. change (inject_Z 1) with 1%Q in H2.
    lra.
Qed.

(** [round] of a binary32 number is a binary32 number. *)
Lemma round_is_binary32 x :
  binary32 x -> (0 <= x)%Q -> binary32 (inject_Z (round_half_away x)).
Proof.
  intros [Hred (M & K & HM & HK & Ex & Hlt)] Hx.
  destruct (Z_le_gt_dec 0 K) as [HK0|HK0].
  - assert (Ei : (x == inject_Z (M * 2 ^ K))%Q)
      by (rewrite Ex, inject_Z_mult, <- pow2_inject by lia; reflexivity).
    rewrite (round_half_away_comp _ _ Ei).
    assert (Hn : 0 <= M * 2 ^ K) by (apply Z.mul_nonneg_nonneg; lia).
    rewrite round_half_away_inject by exact Hn.
    split; [apply Qred_inject_Z|].
    exists M, K. split; [exact HM|]. split; [exact HK|].
    split; [rewrite <- Ei; exact Ex|rewrite <- Ei; exact Hlt].
  - apply binary32_inject. split; [apply round_half_away_nonneg; exact Hx|].
    destruct (round_half_away_near x Hx) as [Hn1 _].
    assert (Hp : (pow2 K <= pow2 (-1))%Q) by (apply pow2_le; lia).
    change (pow2 (-1)) with (1 # 2)%Q in Hp.
    pose proof (pow2_pos K) as HK1.
    assert (HMq : (inject_Z M <= inject_Z (2 ^ 24))%Q)
      by (rewrite <- Zle_Qle; lia).
    assert (HM0 : (0 <= inject_Z M)%Q)
      by (change 0%Q with (inject_Z 0); rewrite <- Zle_Qle; lia).
    change (inject_Z (2 ^ 24)) with 16777216%Q in HMq.
    assert (Hxb : (x <= 8388608)%Q).
    { rewrite Ex. set (m := inject_Z M) in *. set (p := pow2 K) in *.
      clearbody m p. nra. }
    assert (H : (inject_Z (round_half_away x) < inject_Z (2 ^ 24 + 1))%Q).
    { change (inject_Z (2 ^ 24 + 1)) with 16777217%Q. lra. }
    rewrite <- Zlt_Qlt in H. lia.
Qed.

(** On every pair of the samples, [round32] and the operations on
    doubles agree with the standard library's binary32. *)
Lemma round32_agrees_with_SpecFloat :
  forallb (fun m => forallb (cross_check m) cross_check_samples)
          cross_check_samples = true.
Proof. vm_compute. reflexivity. Qed.

End Binary32.

(** ** Reasoning about the monad *)

Section MonadLaws.

Context {A B : Type}.

Lemma state_of_bind (m : M A) (k : A -> M B) (s : state) :
  state_of (bind m k s) = state_of (k (value_of (m s)) (state_of (m s))).
Proof.
  unfold bind, state_of, value_of.
  destruct (m s) as [[a s1] t1]; simpl.
  destruct (k a s1) as [[b s2] t2]; reflexivity.
Qed.

Lemma trace_of_bind (m : M A) (k : A -> M B) (s : state) :
  trace_of (bind m k s) =
  trace_of (m s) ++ trace_of (k (value_of (m s)) (state_of (m s))).
Proof.
  unfold bind, state_of, value_of, trace_of.
  destruct (m s) as [[a s1] t1]; simpl.
  destruct (k a s1) as [[b s2] t2]; reflexivity.
Qed.

Lemma value_of_bind (m : M A) (k : A -> M B) (s : state) :
  value_of (bind m k s) = value_of (k (value_of (m s)) (state_of (m s))).
Proof.
  unfold bind, state_of, value_of.
  destruct (m s) as [[a s1] t1]; simpl.
  destruct (k a s1) as [[b s2] t2]; reflexivity.
Qed.

End MonadLaws.

Lemma state_of_ret {A} (a : A) s : state_of (ret a s) = s.
Proof. reflexivity. Qed.
Lemma trace_of_ret {A} (a : A) s : trace_of (ret a s) = [].
Proof. reflexivity. Qed.
Lemma value_of_ret {A} (a : A) s : value_of (ret a s) = a.
Proof. reflexivity. Qed.
Lemma state_of_gets {A} (f : state -> A) s : state_of (gets f s) = s.
Proof. reflexivity. Qed.
Lemma trace_of_gets {A} (f : state -> A) s : trace_of (gets f s) = [].
Proof. reflexivity. Qed.
Lemma value_of_gets {A} (f : state -> A) s : value_of (gets f s) = f s.
Proof. reflexivity. Qed.
Lemma state_of_modify f s : state_of (modify f s) = f s.
Proof. reflexivity. Qed.
Lemma trace_of_modify f s : trace_of (modify f s) = [].
Proof. reflexivity. Qed.
Lemma state_of_emit e s : state_of (emit e s) = s.
Proof. reflexivity. Qed.
Lemma trace_of_emit e s : trace_of (emit e s) = [e].
Proof. reflexivity. Qed.
Lemma state_of_when b m s :
  state_of (when b m s) = if b then state_of (m s) else s.
Proof. destruct b; reflexivity. Qed.
Lemma trace_of_when b m s :
  trace_of (when b m s) = if b then trace_of (m s) else [].
Proof. destruct b; reflexivity. Qed.

Create Rewrite HintDb monad.

#[local] Hint Rewrite
  @state_of_bind @trace_of_bind @value_of_bind
  @state_of_ret @trace_of_ret @value_of_ret
  @state_of_gets @trace_of_gets @value_of_gets
  state_of_modify trace_of_modify state_of_emit trace_of_emit
  state_of_when trace_of_when : monad.

Ltac run_monad := autorewrite with monad; cbn beta.

Lemma register_writes_app (t1 t2 : list event) :
  register_writes (t1 ++ t2) = register_writes t1 ++ register_writes t2.
Proof.
  induction t1 as [|e t1 IH]; simpl; [reflexivity|].
  destruct (is_register_write e); simpl; now rewrite IH.
Qed.

(** ** The register writer *)

Section Writer.

Variable cvt : double -> Z.

Lemma writeRegister_state dat s :
  state_of (AD9833_writeRegister dat s) = s.
Proof.
  unfold AD9833_writeRegister. run_monad.
  destruct (negb (debug s =? 0)); reflexivity.
Qed.

Lemma writeRegister_writes dat s :
  register_writes (trace_of (AD9833_writeRegister dat s)) = [to_word dat].
Proof.
  unfold AD9833_writeRegister. run_monad.
  destruct (negb (debug s =? 0)); reflexivity.
Qed.

Lemma println_state s : state_of (println s) = s.
Proof. reflexivity. Qed.

Lemma println_writes s : register_writes (trace_of (println s)) = [].
Proof. reflexivity. Qed.

Lemma showHelp_state s : state_of (showHelp s) = s.
Proof. reflexivity. Qed.

Lemma setFrequency_state isFreq s :
  state_of (AD9833_setFrequency cvt isFreq s) =
  if isFreq && half_frequency_test (waveType s) (dmul (parseValue s) freq_to_reg)
  then set_waveType wRectangle2 s else s.
Proof.
  unfold AD9833_setFrequency.
  destruct isFreq; cbn [andb].
  - destruct (half_frequency_test _ _) eqn:E; run_monad; rewrite ?E; run_monad;
      rewrite ?writeRegister_state; reflexivity.
  - run_monad. rewrite ?writeRegister_state. reflexivity.
Qed.

Lemma setFrequency_writes isFreq s :
  register_writes (trace_of (AD9833_setFrequency cvt isFreq s)) =
  [ to_word (freq_lsb_word (encoder_reg cvt isFreq s));
    to_word (freq_msb_word (encoder_reg cvt isFreq s));
    to_word (Z.lor 0x2000
               (waveType (state_of (AD9833_setFrequency cvt isFreq s)))) ].
Proof.
  rewrite setFrequency_state.
  unfold AD9833_setFrequency, encoder_reg, encoder_frequency.
  destruct isFreq; cbn [andb].
  - destruct (half_frequency_test _ _) eqn:E; run_monad; rewrite ?E; run_monad;
      rewrite ?writeRegister_state;
      rewrite !register_writes_app, !writeRegister_writes; reflexivity.
  - run_monad. rewrite ?writeRegister_state.
    rewrite !register_writes_app, !writeRegister_writes. reflexivity.
Qed.

End Writer.

(** ** Characters *)

Lemma is_digit_value c :
  is_digit c = true -> 0 <= char_val c - 48 <= 9.
Proof. unfold is_digit. lia. Qed.

Lemma to_byte_small x : 0 <= x < 256 -> to_byte x = x.
Proof. intros H. unfold to_byte. apply Z.mod_small. lia. Qed.

(** ** The dispatcher, command by command *)

Section Dispatcher.

Variable cvt : double -> Z.

Lemma execute_frames C s : execute_frame s (state_of (execute cvt C s)).
Proof.
  destruct C as [[] [] [] [] [] [] [] []]; cbv [execute];
    run_monad; rewrite ?println_state, ?showHelp_state, ?setFrequency_state,
      ?writeRegister_state; cbn [andb];
    try (split; cbn; auto; fail).
  all: unfold half_frequency_test; cbn [waveType set_waveType Z.eqb wRectangle
    wSine wTriangle Pos.eqb andb]; try (split; cbn; auto; fail).
  unfold AD9833_reset. rewrite writeRegister_state. split; auto.
Qed.

Lemma terminate_state s :
  state_of (terminate s) =
  set_decimal 0 (set_numeric 0
    (if negb (decimal s =? 0) && negb (numeric s =? 0)
     then set_divider (powerOf10 (numeric s - decimal s + 1)) s else s)).
Proof. unfold terminate. run_monad. reflexivity. Qed.

Lemma terminate_trace s : trace_of (terminate s) = [].
Proof.
  unfold terminate. run_monad.
  destruct (negb (decimal s =? 0) && negb (numeric s =? 0)); reflexivity.
Qed.

Lemma terminate_keeps s :
  let t := state_of (terminate s) in
  digitArray t = digitArray s /\ multiplier t = multiplier s /\
  waveType t = waveType s /\ echo t = echo s /\ debug t = debug s.
Proof.
  rewrite terminate_state.
  destruct (negb (decimal s =? 0) && negb (numeric s =? 0)); cbn; auto.
Qed.

(** The three branches of [parseCommand]. *)
Lemma parseCommand_digit c s :
  is_digit c = true ->
  state_of (parseCommand cvt (Some c) s) =
  set_divider 1 (set_multiplier 1 (set_numeric (to_byte (numeric s + 1))
    (set_digitArray
       (upd 0 (char_val c - 48)
            (shift_loop (numberOfDigits - 1) (numeric s) (digitArray s))) s))).
Proof.
  intros H. unfold parseCommand. rewrite state_of_bind.
  rewrite state_of_bind. rewrite H. run_monad.
  rewrite (to_byte_small (char_val c - 48))
    by (pose proof (is_digit_value c H); lia).
  destruct (negb (echo s =? 0) && (32 <=? char_val c)); reflexivity.
Qed.

Lemma parseCommand_point c s :
  is_digit c = false -> (char_val c =? 46) = true ->
  state_of (parseCommand cvt (Some c) s) =
  set_decimal (to_byte (numeric s + 1)) s.
Proof.
  intros H1 H2. unfold parseCommand. rewrite state_of_bind.
  rewrite state_of_bind. rewrite H1, H2. run_monad.
  destruct (negb (echo s =? 0) && (32 <=? char_val c)); reflexivity.
Qed.

Lemma parseCommand_terminator c s :
  is_digit c = false -> (char_val c =? 46) = false ->
  state_of (parseCommand cvt (Some c) s) =
  state_of (execute cvt (toupper c) (state_of (terminate s))).
Proof.
  intros H1 H2. unfold parseCommand. rewrite state_of_bind.
  rewrite state_of_bind. rewrite H1, H2. rewrite state_of_bind.
  run_monad.
  destruct (negb (echo s =? 0) && (32 <=? char_val c)); reflexivity.
Qed.

Lemma parseCommand_terminator_writes c s :
  is_digit c = false -> (char_val c =? 46) = false ->
  register_writes (trace_of (parseCommand cvt (Some c) s)) =
  register_writes (trace_of (execute cvt (toupper c) (state_of (terminate s)))).
Proof.
  intros H1 H2. unfold parseCommand. rewrite trace_of_bind.
  rewrite trace_of_bind. cbn beta. rewrite H1, H2. run_monad.
  rewrite terminate_trace, !register_writes_app.
  destruct (negb (echo s =? 0) && (32 <=? char_val c)); reflexivity.
Qed.

End Dispatcher.

(** ** The digit array *)

Ltac eight_slots a H :=
  do 8 (destruct a as [|? a]; [discriminate H|]);
  destruct a; [|discriminate H]; clear H.

(** The loop of the digit branch, then the store to slot 0, on an array
    of eight slots. *)
Lemma digit_store (d num : Z) (a : list Z) :
  List.length a = numberOfDigits ->
  upd 0 d (shift_loop (numberOfDigits - 1) num a) =
  d :: (if num =? 0 then repeat 0 7 else firstn 7 a).
Proof.
  intros H. eight_slots a H.
  cbn. destruct (num =? 0); reflexivity.
Qed.

(** ** Reachable states *)

Lemma to_ulong_range x : 0 <= to_ulong x < 2 ^ 32.
Proof. unfold to_ulong. apply Z.mod_pos_bound. lia. Qed.

Lemma powerOf10_loop_range n y :
  0 <= y < 2 ^ 32 -> 0 <= powerOf10_loop n y < 2 ^ 32.
Proof.
  revert y. induction n as [|n IH]; intros y H; cbn [powerOf10_loop].
  - exact H.
  - apply IH, to_ulong_range.
Qed.

Lemma powerOf10_range x : 0 <= powerOf10 x < 2 ^ 32.
Proof. unfold powerOf10. apply powerOf10_loop_range. lia. Qed.

Section Invariant.

Variable cvt : double -> Z.

Lemma inv_booted : inv booted.
Proof.
  split; cbn; auto; [|lia].
  repeat constructor; unfold digit_ok; lia.
Qed.

Lemma Forall_firstn {A} (P : A -> Prop) n (l : list A) :
  Forall P l -> Forall P (firstn n l).
Proof.
  intros H. revert n. induction H; intros [|n]; simpl; constructor; auto.
Qed.

Lemma inv_parseCommand available s :
  inv s -> inv (state_of (parseCommand cvt available s)).
Proof.
  intros [Hl Hd Hm Hw Hv].
  destruct available as [c|]; [|split; assumption].
  destruct (is_digit c) eqn:Ed.
  - rewrite parseCommand_digit by assumption.
    split; cbn [digitArray multiplier waveType divider set_divider
                set_multiplier set_numeric set_digitArray]; auto; [| |lia].
    + rewrite digit_store by assumption.
      destruct (numeric s =? 0); cbn [List.length].
      * reflexivity.
      * rewrite length_firstn, Hl. reflexivity.
    + rewrite digit_store by assumption.
      constructor.
      * apply is_digit_value; assumption.
      * destruct (numeric s =? 0).
        -- repeat constructor; unfold digit_ok; lia.
        -- apply Forall_firstn; assumption.
  - destruct (char_val c =? 46) eqn:Ep.
    + rewrite parseCommand_point by assumption. split; assumption.
    + rewrite parseCommand_terminator by assumption.
      destruct (execute_frames cvt (toupper c) (state_of (terminate s)))
        as [Fa Fd Fn Fc Fm Fw].
      destruct (terminate_keeps s) as (Ta & Tm & Tw & _).
      cbv zeta in Ta, Tm, Tw. rewrite Ta in Fa. rewrite Tm in Fm.
      rewrite Tw in Fw.
      split.
      * rewrite Fa; assumption.
      * rewrite Fa; assumption.
      * destruct Fm as [Fm|Fm]; [rewrite Fm; assumption|auto].
      * destruct Fw as [Fw|Fw]; [rewrite Fw; assumption|tauto].
      * rewrite Fd, terminate_state.
        destruct (_ && _); cbn; [apply powerOf10_range|assumption].
Qed.

Lemma inv_after input s : inv s -> inv (after cvt s input).
Proof.
  revert s. induction input as [|c rest IH]; intros s H.
  - exact H.
  - unfold after in *. cbn [loop]. rewrite state_of_bind.
    apply IH. apply inv_parseCommand. exact H.
Qed.

Lemma reachable_inv s : reachable cvt s -> inv s.
Proof.
  induction 1.
  - apply inv_booted.
  - apply inv_parseCommand; assumption.
Qed.

Lemma reachable_after input s :
  reachable cvt s -> reachable cvt (after cvt s input).
Proof.
  revert s. induction input as [|c rest IH]; intros s H.
  - exact H.
  - unfold after in *. cbn [loop]. rewrite state_of_bind.
    apply IH. apply reachable_step. exact H.
Qed.

Lemma after_cons c rest s :
  after cvt s (c :: rest) = after cvt (after cvt s [c]) rest.
Proof.
  unfold after. cbn [loop]. rewrite !state_of_bind. reflexivity.
Qed.

Lemma after_one c s :
  after cvt s [c] = state_of (parseCommand cvt (Some c) s).
Proof. unfold after. cbn [loop]. rewrite state_of_bind. reflexivity. Qed.

Lemma after_app input1 input2 s :
  after cvt s (input1 ++ input2) = after cvt (after cvt s input1) input2.
Proof.
  revert s. induction input1 as [|c rest IH]; intros s.
  - reflexivity.
  - cbn [app]. rewrite after_cons, IH, <- after_cons. reflexivity.
Qed.

Lemma writes_app input1 input2 s :
  writes cvt s (input1 ++ input2) =
  writes cvt s input1 ++ writes cvt (after cvt s input1) input2.
Proof.
  unfold writes, after. revert s.
  induction input1 as [|c rest IH]; intros s.
  - reflexivity.
  - cbn [app loop]. rewrite !trace_of_bind, !register_writes_app.
    rewrite !state_of_bind, IH, app_assoc. reflexivity.
Qed.

Lemma writes_one c s :
  writes cvt s [c] = register_writes (trace_of (parseCommand cvt (Some c) s)).
Proof.
  unfold writes. cbn [loop]. rewrite trace_of_bind, register_writes_app.
  cbn. apply app_nil_r.
Qed.

End Invariant.

(** ** Properties of the dispatcher *)

Section DispatcherProperties.

Variable cvt : double -> Z.

Lemma execute_default C s :
  existsb (Ascii.eqb C) command_letters = false ->
  execute cvt C s = ret tt s.
Proof.
  destruct C as [[] [] [] [] [] [] [] []]; intros H;
    try reflexivity; vm_compute in H; discriminate H.
Qed.

Lemma encoder_command_terminator c p :
  encoder_command (toupper c) = Some p ->
  is_digit c = false /\ (char_val c =? 46) = false.
Proof.
  destruct c as [[] [] [] [] [] [] [] []]; vm_compute; intros H;
    try discriminate H; split; reflexivity.
Qed.

Lemma execute_encoder_command C isFreq wave s :
  encoder_command C = Some (isFreq, wave) ->
  state_of (execute cvt C s) = set_waveType wave s /\
  register_writes (trace_of (execute cvt C s)) =
  register_writes
    (trace_of (AD9833_setFrequency cvt isFreq (set_waveType wave s))).
Proof.
  destruct C as [[] [] [] [] [] [] [] []]; cbv [encoder_command]; intros H;
    try discriminate H; injection H as <- <-; cbv [execute];
    run_monad; rewrite ?println_state, ?setFrequency_state;
    unfold half_frequency_test; cbn [waveType set_waveType]; split;
    try reflexivity.
Qed.

End DispatcherProperties.

(** ** Register words, bit by bit *)

Lemma testbit_small r n i :
  0 <= r < 2 ^ n -> 0 <= n -> n <= i -> Z.testbit r i = false.
Proof.
  intros H Hn Hi. rewrite <- (Z.mod_small r (2 ^ n)) by assumption.
  apply Z.mod_pow2_bits_high. lia.
Qed.

Ltac mask_constants :=
  change 0x3FFF with (Z.ones 14) in *;
  change 0x4000 with (2 ^ 14) in *;
  change 0xFFFC000 with (Z.shiftl (Z.ones 14) 14) in *.

Ltac bit_cases :=
  repeat match goal with
  | |- context [?a <? ?b] => destruct (Z.ltb_spec a b)
  | |- context [?a =? ?b] => destruct (Z.eqb_spec a b)
  end.

Ltac bit_simpl :=
  repeat (rewrite ?Z.lor_spec, ?Z.land_spec, ?Z.shiftr_spec, ?Z.shiftl_spec,
           ?Z.pow2_bits_eqb by lia);
  rewrite ?Z.testbit_neg_r by lia;
  rewrite ?Z.testbit_ones_nonneg by lia;
  bit_cases; try lia;
  repeat (progress rewrite ?andb_true_r, ?orb_false_r, ?andb_false_r,
                     ?orb_false_l, ?andb_false_l, ?andb_true_l);
  try reflexivity.

(** The 14-bit payloads of the two frequency words give the register
    value back. *)
Lemma recombine_words r :
  0 <= r < 2 ^ 28 ->
  Z.lor (Z.shiftl (Z.land (Z.lor (Z.shiftr (Z.land r 0xFFFC000) 14) 0x4000)
                          0x3FFF) 14)
        (Z.land (Z.lor (Z.land r 0x3FFF) 0x4000) 0x3FFF) = r.
Proof.
  intros H. mask_constants.
  apply Z.bits_inj'; intros i Hi.
  destruct (Z.lt_ge_cases i 14); [|destruct (Z.lt_ge_cases i 28)].
  - bit_simpl.
  - bit_simpl; replace (i - 14 + 14) with i by lia; reflexivity.
  - bit_simpl; symmetry; apply (testbit_small r 28); lia.
Qed.

(** Both frequency words fit the 16-bit parameter of the writer. *)
Lemma lsb_word_fits r :
  to_word (freq_lsb_word r) = Z.lor (Z.land r 0x3FFF) 0x4000.
Proof.
  unfold freq_lsb_word, to_word.
  rewrite <- !Z.land_ones by lia.
  mask_constants.
  apply Z.bits_inj'; intros i Hi.
  destruct (Z.lt_ge_cases i 14); [|destruct (Z.lt_ge_cases i 16)]; bit_simpl.
Qed.

Lemma msb_word_fits r :
  to_word (freq_msb_word r) =
  Z.lor (Z.shiftr (Z.land r 0xFFFC000) 14) 0x4000.
Proof.
  unfold freq_msb_word, to_word.
  rewrite <- !Z.land_ones by lia.
  mask_constants.
  apply Z.bits_inj'; intros i Hi.
  destruct (Z.lt_ge_cases i 14); [|destruct (Z.lt_ge_cases i 16)]; bit_simpl.
Qed.

Lemma clamp_reg_range r : 0 <= r -> 0 <= clamp_reg r <= 0x7FFFFFF.
Proof. unfold clamp_reg. destruct (Z.leb_spec 0x8000000 r); lia. Qed.

(** ** The value of the digit array *)

Lemma parseValue_f_sum s :
  List.length (digitArray s) = numberOfDigits ->
  Forall digit_ok (digitArray s) ->
  parseValue_f s = weighted_sum 0 (digitArray s) /\
  0 <= parseValue_f s < 10 ^ 8.
Proof.
  unfold parseValue_f. generalize (digitArray s) as a. intros a H Hd.
  eight_slots a H.
  repeat match goal with
  | H : Forall _ (_ :: _) |- _ => inversion H; subst; clear H
  end.
  unfold digit_ok in *.
  cbv [parseValue_loop numberOfDigits aget nth weighted_sum].
  change (powerOf10 (Z.of_nat 0)) with 1.
  change (powerOf10 (Z.of_nat 1)) with 10.
  change (powerOf10 (Z.of_nat 2)) with 100.
  change (powerOf10 (Z.of_nat 3)) with 1000.
  change (powerOf10 (Z.of_nat 4)) with 10000.
  change (powerOf10 (Z.of_nat 5)) with 100000.
  change (powerOf10 (Z.of_nat 6)) with 1000000.
  change (powerOf10 (Z.of_nat 7)) with 10000000.
  change (10 ^ Z.of_nat 0) with 1.
  change (10 ^ Z.of_nat 1) with 10.
  change (10 ^ Z.of_nat 2) with 100.
  change (10 ^ Z.of_nat 3) with 1000.
  change (10 ^ Z.of_nat 4) with 10000.
  change (10 ^ Z.of_nat 5) with 100000.
  change (10 ^ Z.of_nat 6) with 1000000.
  change (10 ^ Z.of_nat 7) with 10000000.
  change (10 ^ 8) with 100000000.
  unfold to_ulong. change (2 ^ 32) with 4294967296.
  repeat match goal with
  | |- context [?x mod 4294967296] =>
      rewrite (Z.mod_small x 4294967296) by lia
  end.
  lia.
Qed.

(** ** Commands that call the encoder *)

Section EncoderCommands.

Variable cvt : double -> Z.

Lemma encoder_command_wave C isFreq wave :
  encoder_command C = Some (isFreq, wave) -> wave = wSine \/ wave = wTriangle.
Proof.
  destruct C as [[] [] [] [] [] [] [] []]; cbv [encoder_command]; intros H;
    try discriminate H; injection H as <- <-; auto.
Qed.

Lemma half_frequency_test_off wave frequency :
  wave = wReset \/ wave = wSine \/ wave = wTriangle ->
  half_frequency_test wave frequency = false.
Proof.
  intros H. unfold half_frequency_test.
  replace (wRectangle =? wave) with false; [reflexivity|].
  destruct H as [->|[->| ->]]; reflexivity.
Qed.

Lemma parseValue_set_waveType wave s :
  parseValue (set_waveType wave s) = parseValue s.
Proof.
  unfold parseValue, parseValue_f.
  cbn [digitArray multiplier divider set_waveType]. reflexivity.
Qed.

Lemma encoder_command_effect s c isFreq wave :
  encoder_command (toupper c) = Some (isFreq, wave) ->
  writes cvt s [c] =
    [ Z.lor (Z.land (command_reg cvt isFreq s) 0x3FFF) 0x4000;
      Z.lor (Z.shiftr (Z.land (command_reg cvt isFreq s) 0xFFFC000) 14) 0x4000;
      Z.lor 0x2000 wave ] /\
  after cvt s [c] = set_waveType wave (state_of (terminate s)).
Proof.
  intros H.
  destruct (encoder_command_terminator c _ H) as [Hd Hp].
  destruct (execute_encoder_command cvt _ _ _ (state_of (terminate s)) H)
    as [Hs Hw].
  pose proof (encoder_command_wave _ _ _ H) as Hwave.
  assert (Htest : forall f, half_frequency_test wave f = false)
    by (intros f; apply half_frequency_test_off; tauto).
  split.
  - rewrite writes_one, parseCommand_terminator_writes by assumption.
    rewrite Hw, setFrequency_writes, setFrequency_state.
    cbn [waveType set_waveType]. rewrite Htest, andb_false_r.
    cbn [waveType set_waveType].
    rewrite lsb_word_fits, msb_word_fits.
    unfold encoder_reg, encoder_frequency, command_reg, finalized_value.
    cbn [waveType set_waveType]. rewrite Htest, parseValue_set_waveType.
    destruct Hwave as [-> | ->]; reflexivity.
  - rewrite after_one, parseCommand_terminator by assumption. exact Hs.
Qed.

End EncoderCommands.

(** ** Claims about the dispatcher *)

(** C10.  Whatever bytes arrive after start-up, [waveType] holds [wReset],
    [wSine] or [wTriangle]; it is never [wRectangle] nor [wRectangle2].
    Hence the test of the half-frequency branch of the encoder,
    [wRectangle == waveType && frequency < 12e6], is false for every
    frequency, both at the wave type of every reachable state and at the
    wave type each encoder command stores just before it calls the
    encoder, and the encoder leaves the state as it is. *)
Theorem waveType_never_rectangle (cvt : double -> Z) (input : list ascii) :
  let s := after cvt booted input in
  (waveType s = wReset \/ waveType s = wSine \/ waveType s = wTriangle) /\
  waveType s <> wRectangle /\
  waveType s <> wRectangle2 /\
  (forall frequency isFreq wave C,
      half_frequency_test (waveType s) frequency = false /\
      (encoder_command C = Some (isFreq, wave) ->
       half_frequency_test wave frequency = false)) /\
  (forall isFreq, state_of (AD9833_setFrequency cvt isFreq s) = s).
Proof.
  intros s.
  assert (H : inv s) by (apply inv_after, inv_booted).
  destruct H as [_ _ _ Hw _].
  split; [exact Hw|].
  split; [destruct Hw as [E|[E|E]]; rewrite E; discriminate|].
  split; [destruct Hw as [E|[E|E]]; rewrite E; discriminate|].
  split.
  - intros frequency isFreq wave C. split.
    + apply half_frequency_test_off; exact Hw.
    + intros HC. apply half_frequency_test_off.
      destruct (encoder_command_wave _ _ _ HC); auto.
  - intros isFreq. rewrite setFrequency_state.
    rewrite (half_frequency_test_off _ _ Hw), andb_false_r. reflexivity.
Qed.

(** C8.  From every state, the command 'O' (or 'o') causes exactly one
    register write, the word 0x2100, and leaves [waveType] as it was. *)
Theorem off_command_single_reset_write (cvt : double -> Z) (s : state) :
  (writes cvt s ["O"%char] = [0x2100] /\
   waveType (after cvt s ["O"%char]) = waveType s) /\
  (writes cvt s ["o"%char] = [0x2100] /\
   waveType (after cvt s ["o"%char]) = waveType s).
Proof.
  destruct (terminate_keeps s) as (_ & _ & Tw & _). cbv zeta in Tw.
  split; split.
  - rewrite writes_one, parseCommand_terminator_writes by reflexivity.
    change (toupper "O") with "O"%char. cbv [execute]. run_monad.
    unfold AD9833_reset.
    rewrite register_writes_app, println_writes, writeRegister_writes.
    reflexivity.
  - rewrite after_one, parseCommand_terminator by reflexivity.
    change (toupper "O") with "O"%char. cbv [execute]. run_monad.
    unfold AD9833_reset. rewrite writeRegister_state, println_state.
    exact Tw.
  - rewrite writes_one, parseCommand_terminator_writes by reflexivity.
    change (toupper "o") with "O"%char. cbv [execute]. run_monad.
    unfold AD9833_reset.
    rewrite register_writes_app, println_writes, writeRegister_writes.
    reflexivity.
  - rewrite after_one, parseCommand_terminator by reflexivity.
    change (toupper "o") with "O"%char. cbv [execute]. run_monad.
    unfold AD9833_reset. rewrite writeRegister_state, println_state.
    exact Tw.
Qed.

(** C1 as stated fails: after "1.5" the counters hold 2 and 2 and the
    divider 1; the unrecognized terminator 'X' clears both counters and
    sets the divider to 10. *)
Lemma unrecognized_terminator_changes_entry_state :
  let s := after wrapping_conversion booted ["1"; "."; "5"]%char in
  let s' := after wrapping_conversion s ["X"%char] in
  reachable wrapping_conversion s /\
  unrecognized "X" = true /\
  (numeric s = 2 /\ decimal s = 2 /\ divider s = 1) /\
  (numeric s' = 0 /\ decimal s' = 0 /\ divider s' = 10) /\
  s' <> s.
Proof.
  cbv zeta. split; [|split; [|split; [|split]]].
  - apply reachable_after. constructor.
  - reflexivity.
  - vm_compute. auto.
  - vm_compute. auto.
  - intros E. apply (f_equal numeric) in E. vm_compute in E. discriminate E.
Qed.

(** C1, amended.  From every state, an unrecognized terminator leaves the
    digit array, the multiplier, [waveType], [echo] and [debug] as they
    were and writes nothing to the chip; it clears the two counters
    [numeric] and [decimal] and, when both were non-zero, sets the divider
    to [powerOf10( numeric - decimal + 1 )]. *)
Theorem unrecognized_terminator_effect
        (cvt : double -> Z) (s : state) (c : ascii) :
  unrecognized c = true ->
  let s' := after cvt s [c] in
  digitArray s' = digitArray s /\
  multiplier s' = multiplier s /\
  waveType s' = waveType s /\
  echo s' = echo s /\
  debug s' = debug s /\
  writes cvt s [c] = [] /\
  numeric s' = 0 /\
  decimal s' = 0 /\
  divider s' =
    if negb (decimal s =? 0) && negb (numeric s =? 0)
    then powerOf10 (numeric s - decimal s + 1) else divider s.
Proof.
  unfold unrecognized. intros H.
  apply andb_prop in H. destruct H as [H Hc].
  apply andb_prop in H. destruct H as [Hd Hp].
  apply negb_true_iff in Hd, Hp, Hc.
  cbv zeta.
  rewrite writes_one, parseCommand_terminator_writes by assumption.
  rewrite after_one, parseCommand_terminator by assumption.
  rewrite (execute_default cvt _ _ Hc).
  rewrite state_of_ret, trace_of_ret, terminate_state.
  destruct (negb (decimal s =? 0) && negb (numeric s =? 0));
    cbn; repeat split; reflexivity.
Qed.

(** The amended C1 at the byte 'X' after "1.5". *)
Lemma unrecognized_terminator_effect_witness :
  unrecognized "X" = true /\
  let s := after wrapping_conversion booted ["1"; "."; "5"]%char in
  let s' := after wrapping_conversion s ["X"%char] in
  digitArray s' = digitArray s /\
  multiplier s' = multiplier s /\
  waveType s' = waveType s /\
  echo s' = echo s /\
  debug s' = debug s /\
  writes wrapping_conversion s ["X"%char] = [] /\
  numeric s' = 0 /\
  decimal s' = 0 /\
  divider s' =
    if negb (decimal s =? 0) && negb (numeric s =? 0)
    then powerOf10 (numeric s - decimal s + 1) else divider s.
Proof.
  split; [reflexivity|].
  apply (unrecognized_terminator_effect wrapping_conversion
           (after wrapping_conversion booted ["1"; "."; "5"]%char) "X"%char).
  reflexivity.
Defined.

(** C5.  Every command that sets the frequency ('S', 'T' and the raw
    'N', in either case) causes exactly three register writes, in this
    order: the LSB word [(regValue & 0x3FFF) | 0x4000], the MSB word
    [((regValue & 0xFFFC000) >> 14) | 0x4000] and the control word
    [0x2000 | waveType], where [regValue] is the clamped rounded value the
    encoder computes from the finalized value and [waveType] is the wave
    type the command selects. *)
Theorem frequency_command_three_words
        (cvt : double -> Z) (s : state) (c : ascii) (isFreq : bool) (wave : Z) :
  encoder_command (toupper c) = Some (isFreq, wave) ->
  let V := finalized_value s in
  let regValue :=
    clamp_reg (ulong_of_double cvt
                 (dround (if isFreq then dmul V freq_to_reg else V))) in
  writes cvt s [c] =
    [ Z.lor (Z.land regValue 0x3FFF) 0x4000;
      Z.lor (Z.shiftr (Z.land regValue 0xFFFC000) 14) 0x4000;
      Z.lor 0x2000 (waveType (after cvt s [c])) ] /\
  waveType (after cvt s [c]) = wave /\
  0 <= regValue <= 0x7FFFFFF.
Proof.
  intros H. cbv zeta.
  destruct (encoder_command_effect cvt s c isFreq wave H) as [Hw Hs].
  rewrite Hs. cbn [waveType set_waveType].
  split; [exact Hw|]. split; [reflexivity|].
  apply clamp_reg_range.
  unfold ulong_of_double.
  destruct (dround _) as [q|]; [|apply to_ulong_range].
  destruct ((0 <=? truncate q) && (truncate q <? 2 ^ 32)) eqn:E.
  - apply andb_prop in E. lia.
  - apply to_ulong_range.
Qed.

(** C5 at the command 's' right after start-up: the words of 1000 Hz. *)
Lemma frequency_command_three_words_witness :
  encoder_command (toupper "s") = Some (true, wSine) /\
  writes wrapping_conversion booted ["s"%char] = [0x69F1; 0x4000; 0x2000].
Proof.
  split; [reflexivity|].
  destruct (frequency_command_three_words wrapping_conversion booted "s"%char
              true wSine eq_refl) as [Hw _].
  rewrite Hw. vm_compute. reflexivity.
Defined.

(** ** The encoder's arithmetic *)

(** The scaling constant as the compiler folds it: 2^28 / 25e6, that is
    10.73741824, rounds to 11258999 / 2^20 = 10.737418174743652. *)
Lemma freq_to_reg_value : freq_to_reg = Finite (11258999 # 1048576).
Proof. vm_compute. reflexivity. Qed.

Lemma truncate_inject_Z n : truncate (inject_Z n) = n.
Proof.
  unfold truncate. cbn [Qnum inject_Z].
  destruct (n <? 0); [apply Qceiling_Z|apply Qfloor_Z].
Qed.

Section Conversion.

Variable cvt : double -> Z.

(** In the range of [unsigned long] the conversion is the identity on
    integral values. *)
Lemma ulong_of_integral n :
  0 <= n < 2 ^ 32 -> ulong_of_double cvt (Finite (inject_Z n)) = n.
Proof.
  intros H. unfold ulong_of_double. rewrite truncate_inject_Z.
  destruct (Z.leb_spec 0 n); [|lia].
  destruct (Z.ltb_spec n (2 ^ 32)); [reflexivity|lia].
Qed.


(** The clamp, where the rounded value is representable. *)
Lemma clamp_when_representable q :
  0 <= round_half_away q < 2 ^ 32 ->
  clamp_reg (ulong_of_double cvt (dround (Finite q))) =
  if 0x8000000 <=? round_half_away q then 0x7FFFFFF else round_half_away q.
Proof.
  intros H. cbn [dround]. rewrite ulong_of_integral by assumption.
  reflexivity.
Qed.

End Conversion.

(** The quotient [parseValue] computes, when finite, is a non-negative
    binary32 number. *)
Lemma quotient_binary32 f m d V :
  0 <= f -> 0 <= m -> 0 <= d ->
  ddiv (dmul (double_of_ulong f) (double_of_ulong m)) (double_of_ulong d)
    = Finite V ->
  binary32 V /\ (0 <= V)%Q.
Proof.
  intros Hf Hm Hd HV.
  destruct (double_of_ulong f) as [x|] eqn:Ex; [|discriminate HV].
  destruct (double_of_ulong m) as [y|] eqn:Ey; [|discriminate HV].
  destruct (double_of_ulong_binary32 _ _ Hf Ex) as [_ Hx].
  destruct (double_of_ulong_binary32 _ _ Hm Ey) as [_ Hy].
  destruct (dmul (Finite x) (Finite y)) as [w|] eqn:Ew; [|discriminate HV].
  destruct (dmul_binary32 _ _ _ Hx Hy Ew) as [_ Hw].
  destruct (double_of_ulong d) as [z|] eqn:Ez;
    [|destruct w; discriminate HV].
  destruct (double_of_ulong_binary32 _ _ Hd Ez) as [_ Hz].
  apply (ddiv_binary32 w z V Hw Hz HV).
Qed.

Lemma parseValue_unfold s :
  parseValue s =
  ddiv (dmul (double_of_ulong (parseValue_f s))
             (double_of_ulong (multiplier s)))
       (double_of_ulong (divider s)).
Proof. reflexivity. Qed.

Lemma finalized_value_eq s :
  finalized_value s = parseValue (state_of (terminate s)).
Proof. reflexivity. Qed.

(** A finite [parseValue] of a state that satisfies the invariant is a
    non-negative binary32 number. *)
Lemma parseValue_binary32 s V :
  inv s -> parseValue s = Finite V -> binary32 V /\ (0 <= V)%Q.
Proof.
  intros Hi HV.
  pose proof (parseValue_f_sum s (inv_length _ Hi) (inv_digits _ Hi)) as Hf.
  pose proof (inv_multiplier _ Hi) as Hm.
  assert (Hm0 : 0 <= multiplier s)
    by (destruct Hm as [E|[E|E]]; rewrite E; lia).
  rewrite parseValue_unfold in HV.
  apply (quotient_binary32 (parseValue_f s) (multiplier s) (divider s) V).
  - apply Hf.
  - exact Hm0.
  - apply (inv_divider _ Hi).
  - exact HV.
Qed.

Lemma inv_terminate s : inv s -> inv (state_of (terminate s)).
Proof.
  intros [Hl Hd Hm Hw Hv]. rewrite terminate_state.
  destruct (negb (decimal s =? 0) && negb (numeric s =? 0));
    split; cbn; auto; apply powerOf10_range.
Qed.

(** ** Claims about the encoder *)

(** C4 as stated fails at 5 MHz.  The claim's [round( V * 2^28 / 25e6 )]
    is 53687091 (the exact product is 53687091.2), but the encoder
    multiplies in single precision, where numbers of that size are 4
    apart: the product is 53687092, and that is what the two words
    carry. *)
Lemma five_MHz_register_is_not_the_exact_rounding :
  let s := after wrapping_conversion booted ["5"; "M"]%char in
  let V := inject_Z 5000000 in
  reachable wrapping_conversion s /\
  finalized_value s = Finite V /\
  (V * (inject_Z (2 ^ 28) / inject_Z 25000000) < inject_Z (2 ^ 27))%Q /\
  round_half_away (V * (inject_Z (2 ^ 28) / inject_Z 25000000)) = 53687091 /\
  dmul (Finite V) freq_to_reg = Finite (inject_Z 53687092) /\
  writes wrapping_conversion s ["S"%char] = [0x7334; 0x4CCC; 0x2000] /\
  Z.lor (Z.shiftl (Z.land 0x4CCC 0x3FFF) 14) (Z.land 0x7334 0x3FFF)
    = 53687092.
Proof.
  cbv zeta. split; [apply reachable_after; constructor|].
  repeat split; vm_compute; reflexivity.
Qed.

(** C4, amended.  In every reachable state with a finalized value [V],
    the command 'S' or 'T' (in either case) writes an LSB word, an MSB
    word and a control word, and
    [(msbWord & 0x3FFF) << 14 | (lsbWord & 0x3FFF)] is exactly
    [round( P )], where [P] is the single precision product of [V] and
    the single precision constant [2^28 / 25e6], provided [round( P )]
    is below [2 ^ 27]. *)
Theorem frequency_words_round_trip
        (cvt : double -> Z) (s : state) (c : ascii) (V P : Q) :
  reachable cvt s ->
  toupper c = "S"%char \/ toupper c = "T"%char ->
  finalized_value s = Finite V ->
  dmul (Finite V) freq_to_reg = Finite P ->
  round_half_away P < 2 ^ 27 ->
  exists lsbWord msbWord controlWord,
    writes cvt s [c] = [lsbWord; msbWord; controlWord] /\
    Z.lor (Z.shiftl (Z.land msbWord 0x3FFF) 14) (Z.land lsbWord 0x3FFF) =
    round_half_away P.
Proof.
  intros Hr Hc HV HP Hlt.
  assert (Hcmd : exists wave, encoder_command (toupper c) = Some (true, wave)).
  { destruct Hc as [-> | ->]; eexists; reflexivity. }
  destruct Hcmd as [wave Hcmd].
  destruct (encoder_command_effect cvt s c true wave Hcmd) as [Hw _].
  do 3 eexists. split; [exact Hw|].
  unfold command_reg. rewrite HV, HP. cbn [dround].
  pose proof (inv_terminate s (reachable_inv cvt s Hr)) as Hi.
  rewrite finalized_value_eq in HV.
  destruct (parseValue_binary32 (state_of (terminate s)) V Hi HV)
    as [_ HV0].
  assert (HP0 : (0 <= P)%Q).
  { rewrite freq_to_reg_value in HP.
    apply (dmul_binary32 V (11258999 # 1048576) P HV0); [|exact HP].
    discriminate. }
  pose proof (round_half_away_nonneg P HP0) as Hn.
  rewrite ulong_of_integral by lia.
  unfold clamp_reg.
  destruct (Z.leb_spec 0x8000000 (round_half_away P)) as [Hge|Hge]; [lia|].
  apply recombine_words. lia.
Qed.

(** The amended C4 at the command 'S' right after start-up (1000 Hz):
    the product is 10737.41796875, the register value 10737. *)
Lemma frequency_words_round_trip_witness :
  reachable wrapping_conversion booted /\
  (toupper "S" = "S"%char \/ toupper "S" = "T"%char) /\
  finalized_value booted = Finite (inject_Z 1000) /\
  dmul (Finite (inject_Z 1000)) freq_to_reg = Finite (2748779 # 256) /\
  round_half_away (2748779 # 256) < 2 ^ 27 /\
  exists lsbWord msbWord controlWord,
    writes wrapping_conversion booted ["S"%char] =
      [lsbWord; msbWord; controlWord] /\
    Z.lor (Z.shiftl (Z.land msbWord 0x3FFF) 14) (Z.land lsbWord 0x3FFF) =
    10737.
Proof.
  split; [constructor|]. split; [left; reflexivity|].
  split; [reflexivity|]. split; [reflexivity|]. split; [reflexivity|].
  apply (frequency_words_round_trip wrapping_conversion booted "S"%char
           (inject_Z 1000) (2748779 # 256)).
  - constructor.
  - left; reflexivity.
  - reflexivity.
  - reflexivity.
  - reflexivity.
Defined.




(** C6 as stated fails.  With wave type Rectangle and the value 5 MHz the
    encoder compares the scaled value 53687092 with 12e6, so the test is
    false: the wave type stays Rectangle and the register value is the
    scaled value 53687092, not its double.  Dispatched as the command
    'S', the wave type becomes Sine. *)
Lemma rectangle_5MHz_not_halved :
  let s := holding 5 1000000 wRectangle in
  parseValue s = Finite (inject_Z 5000000) /\
  (inject_Z 5000000 < inject_Z 12000000)%Q /\
  dmul (parseValue s) freq_to_reg = Finite (inject_Z 53687092) /\
  half_frequency_test (waveType s) (dmul (parseValue s) freq_to_reg)
    = false /\
  waveType (state_of (AD9833_setFrequency wrapping_conversion true s))
    = wRectangle /\
  waveType (state_of (AD9833_setFrequency wrapping_conversion true s))
    <> wRectangle2 /\
  encoder_reg wrapping_conversion true s = 53687092 /\
  register_writes (trace_of (AD9833_setFrequency wrapping_conversion true s))
    = [ Z.lor (Z.land 53687092 0x3FFF) 0x4000;
        Z.lor (Z.shiftr (Z.land 53687092 0xFFFC000) 14) 0x4000;
        Z.lor 0x2000 wRectangle ] /\
  waveType (after wrapping_conversion s ["S"%char]) = wSine.
Proof.
  cbv zeta. repeat split; try (vm_compute; reflexivity).
  vm_compute. discriminate.
Qed.

(** C6, amended.  When the encoder is called with frequency conversion
    while the wave type is Rectangle and the scaled value - the single
    precision product of the value and [2^28 / 25e6] - is below 12e6, the
    wave type becomes Rectangle-HalfFrequency and the scaled value is
    doubled before it is rounded, clamped and written; the control word
    written is 0x2020.  The doubling is exact. *)
Theorem rectangle_below_threshold_halved
        (cvt : double -> Z) (s : state) (scaled : Q) :
  waveType s = wRectangle ->
  dmul (parseValue s) freq_to_reg = Finite scaled ->
  (scaled < inject_Z 12000000)%Q ->
  let doubled := dmul (Finite scaled) (Finite (inject_Z 2)) in
  let regValue := clamp_reg (ulong_of_double cvt (dround doubled)) in
  state_of (AD9833_setFrequency cvt true s) = set_waveType wRectangle2 s /\
  register_writes (trace_of (AD9833_setFrequency cvt true s)) =
    [ Z.lor (Z.land regValue 0x3FFF) 0x4000;
      Z.lor (Z.shiftr (Z.land regValue 0xFFFC000) 14) 0x4000;
      0x2020 ] /\
  ((0 <= scaled)%Q -> doubled = Finite (Qred (scaled * inject_Z 2))).
Proof.
  intros Hw HV Hlt. cbv zeta.
  assert (Ht : half_frequency_test (waveType s)
                 (dmul (parseValue s) freq_to_reg) = true).
  { rewrite Hw, HV. unfold half_frequency_test.
    cbn [dlt]. rewrite Z.eqb_refl. cbn [andb].
    apply negb_true_iff. apply not_true_is_false. intros Hle.
    apply Qle_bool_iff in Hle. apply Qle_not_lt in Hle. contradiction. }
  assert (Es : state_of (AD9833_setFrequency cvt true s)
               = set_waveType wRectangle2 s).
  { rewrite setFrequency_state, Ht. reflexivity. }
  split; [exact Es|]. split.
  - rewrite setFrequency_writes, Es, lsb_word_fits, msb_word_fits.
    unfold encoder_reg, encoder_frequency. rewrite Ht, HV.
    cbn [waveType set_waveType]. reflexivity.
  - intros H0. apply dmul_two.
    + destruct (parseValue s) as [V|]; [|discriminate HV].
      rewrite freq_to_reg_value in HV. cbn [dmul] in HV.
      apply (round32_binary32_out _ _ HV H0).
    + exact H0.
    + apply Qlt_trans with (inject_Z 12000000); [exact Hlt|reflexivity].
Qed.

(** The amended C6 at 1 MHz: scaled 10737418, doubled and rounded to
    21474836. *)
Lemma rectangle_below_threshold_halved_witness :
  let s := holding 1 1000000 wRectangle in
  waveType s = wRectangle /\
  dmul (parseValue s) freq_to_reg = Finite (inject_Z 10737418) /\
  (inject_Z 10737418 < inject_Z 12000000)%Q /\
  state_of (AD9833_setFrequency wrapping_conversion true s)
    = set_waveType wRectangle2 s /\
  register_writes (trace_of (AD9833_setFrequency wrapping_conversion true s))
    = [0x6E14; 0x451E; 0x2020].
Proof.
  cbv zeta.
  split; [reflexivity|]. split; [reflexivity|]. split; [reflexivity|].
  destruct (rectangle_below_threshold_halved wrapping_conversion
              (holding 1 1000000 wRectangle) (inject_Z 10737418)
              eq_refl eq_refl eq_refl) as (Hs & Hw & _).
  split; [exact Hs|]. rewrite Hw. vm_compute. reflexivity.
Defined.

(** ** The numeric accumulator *)

Lemma weighted_sum_succ i a : weighted_sum (S i) a = 10 * weighted_sum i a.
Proof.
  revert i. induction a as [|d a IH]; intros i; cbn [weighted_sum].
  - reflexivity.
  - rewrite IH, Nat2Z.inj_succ, Z.pow_succ_r by lia. ring.
Qed.

Lemma weighted_sum_zeros i k a :
  weighted_sum i (a ++ repeat 0 k) = weighted_sum i a.
Proof.
  revert i. induction a as [|d a IH]; intros i; cbn [app weighted_sum].
  - revert i. induction k as [|k IHk]; intros i; cbn [repeat weighted_sum].
    + reflexivity.
    + rewrite IHk. lia.
  - rewrite IH. reflexivity.
Qed.

Lemma spelled_snoc ds c : spelled (ds ++ [c]) = 10 * spelled ds + digit_value c.
Proof. unfold spelled. rewrite fold_left_app. reflexivity. Qed.

Lemma weighted_sum_spelled ds k :
  weighted_sum 0 (rev (map digit_value ds) ++ repeat 0 k) = spelled ds.
Proof.
  rewrite weighted_sum_zeros.
  induction ds as [|c ds IH] using rev_ind.
  - reflexivity.
  - rewrite map_app, rev_app_distr, spelled_snoc. cbn [map rev app].
    cbn [weighted_sum]. rewrite weighted_sum_succ, IH.
    change (10 ^ Z.of_nat 0) with 1. lia.
Qed.

Section Accumulator.

Variable cvt : double -> Z.

Lemma after_cons2 c1 c2 rest s :
  after cvt s (c1 :: c2 :: rest) = after cvt (after cvt s [c1]) (c2 :: rest).
Proof. apply after_cons. Qed.

(** The state after one digit character. *)
Lemma after_digit c s :
  is_digit c = true ->
  List.length (digitArray s) = numberOfDigits ->
  after cvt s [c] =
  set_divider 1 (set_multiplier 1 (set_numeric (to_byte (numeric s + 1))
    (set_digitArray
       (digit_value c ::
          (if numeric s =? 0 then repeat 0 7 else firstn 7 (digitArray s)))
       s))).
Proof.
  intros Hd Hl. rewrite after_one, parseCommand_digit by assumption.
  rewrite digit_store by assumption. reflexivity.
Qed.

Lemma firstn_digits (vs : list Z) k :
  (List.length vs + S k = numberOfDigits)%nat ->
  firstn 7 (vs ++ repeat 0 (S k)) = vs ++ repeat 0 k.
Proof.
  intros H. unfold numberOfDigits in H.
  rewrite firstn_app.
  replace (7 - List.length vs)%nat with k by lia.
  rewrite firstn_all2 by lia.
  f_equal. clear H. induction k as [|k IH]; [reflexivity|].
  cbn [repeat firstn] in *. now rewrite IH.
Qed.

Lemma digits_entered ds s :
  List.length (digitArray s) = numberOfDigits ->
  numeric s = 0 ->
  forallb is_digit ds = true ->
  (1 <= List.length ds <= numberOfDigits)%nat ->
  entered ds s (after cvt s ds).
Proof.
  intros Hl Hn. induction ds as [|c ds IH] using rev_ind; intros Hd Hlen.
  - cbn in Hlen. lia.
  - rewrite forallb_app in Hd. apply andb_prop in Hd. destruct Hd as [Hds Hc].
    cbn [forallb] in Hc. rewrite andb_true_r in Hc.
    rewrite length_app in Hlen. cbn [List.length] in Hlen.
    unfold numberOfDigits in *.
    rewrite after_app.
    destruct ds as [|c0 ds'].
    + cbn [after loop app]. change (after cvt s []) with s.
      rewrite after_digit by assumption. rewrite Hn.
      split; cbn; try reflexivity.
    + assert (Hlen' : (1 <= List.length (c0 :: ds') <= 8)%nat)
        by (cbn [List.length] in *; lia).
      remember (c0 :: ds') as ds1 eqn:E1. clear E1 c0 ds'.
      destruct (IH Hds Hlen') as [Ea En Em Ev Ec].
      set (t := after cvt s ds1) in *.
      assert (Ht : List.length (digitArray t) = numberOfDigits).
      { rewrite Ea, length_app, length_rev, length_map, repeat_length.
        unfold numberOfDigits. lia. }
      rewrite after_digit by assumption.
      assert (Hnz : (numeric t =? 0) = false)
        by (apply Z.eqb_neq; rewrite En; lia).
      rewrite Hnz.
      split; cbn [digitArray numeric multiplier divider decimal set_divider
                  set_multiplier set_numeric set_digitArray];
        try reflexivity; try assumption.
      * rewrite Ea, map_app, rev_app_distr, length_app.
        cbn [map rev app List.length].
        replace (numberOfDigits - List.length ds1)%nat
          with (S (numberOfDigits - (List.length ds1 + 1)))%nat
          by (unfold numberOfDigits; lia).
        rewrite firstn_digits; [reflexivity|].
        rewrite length_rev, length_map. unfold numberOfDigits. lia.
      * rewrite En, length_app. cbn [List.length].
        rewrite to_byte_small by lia. lia.
Qed.

End Accumulator.

(** ** Claims about the numeric accumulator *)

Section AccumulatorClaims.

Variable cvt : double -> Z.

(** The value an encoder command reads is the finalized value. *)
Lemma parseValue_after_command s c isFreq wave :
  encoder_command (toupper c) = Some (isFreq, wave) ->
  parseValue (after cvt s [c]) = finalized_value s.
Proof.
  intros H.
  destruct (encoder_command_effect cvt s c isFreq wave H) as [_ ->].
  apply parseValue_set_waveType.
Qed.

(** The finalized value, spelled out. *)
Lemma finalized_unfold t :
  finalized_value t =
  ddiv (dmul (double_of_ulong (parseValue_f t))
             (double_of_ulong (multiplier t)))
       (double_of_ulong (divider (state_of (terminate t)))).
Proof.
  rewrite finalized_value_eq, parseValue_unfold. unfold parseValue_f.
  destruct (terminate_keeps t) as (-> & -> & _). reflexivity.
Qed.

(** With multiplier and divider 1 the quotient is the converted
    integer. *)
Lemma plain_quotient f :
  0 <= f < 2 ^ 32 ->
  ddiv (dmul (double_of_ulong f) (double_of_ulong 1)) (double_of_ulong 1)
  = double_of_ulong f.
Proof.
  intros Hf. destruct (double_of_ulong_finite f Hf) as [x Ex].
  destruct (double_of_ulong_binary32 f x (proj1 Hf) Ex) as [Hb Hx].
  rewrite Ex, dmul_one, ddiv_one by assumption. reflexivity.
Qed.

(** Without decimal point and unit suffix the finalized value is the
    value of the digit array, converted to [double]. *)
Lemma finalized_plain s :
  decimal s = 0 -> multiplier s = 1 -> divider s = 1 ->
  0 <= parseValue_f s < 2 ^ 32 ->
  finalized_value s = double_of_ulong (parseValue_f s).
Proof.
  intros Hc Hm Hv Hf. rewrite finalized_unfold, terminate_state, Hc.
  cbn [Z.eqb negb andb divider set_decimal set_numeric].
  rewrite Hm, Hv. apply plain_quotient. exact Hf.
Qed.

(** The conversion of an integer below [2 ^ 27] is off by 4 at most. *)
Lemma double_of_ulong_near n r :
  0 <= n < 2 ^ 27 -> double_of_ulong n = Finite r ->
  (inject_Z n - 4 <= r <= inject_Z n + 4)%Q.
Proof.
  intros Hn Hr.
  assert (H0 : (0 <= inject_Z n)%Q)
    by (change 0%Q with (inject_Z 0); rewrite <- Zle_Qle; lia).
  assert (H1 : (inject_Z n < pow2 (26 + 1))%Q).
  { apply Qlt_le_trans with (inject_Z (2 ^ 27)).
    - rewrite <- Zlt_Qlt. lia.
    - discriminate. }
  pose proof (round32_error (inject_Z n) r 26 H0 H1 ltac:(lia) Hr) as He.
  change (pow2 (26 - 24)) with 4%Q in He. lra.
Qed.

(** The integer that digits spell has as many digits at most. *)
Lemma spelled_bound ds :
  forallb is_digit ds = true ->
  0 <= spelled ds < 10 ^ Z.of_nat (List.length ds).
Proof.
  induction ds as [|c ds IH] using rev_ind; intros Hd.
  - cbn. lia.
  - rewrite forallb_app in Hd. apply andb_prop in Hd. destruct Hd as [Hds Hc].
    cbn [forallb] in Hc. rewrite andb_true_r in Hc.
    pose proof (is_digit_value c Hc) as Hv. fold (digit_value c) in Hv.
    specialize (IH Hds).
    rewrite spelled_snoc, length_app. cbn [List.length].
    rewrite Nat2Z.inj_add, Z.pow_add_r by lia.
    change (10 ^ Z.of_nat 1) with 10. lia.
Qed.

End AccumulatorClaims.

(** C3 as stated fails for eight digits.  The value is a [double], on
    this target a single precision number with a significand of 24
    bits: not every integer above 16777216 is one.  "16777217" finalizes
    to 16777216, and the raw command 'N' writes that to the chip;
    "99999999" finalizes to 100000000. *)
Lemma eight_digits_round_to_single_precision :
  let ds := ["1"; "6"; "7"; "7"; "7"; "2"; "1"; "7"]%char in
  let nines := ["9"; "9"; "9"; "9"; "9"; "9"; "9"; "9"]%char in
  reachable wrapping_conversion booted /\
  numeric booted = 0 /\ decimal booted = 0 /\
  forallb is_digit ds = true /\
  (List.length ds <= 8)%nat /\
  spelled ds = 16777217 /\
  finalized_value (after wrapping_conversion booted ds)
    = Finite (inject_Z 16777216) /\
  ~ deq (finalized_value (after wrapping_conversion booted ds))
        (Finite (inject_Z (spelled ds))) /\
  parseValue (after wrapping_conversion booted (ds ++ ["S"%char]))
    = Finite (inject_Z 16777216) /\
  writes wrapping_conversion booted (ds ++ ["N"%char])
    = [0x4000; 0x4400; 0x2000] /\
  recombine 0x4000 0x4400 = 16777216 /\
  finalized_value (after wrapping_conversion booted nines)
    = Finite (inject_Z 100000000).
Proof.
  cbv zeta.
  split; [constructor|]. split; [reflexivity|]. split; [reflexivity|].
  split; [reflexivity|]. split; [cbn; lia|]. split; [reflexivity|].
  split; [vm_compute; reflexivity|].
  split; [vm_compute; intros H; discriminate H|].
  repeat split; vm_compute; reflexivity.
Qed.

(** C3, amended.  In a reachable state with both counters clear (a fresh
    entry), after one to eight digit characters without decimal point and
    unit suffix the digit array holds the digits with the last one
    entered in slot 0, its weighted sum [digitArray[ i ] * 10 ^ i] is
    the decimal integer the digits spell in entry order, and the
    finalized value - the value the terminator 'S' hands to the
    encoder - is that integer converted to [double], the nearest single
    precision number.  It is the integer itself when the integer is at
    most 16777216, hence for every entry of up to seven digits, and
    within 4 of it otherwise. *)
Theorem entered_digits_spell_value
        (cvt : double -> Z) (s : state) (ds : list ascii) :
  reachable cvt s ->
  numeric s = 0 ->
  decimal s = 0 ->
  forallb is_digit ds = true ->
  (1 <= List.length ds <= 8)%nat ->
  let s' := after cvt s ds in
  digitArray s' =
    rev (map digit_value ds) ++ repeat 0 (8 - List.length ds) /\
  weighted_sum 0 (digitArray s') = spelled ds /\
  finalized_value s' = double_of_ulong (spelled ds) /\
  parseValue (after cvt s (ds ++ ["S"%char])) = double_of_ulong (spelled ds) /\
  (spelled ds <= 2 ^ 24 ->
   finalized_value s' = Finite (inject_Z (spelled ds))) /\
  ((List.length ds <= 7)%nat ->
   finalized_value s' = Finite (inject_Z (spelled ds))) /\
  exists r, finalized_value s' = Finite r /\
            (inject_Z (spelled ds) - 4 <= r <= inject_Z (spelled ds) + 4)%Q.
Proof.
  intros Hr Hn Hc Hd Hlen. cbv zeta.
  pose proof (reachable_inv cvt s Hr) as Hi.
  destruct (digits_entered cvt ds s (inv_length s Hi) Hn Hd Hlen)
    as [Ea En Em Ev Ec].
  pose proof (inv_after cvt ds s Hi) as Hi'.
  destruct (parseValue_f_sum _ (inv_length _ Hi') (inv_digits _ Hi'))
    as [Ef Hf].
  assert (Es : weighted_sum 0 (digitArray (after cvt s ds)) = spelled ds)
    by (rewrite Ea; apply weighted_sum_spelled).
  assert (Ep : parseValue_f (after cvt s ds) = spelled ds) by congruence.
  assert (Hb : 0 <= spelled ds < 10 ^ 8) by (rewrite <- Ep; exact Hf).
  assert (Ev' : finalized_value (after cvt s ds)
                = double_of_ulong (spelled ds)).
  { rewrite <- Ep. apply finalized_plain; try congruence. lia. }
  assert (Hx : spelled ds <= 2 ^ 24 ->
               finalized_value (after cvt s ds)
               = Finite (inject_Z (spelled ds))).
  { intros Hle. rewrite Ev'. apply double_of_ulong_exact. lia. }
  split; [exact Ea|]. split; [exact Es|]. split; [exact Ev'|].
  split; [|split; [exact Hx|split]].
  - rewrite after_app.
    rewrite (parseValue_after_command cvt _ "S"%char true wSine eq_refl).
    exact Ev'.
  - intros H7. apply Hx.
    pose proof (spelled_bound ds Hd) as Hs.
    assert (10 ^ Z.of_nat (List.length ds) <= 10 ^ 7)
      by (apply Z.pow_le_mono_r; lia).
    lia.
  - destruct (double_of_ulong_finite (spelled ds)) as [r Er]; [lia|].
    exists r. rewrite Ev'. split; [exact Er|].
    apply double_of_ulong_near; [lia|exact Er].
Qed.

(** The amended C3 at the digits "1000" right after start-up. *)
Lemma entered_digits_spell_value_witness :
  let ds := ["1"; "0"; "0"; "0"]%char in
  reachable wrapping_conversion booted /\
  numeric booted = 0 /\ decimal booted = 0 /\
  forallb is_digit ds = true /\
  (1 <= List.length ds <= 8)%nat /\
  spelled ds = 1000 /\
  finalized_value (after wrapping_conversion booted ds)
    = Finite (inject_Z 1000).
Proof.
  cbv zeta.
  assert (Hr : reachable wrapping_conversion booted) by constructor.
  assert (Hl : (1 <= List.length ["1"; "0"; "0"; "0"]%char <= 8)%nat)
    by (cbn; lia).
  split; [exact Hr|]. split; [reflexivity|]. split; [reflexivity|].
  split; [reflexivity|]. split; [exact Hl|]. split; [reflexivity|].
  destruct (entered_digits_spell_value wrapping_conversion booted
              ["1"; "0"; "0"; "0"]%char Hr eq_refl eq_refl eq_refl Hl)
    as (_ & _ & _ & _ & Hx & _).
  apply Hx. vm_compute. discriminate.
Defined.

Section EntryExamples.

Variable cvt : double -> Z.

Lemma after_point s :
  after cvt s ["."%char] = set_decimal (to_byte (numeric s + 1)) s.
Proof. rewrite after_one. apply parseCommand_point; reflexivity. Qed.

(** The state after "1.5" on a fresh entry. *)
Lemma after_one_point_five s :
  List.length (digitArray s) = numberOfDigits ->
  numeric s = 0 ->
  after cvt s ["1"; "."; "5"]%char =
  mkState [5; 1; 0; 0; 0; 0; 0; 0] 1 1 (debug s) (echo s) (waveType s) 2 2.
Proof.
  intros Hl Hn.
  rewrite !after_cons2.
  rewrite (after_digit cvt "1" s) by (try reflexivity; assumption).
  rewrite Hn. cbn [Z.eqb].
  rewrite after_point.
  rewrite after_digit by reflexivity.
  reflexivity.
Qed.

(** The effect of the suffix 'K' (a terminator) on a state whose decimal
    counter is clear. *)
Lemma after_K s :
  decimal s = 0 ->
  after cvt s ["K"%char] = set_multiplier 1000 (set_decimal 0 (set_numeric 0 s)).
Proof.
  intros Hc. rewrite after_one, parseCommand_terminator by reflexivity.
  change (toupper "K") with "K"%char. cbv [execute]. run_monad.
  rewrite terminate_state, Hc. reflexivity.
Qed.

(** The state after "5K0" on a fresh entry. *)
Lemma after_five_K_zero s :
  List.length (digitArray s) = numberOfDigits ->
  numeric s = 0 ->
  decimal s = 0 ->
  after cvt s ["5"; "K"; "0"]%char =
  mkState [0; 0; 0; 0; 0; 0; 0; 0] 1 1 (debug s) (echo s) (waveType s) 1 0.
Proof.
  intros Hl Hn Hc.
  rewrite !after_cons2.
  rewrite (after_digit cvt "5" s) by (try reflexivity; assumption).
  rewrite Hn. cbn [Z.eqb].
  rewrite after_K by exact Hc.
  rewrite after_digit by reflexivity.
  reflexivity.
Qed.

End EntryExamples.

(** C9.  On a fresh entry in a reachable state, after '1', '.', '5' the
    counters are [numeric = 2] and [decimal = 2]; the terminator 'S' then
    sets the divider to [powerOf10( numeric - decimal + 1 )], which is 10,
    the digit array is worth 15, and the finalized value is
    15 / 10 = 1.5. *)
Theorem one_point_five_finalizes (cvt : double -> Z) (s : state) :
  reachable cvt s ->
  numeric s = 0 ->
  let s3 := after cvt s ["1"; "."; "5"]%char in
  let s4 := after cvt s3 ["S"%char] in
  numeric s3 = 2 /\
  decimal s3 = 2 /\
  divider s4 = powerOf10 (numeric s3 - decimal s3 + 1) /\
  divider s4 = 10 /\
  parseValue_f s4 = 15 /\
  multiplier s4 = 1 /\
  deq (finalized_value s3) (Finite (inject_Z 15 / inject_Z 10)) /\
  deq (parseValue s4) (Finite (3 # 2)).
Proof.
  intros Hr Hn. cbv zeta.
  pose proof (inv_length s (reachable_inv cvt s Hr)) as Hl.
  destruct (encoder_command_effect cvt
              (after cvt s ["1"; "."; "5"]%char) "S"%char true wSine eq_refl)
    as [_ Es].
  rewrite Es, after_one_point_five by assumption.
  do 7 (split; [vm_compute; reflexivity|]). vm_compute. reflexivity.
Qed.

(** C9 right after start-up. *)
Lemma one_point_five_finalizes_witness :
  let s3 := after wrapping_conversion booted ["1"; "."; "5"]%char in
  let s4 := after wrapping_conversion s3 ["S"%char] in
  reachable wrapping_conversion booted /\
  numeric booted = 0 /\
  divider s4 = 10 /\
  deq (parseValue s4) (Finite (3 # 2)).
Proof.
  cbv zeta. split; [constructor|]. split; [reflexivity|].
  destruct (one_point_five_finalizes wrapping_conversion booted)
    as (_ & _ & _ & Hd & _ & _ & _ & Hv).
  - constructor.
  - reflexivity.
  - split; [exact Hd|exact Hv].
Defined.

(** C2 as stated fails: after start-up the input "5K0" followed by 'S'
    finalizes to 0, not to 50; the digit array no longer holds the 5. *)
Lemma suffix_then_digit_is_not_fifty :
  let s := after wrapping_conversion booted ["5"; "K"; "0"]%char in
  numeric booted = 0 /\ decimal booted = 0 /\
  digitArray s = [0; 0; 0; 0; 0; 0; 0; 0] /\
  deq (finalized_value s) (Finite (inject_Z 0)) /\
  ~ deq (finalized_value s) (Finite (inject_Z 50)) /\
  ~ deq (parseValue (after wrapping_conversion s ["S"%char]))
        (Finite (inject_Z 50)).
Proof.
  cbv zeta.
  split; [reflexivity|]. split; [reflexivity|].
  split; [vm_compute; reflexivity|].
  split; [vm_compute; reflexivity|].
  split; vm_compute; intros H; discriminate H.
Qed.

(** C2, amended.  On a fresh entry in a reachable state, '5' puts 5 into
    slot 0; 'K' sets the multiplier to 1000 and, being a terminator,
    clears the digit counter; the digit '0' therefore starts a new
    entry: it erases the digit array (the 5 is gone) and sets the
    multiplier back to 1.  The terminator 'S' then finalizes to 0. *)
Theorem suffix_then_digit_restarts_entry (cvt : double -> Z) (s : state) :
  reachable cvt s ->
  numeric s = 0 ->
  decimal s = 0 ->
  let s1 := after cvt s ["5"%char] in
  let s2 := after cvt s ["5"; "K"]%char in
  let s3 := after cvt s ["5"; "K"; "0"]%char in
  let s4 := after cvt s ["5"; "K"; "0"; "S"]%char in
  (digitArray s1 = [5; 0; 0; 0; 0; 0; 0; 0] /\ numeric s1 = 1) /\
  (digitArray s2 = [5; 0; 0; 0; 0; 0; 0; 0] /\ multiplier s2 = 1000 /\
   numeric s2 = 0) /\
  (digitArray s3 = [0; 0; 0; 0; 0; 0; 0; 0] /\ multiplier s3 = 1 /\
   numeric s3 = 1) /\
  deq (finalized_value s3) (Finite (inject_Z 0)) /\
  deq (parseValue s4) (Finite (inject_Z 0)).
Proof.
  intros Hr Hn Hc. cbv zeta.
  pose proof (inv_length s (reachable_inv cvt s Hr)) as Hl.
  assert (E1 : after cvt s ["5"%char] =
               mkState [5; 0; 0; 0; 0; 0; 0; 0] 1 1 (debug s) (echo s)
                       (waveType s) 1 (decimal s)).
  { rewrite (after_digit cvt "5" s) by (try reflexivity; assumption).
    rewrite Hn. reflexivity. }
  assert (E2 : after cvt s ["5"; "K"]%char =
               mkState [5; 0; 0; 0; 0; 0; 0; 0] 1000 1 (debug s) (echo s)
                       (waveType s) 0 0).
  { rewrite after_cons2, E1, after_K by exact Hc. reflexivity. }
  change ["5"; "K"; "0"; "S"]%char with (["5"; "K"; "0"] ++ ["S"])%char.
  rewrite after_app.
  rewrite (parseValue_after_command cvt _ "S"%char true wSine eq_refl).
  rewrite E1, E2, after_five_K_zero by assumption.
  split; [split; vm_compute; reflexivity|].
  split; [split; [|split]; vm_compute; reflexivity|].
  split; [split; [|split]; vm_compute; reflexivity|].
  split; vm_compute; reflexivity.
Qed.

(** The amended C2 right after start-up. *)
Lemma suffix_then_digit_restarts_entry_witness :
  let s3 := after wrapping_conversion booted ["5"; "K"; "0"]%char in
  reachable wrapping_conversion booted /\
  numeric booted = 0 /\ decimal booted = 0 /\
  digitArray s3 = [0; 0; 0; 0; 0; 0; 0; 0] /\
  deq (finalized_value s3) (Finite (inject_Z 0)).
Proof.
  cbv zeta. split; [constructor|]. split; [reflexivity|].
  split; [reflexivity|].
  destruct (suffix_then_digit_restarts_entry wrapping_conversion booted)
    as (_ & _ & (Ha & _) & Hv & _).
  - constructor.
  - reflexivity.
  - reflexivity.
  - split; [exact Ha|exact Hv].
Defined.

(** ** powerOf10 *)

Lemma powerOf10_loop_spec n y :
  0 <= y < 2 ^ 32 ->
  powerOf10_loop n y = (y * 10 ^ Z.of_nat n) mod 2 ^ 32.
Proof.
  revert y. induction n as [|n IH]; intros y H.
  - cbn [powerOf10_loop]. change (10 ^ Z.of_nat 0) with 1.
    rewrite Z.mul_1_r, Z.mod_small by assumption. reflexivity.
  - cbn [powerOf10_loop]. rewrite IH by apply to_ulong_range.
    unfold to_ulong. rewrite Z.mul_mod_idemp_l by lia.
    rewrite Nat2Z.inj_succ, Z.pow_succ_r by lia.
    f_equal. ring.
Qed.

Lemma powerOf10_formula x : powerOf10 x = 10 ^ (x mod 2 ^ 8) mod 2 ^ 32.
Proof.
  unfold powerOf10, to_byte.
  rewrite powerOf10_loop_spec by lia.
  rewrite Z.mul_1_l, Z2Nat.id; [reflexivity|].
  apply Z.mod_pos_bound. lia.
Qed.

Lemma powerOf10_exact x : 0 <= x <= 9 -> powerOf10 x = 10 ^ x.
Proof.
  intros H.
  rewrite powerOf10_formula, (Z.mod_small x (2 ^ 8))
    by (change (2 ^ 8) with 256; lia).
  apply Z.mod_small. split; [apply Z.pow_nonneg; lia|].
  apply Z.le_lt_trans with (10 ^ 9); [|reflexivity].
  apply Z.pow_le_mono_r; lia.
Qed.

Lemma powerOf10_zero x : 32 <= x <= 255 -> powerOf10 x = 0.
Proof.
  intros H.
  rewrite powerOf10_formula, (Z.mod_small x (2 ^ 8))
    by (change (2 ^ 8) with 256; lia).
  replace x with (32 + (x - 32)) by lia.
  rewrite Z.pow_add_r by lia.
  rewrite <- Z.mul_mod_idemp_l by lia.
  change (10 ^ 32 mod 2 ^ 32) with 0. reflexivity.
Qed.

(** X1.  [powerOf10( x )] is [10 ^ x] reduced modulo [2 ^ 32], for the byte
    [x] the argument is converted to.  It is exact up to [x = 9], wraps
    from [x = 10] on ([10 ^ 10] gives 1410065408) and is 0 for every
    [x] from 32 to 255. *)
Theorem powerOf10_wraps (x : Z) :
  powerOf10 x = 10 ^ (x mod 2 ^ 8) mod 2 ^ 32 /\
  (0 <= x <= 9 -> powerOf10 x = 10 ^ x) /\
  powerOf10 10 = 1410065408 /\
  (32 <= x <= 255 -> powerOf10 x = 0).
Proof.
  split; [apply powerOf10_formula|]. split; [apply powerOf10_exact|].
  split; [reflexivity|apply powerOf10_zero].
Qed.

(** ** The dispatcher, exactly *)

Section DispatcherExact.

Variable cvt : double -> Z.

Lemma execute_state_eq C t : state_of (execute cvt C t) = execute_state C t.
Proof.
  destruct C as [[] [] [] [] [] [] [] []]; cbv [execute execute_state];
    run_monad; rewrite ?println_state, ?showHelp_state, ?setFrequency_state,
      ?writeRegister_state; cbn [andb]; try reflexivity.
  all: unfold half_frequency_test, AD9833_reset;
    rewrite ?writeRegister_state;
    cbn [waveType set_waveType Z.eqb wRectangle wSine wTriangle Pos.eqb andb];
    reflexivity.
Qed.

Lemma execute_silent C t :
  encoder_command C = None -> C <> "O"%char ->
  register_writes (trace_of (execute cvt C t)) = [].
Proof.
  destruct C as [[] [] [] [] [] [] [] []]; cbv [encoder_command]; intros H HO;
    try discriminate H; try (exfalso; apply HO; reflexivity);
    reflexivity.
Qed.

Lemma parseCommand_trace c s :
  trace_of (parseCommand cvt (Some c) s) =
  (if negb (echo s =? 0) && (32 <=? char_val c) then [SerialWrite c] else [])
  ++ (if is_digit c then []
      else if char_val c =? 46 then []
      else trace_of (execute cvt (toupper c) (state_of (terminate s)))).
Proof.
  unfold parseCommand. rewrite trace_of_bind, trace_of_gets, value_of_gets,
    state_of_gets. cbn [app]. rewrite trace_of_bind, trace_of_when, state_of_when.
  rewrite trace_of_emit, state_of_emit.
  replace (if negb (echo s =? 0) && (32 <=? char_val c) then s else s)
    with s by (destruct (_ && _); reflexivity).
  f_equal.
  destruct (is_digit c).
  - run_monad. reflexivity.
  - destruct (char_val c =? 46).
    + run_monad. reflexivity.
    + rewrite trace_of_bind, terminate_trace. reflexivity.
Qed.

Lemma parseCommand_quiet c s :
  is_digit c = true \/ (char_val c =? 46) = true ->
  register_writes (trace_of (parseCommand cvt (Some c) s)) = [].
Proof.
  intros H. rewrite parseCommand_trace, register_writes_app.
  assert (E : (if is_digit c then []
               else if char_val c =? 46 then []
               else trace_of (execute cvt (toupper c) (state_of (terminate s))))
              = []).
  { destruct H as [-> | H]; [reflexivity|]. rewrite H.
    destruct (is_digit c); reflexivity. }
  rewrite E. destruct (_ && _); reflexivity.
Qed.

Lemma silent_byte c s :
  encoder_command (toupper c) = None ->
  toupper c <> "O"%char ->
  writes cvt s [c] = [].
Proof.
  intros H HO. rewrite writes_one.
  destruct (is_digit c) eqn:Ed;
    [apply parseCommand_quiet; left; exact Ed|].
  destruct (char_val c =? 46) eqn:Ep;
    [apply parseCommand_quiet; right; exact Ep|].
  rewrite parseCommand_terminator_writes by assumption.
  apply execute_silent; assumption.
Qed.

End DispatcherExact.

(** ** Properties beyond the claims: the dispatcher *)

(** X2.  Only the commands 'N', 'O', 'S' and 'T' (in either case) write to the
    chip: every other byte - digit, decimal point, unit suffix, 'E', 'Z',
    '?' or an unrecognized byte - causes no register write. *)
Theorem only_four_commands_write
        (cvt : double -> Z) (s : state) (c : ascii) :
  encoder_command (toupper c) = None ->
  toupper c <> "O"%char ->
  writes cvt s [c] = [].
Proof. apply silent_byte. Qed.

Lemma only_four_commands_write_witness :
  encoder_command (toupper "k") = None /\
  toupper "k" <> "O"%char /\
  writes wrapping_conversion booted ["k"%char] = [].
Proof.
  assert (H1 : encoder_command (toupper "k") = None) by reflexivity.
  assert (H2 : toupper "k" <> "O"%char) by (vm_compute; discriminate).
  split; [exact H1|]. split; [exact H2|].
  exact (only_four_commands_write wrapping_conversion booted "k"%char H1 H2).
Defined.

(** X3.  What each byte can change.  The digit array is changed by digits
    only; [echo] by 'E' only; [debug] by 'Z' only; [waveType] by 'N', 'S'
    and 'T' only; the multiplier by digits, 'K' and 'M' only. *)
Theorem byte_frame (cvt : double -> Z) (s : state) (c : ascii) :
  let s' := after cvt s [c] in
  (is_digit c = false -> digitArray s' = digitArray s) /\
  (toupper c <> "E"%char -> echo s' = echo s) /\
  (toupper c <> "Z"%char -> debug s' = debug s) /\
  (encoder_command (toupper c) = None -> waveType s' = waveType s) /\
  (is_digit c = false -> toupper c <> "K"%char -> toupper c <> "M"%char ->
   multiplier s' = multiplier s).
Proof.
  cbv zeta. rewrite after_one.
  destruct (is_digit c) eqn:Ed.
  - rewrite parseCommand_digit by assumption.
    repeat split; intros; try discriminate; reflexivity.
  - destruct (char_val c =? 46) eqn:Ep.
    + rewrite parseCommand_point by assumption.
      repeat split; intros; reflexivity.
    + rewrite parseCommand_terminator by assumption.
      rewrite execute_state_eq.
      destruct (terminate_keeps s) as (Ta & Tm & Tw & Te & Td).
      cbv zeta in Ta, Tm, Tw, Te, Td.
      set (t := state_of (terminate s)) in *.
      rewrite <- Ta, <- Tm, <- Tw, <- Te, <- Td.
      clearbody t. clear Ta Tm Tw Te Td Ed Ep.
      destruct (toupper c) as [[] [] [] [] [] [] [] []];
        cbv [execute_state encoder_command];
        repeat split; intros; try reflexivity; try discriminate;
        exfalso; auto.
Qed.

Section CaseAndWords.

Variable cvt : double -> Z.

Lemma lower_is_terminator c :
  is_lower c = true ->
  is_digit c = false /\ (char_val c =? 46) = false /\
  is_digit (toupper c) = false /\ (char_val (toupper c) =? 46) = false /\
  toupper (toupper c) = toupper c.
Proof.
  destruct c as [[] [] [] [] [] [] [] []]; intros H;
    try (vm_compute in H; discriminate H); vm_compute; auto.
Qed.

Lemma parseCommand_terminator_hex c s :
  is_digit c = false -> (char_val c =? 46) = false ->
  hex_prints (trace_of (parseCommand cvt (Some c) s)) =
  hex_prints (trace_of (execute cvt (toupper c) (state_of (terminate s)))).
Proof.
  intros H1 H2. rewrite parseCommand_trace, H1, H2.
  destruct (_ && _); reflexivity.
Qed.

(** The LSB and MSB words address FREQ0 and carry 14 bits each. *)
Lemma lsb_word_range r : freq0_word (Z.lor (Z.land r 0x3FFF) 0x4000).
Proof.
  unfold freq0_word.
  assert (H : Z.lor (Z.land r 0x3FFF) 0x4000 = r mod 2 ^ 14 + 2 ^ 14).
  { change 0x3FFF with (Z.ones 14). rewrite Z.land_ones by lia.
    pose proof (Z.mod_pos_bound r (2 ^ 14) ltac:(lia)) as Hb.
    assert (Hl : Z.land (r mod 2 ^ 14) 0x4000 = 0).
    { apply Z.bits_inj'; intros i Hi. rewrite Z.land_spec, Z.bits_0.
      change 0x4000 with (2 ^ 14). rewrite Z.pow2_bits_eqb by lia.
      destruct (Z.eqb_spec 14 i) as [<-|]; [|apply andb_false_r].
      rewrite (testbit_small _ 14 14) by lia. reflexivity. }
    rewrite <- Z.lxor_lor, <- Z.add_nocarry_lxor by exact Hl.
    reflexivity. }
  rewrite H.
  pose proof (Z.mod_pos_bound r (2 ^ 14) ltac:(lia)).
  change (2 ^ 14) with 16384 in *. lia.
Qed.

Lemma msb_word_range r :
  freq0_word (Z.lor (Z.shiftr (Z.land r 0xFFFC000) 14) 0x4000).
Proof.
  assert (E : Z.shiftr (Z.land r 0xFFFC000) 14
              = Z.land (Z.shiftr r 14) 0x3FFF).
  { rewrite Z.shiftr_land. reflexivity. }
  rewrite E. apply lsb_word_range.
Qed.

End CaseAndWords.

(** X4.  Command letters are case-insensitive: a lower-case letter has the
    same effect on the state and causes the same register writes as its
    upper-case form. *)
Theorem commands_case_insensitive
        (cvt : double -> Z) (s : state) (c : ascii) :
  is_lower c = true ->
  after cvt s [c] = after cvt s [toupper c] /\
  writes cvt s [c] = writes cvt s [toupper c].
Proof.
  intros H.
  destruct (lower_is_terminator c H) as (H1 & H2 & H3 & H4 & H5).
  split.
  - rewrite !after_one, !parseCommand_terminator by assumption.
    rewrite H5. reflexivity.
  - rewrite !writes_one, !parseCommand_terminator_writes by assumption.
    rewrite H5. reflexivity.
Qed.

Lemma commands_case_insensitive_witness :
  is_lower "t" = true /\
  after wrapping_conversion booted ["t"%char]
    = after wrapping_conversion booted ["T"%char] /\
  writes wrapping_conversion booted ["t"%char]
    = writes wrapping_conversion booted ["T"%char].
Proof.
  split; [reflexivity|].
  exact (commands_case_insensitive wrapping_conversion booted "t"%char eq_refl).
Defined.

(** X5.  Whatever the state and the input, every word written to the chip is
    the reset word 0x2100, the control word of Sine (0x2000) or Triangle
    (0x2002), or a word addressed to FREQ0 (D15 D14 = 01).  The firmware
    never writes to FREQ1 or to a phase register and never sets a sleep
    or OPBITEN bit. *)
Theorem written_words_classified
        (cvt : double -> Z) (s : state) (input : list ascii) (w : Z) :
  In w (writes cvt s input) ->
  w = 0x2100 \/ w = 0x2000 \/ w = 0x2002 \/ freq0_word w.
Proof.
  revert s. induction input as [|c rest IH]; intros s Hin.
  - contradiction.
  - change (c :: rest) with ([c] ++ rest) in Hin.
    rewrite writes_app in Hin. apply in_app_or in Hin.
    destruct Hin as [Hin|Hin]; [|exact (IH _ Hin)].
    destruct (encoder_command (toupper c)) as [[isFreq wave]|] eqn:Ec.
    + destruct (encoder_command_effect cvt s c isFreq wave Ec) as [Hw _].
      rewrite Hw in Hin.
      destruct Hin as [<-|[<-|[<-|[]]]].
      * right; right; right. apply lsb_word_range.
      * right; right; right. apply msb_word_range.
      * destruct (encoder_command_wave _ _ _ Ec) as [-> | ->]; auto.
    + destruct (ascii_dec (toupper c) "O"%char) as [EO|EO].
      * assert (Hw : writes cvt s [c] = [0x2100]).
        { destruct (is_digit c) eqn:Ed.
          - exfalso. revert EO Ed. clear.
            destruct c as [[] [] [] [] [] [] [] []]; vm_compute;
              intros; discriminate.
          - destruct (char_val c =? 46) eqn:Ep.
            + exfalso. revert EO Ep. clear.
              destruct c as [[] [] [] [] [] [] [] []]; vm_compute;
                intros; discriminate.
            + rewrite writes_one, parseCommand_terminator_writes by assumption.
              rewrite EO. cbv [execute]. run_monad.
              unfold AD9833_reset.
              rewrite register_writes_app, println_writes,
                writeRegister_writes. reflexivity. }
        rewrite Hw in Hin. destruct Hin as [<-|[]]. auto.
      * rewrite (silent_byte cvt c s Ec EO) in Hin.
        contradiction.
Qed.

Lemma written_words_classified_witness :
  In 0x69F1 (writes wrapping_conversion booted ["S"%char]) /\
  (0x69F1 = 0x2100 \/ 0x69F1 = 0x2000 \/ 0x69F1 = 0x2002 \/ freq0_word 0x69F1).
Proof.
  assert (H : In 0x69F1 (writes wrapping_conversion booted ["S"%char]))
    by (vm_compute; auto).
  split; [exact H|].
  exact (written_words_classified wrapping_conversion booted ["S"%char] _ H).
Defined.

(** ** Properties beyond the claims: the serial output *)

Section SerialOutput.

Variable cvt : double -> Z.

Lemma serial_writes_app t1 t2 :
  serial_writes (t1 ++ t2) = serial_writes t1 ++ serial_writes t2.
Proof.
  induction t1 as [|e t1 IH]; [reflexivity|].
  destruct e; cbn [app serial_writes]; rewrite IH; reflexivity.
Qed.

Lemma hex_prints_app t1 t2 :
  hex_prints (t1 ++ t2) = hex_prints t1 ++ hex_prints t2.
Proof.
  induction t1 as [|e t1 IH]; [reflexivity|].
  destruct e; cbn [app hex_prints]; rewrite IH; reflexivity.
Qed.

(** The output of one call of the register writer. *)
Lemma writeRegister_trace dat s :
  trace_of (AD9833_writeRegister dat s) =
  (if debug s =? 0 then [] else [SerialPrintlnHex (to_word dat)])
  ++ [RegisterWrite (to_word dat)].
Proof.
  unfold AD9833_writeRegister. run_monad.
  destruct (debug s =? 0); reflexivity.
Qed.

(** The output of the encoder: three calls of the register writer. *)
Lemma setFrequency_trace isFreq s :
  exists w1 w2 w3,
    trace_of (AD9833_setFrequency cvt isFreq s) =
    ((if debug s =? 0 then [] else [SerialPrintlnHex w1]) ++ [RegisterWrite w1])
    ++ ((if debug s =? 0 then [] else [SerialPrintlnHex w2])
        ++ [RegisterWrite w2])
    ++ ((if debug s =? 0 then [] else [SerialPrintlnHex w3])
        ++ [RegisterWrite w3]).
Proof.
  unfold AD9833_setFrequency.
  destruct isFreq.
  - destruct (half_frequency_test (waveType s)
                (dmul (parseValue s) freq_to_reg)) eqn:E;
      do 3 eexists; run_monad; rewrite ?E; run_monad;
      rewrite ?writeRegister_state, !writeRegister_trace;
      cbn [debug set_waveType app]; rewrite ?app_nil_r; reflexivity.
  - do 3 eexists; run_monad.
    rewrite ?writeRegister_state, !writeRegister_trace.
    cbn [app]. rewrite ?app_nil_r. reflexivity.
Qed.

Lemma setFrequency_serial isFreq s :
  serial_writes (trace_of (AD9833_setFrequency cvt isFreq s)) = [] /\
  hex_prints (trace_of (AD9833_setFrequency cvt isFreq s)) =
  if debug s =? 0 then []
  else register_writes (trace_of (AD9833_setFrequency cvt isFreq s)).
Proof.
  destruct (setFrequency_trace isFreq s) as (w1 & w2 & w3 & ->).
  destruct (debug s =? 0); split; reflexivity.
Qed.

Lemma execute_serial C t :
  serial_writes (trace_of (execute cvt C t)) = [] /\
  hex_prints (trace_of (execute cvt C t)) =
  if debug t =? 0 then [] else register_writes (trace_of (execute cvt C t)).
Proof.
  destruct C as [[] [] [] [] [] [] [] []]; cbv [execute];
    try (destruct (debug t =? 0); split; reflexivity).
  all: run_monad; unfold AD9833_reset;
    rewrite ?println_state, ?writeRegister_trace;
    rewrite ?serial_writes_app, ?hex_prints_app, ?register_writes_app;
    try match goal with
        | |- context [AD9833_setFrequency cvt ?b ?st] =>
            destruct (setFrequency_serial b st) as [E1 E2]; rewrite E1, E2
        end;
    cbn [debug set_waveType]; destruct (debug t =? 0); split; reflexivity.
Qed.

Lemma echo_of_byte c s :
  serial_writes (trace_of (parseCommand cvt (Some c) s)) =
  if negb (echo s =? 0) && (32 <=? char_val c) then [c] else [].
Proof.
  rewrite parseCommand_trace, serial_writes_app.
  assert (E : serial_writes
                (if is_digit c then []
                 else if char_val c =? 46 then []
                 else trace_of (execute cvt (toupper c) (state_of (terminate s))))
              = []).
  { destruct (is_digit c); [reflexivity|].
    destruct (char_val c =? 46); [reflexivity|].
    apply execute_serial. }
  rewrite E. destruct (_ && _); reflexivity.
Qed.

Lemma char_val_code c :
  let code := Z.of_N (N_of_ascii c) in
  0 <= code < 256 /\
  char_val c = if code <? 128 then code else code - 256.
Proof.
  cbv zeta. pose proof (N_ascii_bounded c) as Hb.
  assert (H : 0 <= Z.of_N (N_of_ascii c) < 256) by lia.
  split; [exact H|].
  unfold char_val, to_int8. change (2 ^ 8) with 256.
  rewrite Z.mod_small by exact H. reflexivity.
Qed.

End SerialOutput.

(** X6.  The echo.  Processing a byte echoes exactly that byte, once, when
    [echo] is non-zero and the byte is a printable 7-bit character (code
    32 to 127); control characters and bytes from 128 on (negative as
    [char]) are never echoed, and nothing else is ever sent with
    [SerialUSB.write]. *)
Theorem echo_printable_only (cvt : double -> Z) (s : state) (c : ascii) :
  let code := Z.of_N (N_of_ascii c) in
  serial_writes (trace_of (parseCommand cvt (Some c) s)) =
  if negb (echo s =? 0) && (32 <=? code) && (code <=? 127) then [c] else [].
Proof.
  cbv zeta. rewrite echo_of_byte.
  destruct (char_val_code c) as [Hb ->].
  destruct (echo s =? 0); [reflexivity|]. cbn [negb andb].
  destruct (Z.ltb_spec (Z.of_N (N_of_ascii c)) 128).
  - destruct (Z.leb_spec 32 (Z.of_N (N_of_ascii c))); cbn [andb];
      [|reflexivity].
    destruct (Z.leb_spec (Z.of_N (N_of_ascii c)) 127); [reflexivity|lia].
  - destruct (Z.leb_spec 32 (Z.of_N (N_of_ascii c) - 256)); [lia|].
    destruct (Z.leb_spec 32 (Z.of_N (N_of_ascii c))); cbn [andb];
      [|reflexivity].
    destruct (Z.leb_spec (Z.of_N (N_of_ascii c)) 127); [lia|reflexivity].
Qed.

(** X7.  The debug trace.  While a byte is processed, the words printed in
    hexadecimal are exactly the words written to the chip, in the same
    order, when [debug] is non-zero, and none when it is zero. *)
Theorem debug_trace_mirrors_writes
        (cvt : double -> Z) (s : state) (c : ascii) :
  hex_prints (trace_of (parseCommand cvt (Some c) s)) =
  if debug s =? 0 then []
  else register_writes (trace_of (parseCommand cvt (Some c) s)).
Proof.
  destruct (is_digit c) eqn:Ed.
  - rewrite (parseCommand_quiet cvt c s (or_introl Ed)).
    rewrite parseCommand_trace, Ed, app_nil_r.
    destruct (_ && _); destruct (debug s =? 0); reflexivity.
  - destruct (char_val c =? 46) eqn:Ep.
    + rewrite (parseCommand_quiet cvt c s (or_intror Ep)).
      rewrite parseCommand_trace, Ed, Ep, app_nil_r.
      destruct (_ && _); destruct (debug s =? 0); reflexivity.
    + rewrite parseCommand_terminator_writes by assumption.
      rewrite parseCommand_terminator_hex by assumption.
      destruct (execute_serial cvt (toupper c) (state_of (terminate s)))
        as [_ ->].
      destruct (terminate_keeps s) as (_ & _ & _ & _ & ->). reflexivity.
Qed.

(** ** Properties beyond the claims: switches and ranges *)

Section Switches.

Variable cvt : double -> Z.

Lemma aget_digit a : Forall digit_ok a -> 0 <= aget a 0 <= 9.
Proof.
  intros H. unfold aget. destruct H as [|d a Hd _]; cbn [nth]; [lia|exact Hd].
Qed.

Lemma to_int8_small x : 0 <= x < 128 -> to_int8 x = x.
Proof.
  intros H. unfold to_int8. change (2 ^ 8) with 256.
  rewrite Z.mod_small by lia.
  destruct (Z.ltb_spec x 128); [reflexivity|lia].
Qed.

Lemma to_byte_range x : 0 <= to_byte x < 256.
Proof. unfold to_byte. apply Z.mod_pos_bound. reflexivity. Qed.

Lemma small_ranges_parseCommand available s :
  inv s -> small_ranges s ->
  small_ranges (state_of (parseCommand cvt available s)).
Proof.
  intros Hi [He Hd Hn Hc].
  destruct available as [c|]; [|split; assumption].
  destruct (is_digit c) eqn:Ed.
  - rewrite parseCommand_digit by assumption.
    split; cbn; try assumption. apply to_byte_range.
  - destruct (char_val c =? 46) eqn:Ep.
    + rewrite parseCommand_point by assumption.
      split; cbn; try assumption. apply to_byte_range.
    + rewrite parseCommand_terminator by assumption.
      rewrite execute_state_eq.
      pose proof (inv_terminate s Hi) as Hit.
      pose proof (aget_digit _ (inv_digits _ Hit)) as Ha.
      assert (Ht : small_ranges (state_of (terminate s))).
      { rewrite terminate_state.
        destruct (_ && _); split; cbn; try assumption; lia. }
      destruct Ht as [He' Hd' Hn' Hc'].
      set (t := state_of (terminate s)) in *. clearbody t.
      destruct (toupper c) as [[] [] [] [] [] [] [] []];
        cbv [execute_state]; split;
        cbn [echo debug numeric decimal set_echo set_debug set_multiplier
             set_waveType];
        rewrite ?to_int8_small by lia; assumption.
Qed.

Lemma reachable_small_ranges s : reachable cvt s -> small_ranges s.
Proof.
  induction 1 as [|s available Hr IH].
  - split; cbn; lia.
  - apply small_ranges_parseCommand; [|exact IH].
    apply (reachable_inv cvt). exact Hr.
Qed.

Lemma toupper_terminator c C :
  toupper c = C -> In C command_letters ->
  is_digit c = false /\ (char_val c =? 46) = false.
Proof.
  intros <- H. revert H.
  destruct c as [[] [] [] [] [] [] [] []]; vm_compute; intros H;
    try (split; reflexivity);
    repeat (destruct H as [H|H]; [discriminate H|]); destruct H.
Qed.

End Switches.

(** X8.  Every reachable state has eight slots of decimal digits, a multiplier
    of 1, 1000 or 1000000, a divider below [2 ^ 32], counters below 256
    and both switches [echo] and [debug] between 0 and 9. *)
Theorem reachable_state_ranges (cvt : double -> Z) (s : state) :
  reachable cvt s ->
  List.length (digitArray s) = 8%nat /\
  Forall (fun d => 0 <= d <= 9) (digitArray s) /\
  (multiplier s = 1 \/ multiplier s = 1000 \/ multiplier s = 1000000) /\
  0 <= divider s < 2 ^ 32 /\
  0 <= numeric s < 256 /\
  0 <= decimal s < 256 /\
  0 <= echo s <= 9 /\
  0 <= debug s <= 9.
Proof.
  intros H.
  destruct (reachable_inv cvt s H) as [Hl Hd Hm _ Hv].
  destruct (reachable_small_ranges cvt s H) as [He Hg Hn Hc].
  repeat split; try assumption; lia.
Qed.

Lemma reachable_state_ranges_witness :
  reachable wrapping_conversion
    (after wrapping_conversion booted ["7"; "."; "2"; "e"]%char) /\
  0 <= echo (after wrapping_conversion booted ["7"; "."; "2"; "e"]%char) <= 9.
Proof.
  assert (H : reachable wrapping_conversion
                (after wrapping_conversion booted ["7"; "."; "2"; "e"]%char))
    by (apply reachable_after; constructor).
  split; [exact H|].
  destruct (reachable_state_ranges wrapping_conversion _ H)
    as (_ & _ & _ & _ & _ & _ & He & _).
  exact He.
Defined.

(** X9.  The switches.  In a reachable state a digit followed by 'E' (or 'e')
    stores that digit in [echo], and followed by 'Z' (or 'z') stores it in
    [debug]; a bare 'E' or 'Z' stores slot 0 of the digit array, whatever
    number was entered last.  After "0E" no byte is echoed. *)
Theorem switch_commands (cvt : double -> Z) (s : state) (d c : ascii) :
  reachable cvt s ->
  is_digit d = true ->
  (toupper c = "E"%char ->
   echo (after cvt s [c]) = aget (digitArray s) 0 /\
   echo (after cvt s [d; c]) = digit_value d /\
   (digit_value d = 0 ->
    forall c', serial_writes
                 (trace_of (parseCommand cvt (Some c') (after cvt s [d; c])))
               = [])) /\
  (toupper c = "Z"%char ->
   debug (after cvt s [c]) = aget (digitArray s) 0 /\
   debug (after cvt s [d; c]) = digit_value d).
Proof.
  intros Hr Hd.
  pose proof (reachable_inv cvt s Hr) as Hi.
  assert (Hr1 : reachable cvt (after cvt s [d]))
    by (apply reachable_after; exact Hr).
  pose proof (reachable_inv cvt _ Hr1) as Hi1.
  assert (Ea : aget (digitArray (after cvt s [d])) 0 = digit_value d).
  { rewrite after_digit by (try assumption; apply (inv_length _ Hi)).
    reflexivity. }
  assert (G : forall t, inv t ->
              (toupper c = "E"%char ->
               echo (after cvt t [c]) = aget (digitArray t) 0) /\
              (toupper c = "Z"%char ->
               debug (after cvt t [c]) = aget (digitArray t) 0)).
  { intros t Ht.
    pose proof (aget_digit _ (inv_digits _ Ht)) as Hg.
    destruct (terminate_keeps t) as (Ta & _).
    cbv zeta in Ta.
    split; intros HC;
      (destruct (toupper_terminator c _ HC) as [H1 H2];
       [cbv [command_letters In]; tauto|]);
      rewrite after_one, parseCommand_terminator by assumption;
      rewrite execute_state_eq, HC; cbv [execute_state];
      cbn [echo debug set_echo set_debug]; rewrite Ta;
      apply to_int8_small; lia. }
  split; intros HC.
  - destruct (G s Hi) as [G1 _]. destruct (G _ Hi1) as [G2 _].
    split; [exact (G1 HC)|].
    assert (E2 : echo (after cvt s [d; c]) = digit_value d).
    { rewrite after_cons2, (G2 HC). exact Ea. }
    split; [exact E2|].
    intros Hz c'. rewrite echo_of_byte, E2, Hz. reflexivity.
  - destruct (G s Hi) as [_ G1]. destruct (G _ Hi1) as [_ G2].
    split; [exact (G1 HC)|].
    rewrite after_cons2, (G2 HC). exact Ea.
Qed.

Lemma switch_commands_witness :
  reachable wrapping_conversion booted /\
  is_digit "0" = true /\
  echo (after wrapping_conversion booted ["0"; "E"]%char) = 0 /\
  debug (after wrapping_conversion booted ["0"; "Z"]%char) = 0.
Proof.
  assert (Hr : reachable wrapping_conversion booted) by constructor.
  split; [exact Hr|]. split; [reflexivity|].
  destruct (switch_commands wrapping_conversion booted "0"%char "E"%char
              Hr eq_refl) as [HE _].
  destruct (switch_commands wrapping_conversion booted "0"%char "Z"%char
              Hr eq_refl) as [_ HZ].
  destruct (HE eq_refl) as (_ & E2 & _).
  destruct (HZ eq_refl) as (_ & Z2).
  split; [exact E2|exact Z2].
Defined.

(** ** Properties beyond the claims: the numeric accumulator *)

Section LongEntries.

Variable cvt : double -> Z.

Lemma firstn_padding (L : list Z) n k :
  (n <= k)%nat ->
  firstn n (L ++ repeat 0 k) = firstn n (L ++ repeat 0 n).
Proof.
  revert L k. induction n as [|n IH]; intros L k H; [reflexivity|].
  destruct L as [|d L]; cbn [app].
  - destruct k as [|k]; [lia|]. cbn [repeat firstn]. f_equal.
    apply (IH [] k). lia.
  - cbn [firstn]. f_equal.
    rewrite (IH L k), (IH L (S n)) by lia. reflexivity.
Qed.

Lemma weighted_sum_cons d a :
  weighted_sum 0 (d :: a) = d + 10 * weighted_sum 0 a.
Proof.
  cbn [weighted_sum]. rewrite weighted_sum_succ.
  change (10 ^ Z.of_nat 0) with 1. lia.
Qed.

(** The first [n] slots of a zero-padded digit list are worth the list
    modulo [10 ^ n]. *)
Lemma weighted_sum_firstn (L : list Z) n :
  Forall digit_ok L ->
  weighted_sum 0 (firstn n (L ++ repeat 0 n)) =
  weighted_sum 0 L mod 10 ^ Z.of_nat n.
Proof.
  revert L. induction n as [|n IH]; intros L H.
  - cbn [firstn weighted_sum]. change (10 ^ Z.of_nat 0) with 1.
    rewrite Z.mod_1_r. reflexivity.
  - destruct H as [|d L Hd HL].
    + cbn [app]. rewrite firstn_all2 by (rewrite repeat_length; lia).
      pose proof (weighted_sum_zeros 0 (S n) []) as Hz.
      cbn [app] in Hz. rewrite Hz. reflexivity.
    + cbn [app firstn]. rewrite firstn_padding by lia.
      rewrite !weighted_sum_cons, (IH L HL).
      rewrite Nat2Z.inj_succ, Z.pow_succ_r by lia.
      set (m := 10 ^ Z.of_nat n).
      assert (Hm : 0 < m) by (apply Z.pow_pos_nonneg; lia).
      set (y := weighted_sum 0 L).
      pose proof (Z.div_mod y m ltac:(lia)) as Hy.
      pose proof (Z.mod_pos_bound y m Hm) as Hr.
      unfold digit_ok in Hd.
      apply Z.mod_unique with (q := y / m); [lia|].
      rewrite Hy at 1. ring.
Qed.

Lemma digit_values_ok ds :
  forallb is_digit ds = true -> Forall digit_ok (map digit_value ds).
Proof.
  induction ds as [|c ds IH]; cbn [forallb map]; intros H; [constructor|].
  apply andb_prop in H. destruct H as [Hc Hds].
  constructor; [apply is_digit_value; exact Hc|apply IH; exact Hds].
Qed.

Lemma length_after_digit c t :
  is_digit c = true ->
  List.length (digitArray t) = numberOfDigits ->
  List.length (digitArray (after cvt t [c])) = numberOfDigits.
Proof.
  intros Hc Hl. rewrite after_digit by assumption.
  cbn [digitArray set_divider set_multiplier set_numeric set_digitArray
       List.length].
  destruct (numeric t =? 0); [reflexivity|].
  rewrite length_firstn, Hl. reflexivity.
Qed.

(** What a run of digits does to a state that holds [numeric] digits. *)
Lemma digits_appended ds t :
  List.length (digitArray t) = numberOfDigits ->
  forallb is_digit ds = true ->
  (1 <= List.length ds)%nat ->
  0 <= numeric t ->
  numeric t + Z.of_nat (List.length ds) <= 255 ->
  let t' := after cvt t ds in
  digitArray t' =
    firstn 8 (rev (map digit_value ds)
              ++ (if numeric t =? 0 then repeat 0 8 else digitArray t)) /\
  numeric t' = numeric t + Z.of_nat (List.length ds) /\
  multiplier t' = 1 /\ divider t' = 1 /\ decimal t' = decimal t.
Proof.
  intros Hl. cbv zeta.
  induction ds as [|c ds IH] using rev_ind; intros Hd Hlen Hn0 Hn.
  - cbn in Hlen. lia.
  - rewrite forallb_app in Hd. apply andb_prop in Hd. destruct Hd as [Hds Hc].
    cbn [forallb] in Hc. rewrite andb_true_r in Hc.
    rewrite length_app in Hlen, Hn. cbn [List.length] in Hlen, Hn.
    rewrite after_app, map_app, rev_app_distr, length_app.
    cbn [map rev app List.length].
    destruct ds as [|c0 ds'].
    + change (after cvt t []) with t.
      rewrite after_digit by assumption.
      cbn [digitArray numeric multiplier divider decimal set_divider
           set_multiplier set_numeric set_digitArray List.length].
      rewrite to_byte_small by lia.
      repeat split; try reflexivity; try lia.
      destruct (numeric t =? 0); reflexivity.
    + remember (c0 :: ds') as ds1 eqn:E1.
      assert (Hlen1 : (1 <= List.length ds1)%nat)
        by (rewrite E1; cbn [List.length]; lia).
      clear E1 c0 ds'.
      destruct (IH Hds Hlen1 Hn0 ltac:(lia)) as (Ea & En & Em & Ev & Ec).
      set (u := after cvt t ds1) in *.
      assert (Hu : List.length (digitArray u) = numberOfDigits).
      { rewrite Ea. rewrite length_firstn, length_app, length_rev, length_map.
        unfold numberOfDigits in *.
        destruct (numeric t =? 0); rewrite ?repeat_length, ?Hl; lia. }
      rewrite after_digit by assumption.
      assert (Hnz : (numeric u =? 0) = false) by (apply Z.eqb_neq; lia).
      rewrite Hnz.
      cbn [digitArray numeric multiplier divider decimal set_divider
           set_multiplier set_numeric set_digitArray].
      rewrite to_byte_small by lia.
      repeat split; try reflexivity; try assumption; try lia.
      rewrite Ea, firstn_firstn. reflexivity.
Qed.

End LongEntries.

Section EntryForms.

Variable cvt : double -> Z.

Lemma inv_set_decimal v t : inv t -> inv (set_decimal v t).
Proof. intros [Hl Hd Hm Hw Hv]. split; assumption. Qed.

(** Digits do not read the decimal counter. *)
Lemma after_digits_set_decimal ds t v :
  forallb is_digit ds = true ->
  List.length (digitArray t) = numberOfDigits ->
  after cvt (set_decimal v t) ds = set_decimal v (after cvt t ds).
Proof.
  revert t. induction ds as [|c ds IH]; intros t Hd Hl; [reflexivity|].
  cbn [forallb] in Hd. apply andb_prop in Hd. destruct Hd as [Hc Hds].
  rewrite (after_cons cvt c ds), (after_cons cvt c ds t).
  rewrite <- IH by (try assumption; apply length_after_digit; assumption).
  f_equal. rewrite !after_digit by assumption. reflexivity.
Qed.


Lemma spelled_value ds s :
  reachable cvt s ->
  forallb is_digit ds = true ->
  digitArray (after cvt s ds) =
    firstn 8 (rev (map digit_value ds) ++ repeat 0 8) ->
  parseValue_f (after cvt s ds) = spelled ds mod 10 ^ 8.
Proof.
  intros Hr Hd Ea.
  pose proof (inv_after cvt ds s (reachable_inv cvt s Hr)) as Hi.
  destruct (parseValue_f_sum _ (inv_length _ Hi) (inv_digits _ Hi)) as [-> _].
  rewrite Ea.
  rewrite (weighted_sum_firstn (rev (map digit_value ds)) 8)
    by (apply Forall_rev, digit_values_ok; exact Hd).
  pose proof (weighted_sum_spelled ds 0) as Hs.
  cbn [repeat] in Hs. rewrite app_nil_r in Hs. rewrite Hs. reflexivity.
Qed.

End EntryForms.

(** X10.  More than eight digits.  On a fresh entry in a reachable state, after
    1 to 255 digits the digit array holds the last eight digits entered
    (the newest in slot 0, zero padded), so the integer [parseValue]
    sums up is the number typed modulo [10 ^ 8]: the digits entered
    before the last eight are dropped.  Without decimal point the
    finalized value is that integer converted to [double], the nearest
    single precision number; it is the integer itself up to 16777216. *)
Theorem long_entry_keeps_last_eight
        (cvt : double -> Z) (s : state) (ds : list ascii) :
  reachable cvt s ->
  numeric s = 0 ->
  forallb is_digit ds = true ->
  (1 <= List.length ds <= 255)%nat ->
  let s' := after cvt s ds in
  digitArray s' = firstn 8 (rev (map digit_value ds) ++ repeat 0 8) /\
  parseValue_f s' = spelled ds mod 10 ^ 8 /\
  (decimal s = 0 ->
   finalized_value s' = double_of_ulong (spelled ds mod 10 ^ 8) /\
   (spelled ds mod 10 ^ 8 <= 2 ^ 24 ->
    finalized_value s' = Finite (inject_Z (spelled ds mod 10 ^ 8)))).
Proof.
  intros Hr Hn Hd Hlen. cbv zeta.
  pose proof (reachable_inv cvt s Hr) as Hi.
  destruct (digits_appended cvt ds s (inv_length _ Hi) Hd ltac:(lia)
              ltac:(lia) ltac:(lia)) as (Ea & En & Em & Ev & Ec).
  rewrite Hn in Ea. cbn [Z.eqb] in Ea.
  pose proof (spelled_value cvt ds s Hr Hd Ea) as Ef.
  split; [exact Ea|]. split; [exact Ef|].
  intros Hc.
  assert (Hm : 0 <= spelled ds mod 10 ^ 8 < 10 ^ 8)
    by (apply Z.mod_pos_bound; lia).
  assert (E : finalized_value (after cvt s ds)
              = double_of_ulong (spelled ds mod 10 ^ 8)).
  { rewrite <- Ef. apply finalized_plain; try congruence.
    rewrite Ef. lia. }
  split; [exact E|].
  intros Hle. rewrite E. apply double_of_ulong_exact. lia.
Qed.

Lemma long_entry_keeps_last_eight_witness :
  let ds := ["1"; "2"; "3"; "4"; "5"; "6"; "7"; "8"; "9"; "0"]%char in
  reachable wrapping_conversion booted /\
  numeric booted = 0 /\
  forallb is_digit ds = true /\
  (1 <= List.length ds <= 255)%nat /\
  spelled ds = 1234567890 /\
  parseValue_f (after wrapping_conversion booted ds) = 34567890 /\
  finalized_value (after wrapping_conversion booted ds)
    = Finite (inject_Z 34567888).
Proof.
  cbv zeta.
  assert (Hr : reachable wrapping_conversion booted) by constructor.
  assert (Hl : (1 <= List.length
                       ["1"; "2"; "3"; "4"; "5"; "6"; "7"; "8"; "9"; "0"]%char
                <= 255)%nat) by (cbn; lia).
  split; [exact Hr|]. split; [reflexivity|]. split; [reflexivity|].
  split; [exact Hl|]. split; [reflexivity|].
  destruct (long_entry_keeps_last_eight wrapping_conversion booted
              ["1"; "2"; "3"; "4"; "5"; "6"; "7"; "8"; "9"; "0"]%char
              Hr eq_refl eq_refl Hl) as (_ & Ef & Hv).
  split; [rewrite Ef; reflexivity|].
  destruct (Hv eq_refl) as [E _]. rewrite E. vm_compute. reflexivity.
Defined.

Section EntryValues.

Variable cvt : double -> Z.

Lemma ddiv_zero x : ddiv x (double_of_ulong 0) = NonFinite.
Proof. destruct x; reflexivity. Qed.

(** Dividing a product by one changes nothing. *)
Lemma ddiv_one_dmul x y :
  (0 <= x)%Q -> (0 <= y)%Q ->
  ddiv (dmul (Finite x) (Finite y)) (double_of_ulong 1)
  = dmul (Finite x) (Finite y).
Proof.
  intros Hx Hy.
  destruct (dmul (Finite x) (Finite y)) as [w|] eqn:Ew; [|reflexivity].
  destruct (dmul_binary32 x y w Hx Hy Ew) as [Hb Hw].
  apply ddiv_one; assumption.
Qed.

(** The powers of ten a divider can hold after at most eight digits,
    and the two unit multipliers, convert exactly. *)
Lemma double_of_ulong_pow10 k :
  0 <= k <= 8 -> double_of_ulong (10 ^ k) = Finite (inject_Z (10 ^ k)).
Proof.
  intros Hk.
  assert (H : k = 0 \/ k = 1 \/ k = 2 \/ k = 3 \/ k = 4 \/ k = 5 \/
              k = 6 \/ k = 7 \/ k = 8) by lia.
  repeat (destruct H as [->|H]; [vm_compute; reflexivity|]).
  subst k. vm_compute. reflexivity.
Qed.

(** What one to eight digits of a fresh entry leave behind. *)
Lemma entered_value ds s :
  reachable cvt s ->
  numeric s = 0 ->
  forallb is_digit ds = true ->
  (1 <= List.length ds <= 8)%nat ->
  let s' := after cvt s ds in
  entered ds s s' /\ parseValue_f s' = spelled ds /\ 0 <= spelled ds < 10 ^ 8.
Proof.
  intros Hr Hn Hd Hlen. cbv zeta.
  pose proof (reachable_inv cvt s Hr) as Hi.
  pose proof (digits_entered cvt ds s (inv_length s Hi) Hn Hd Hlen) as He.
  pose proof (inv_after cvt ds s Hi) as Hi'.
  destruct (parseValue_f_sum _ (inv_length _ Hi') (inv_digits _ Hi'))
    as [Ef Hb].
  assert (Es : parseValue_f (after cvt s ds) = spelled ds).
  { rewrite Ef, (entered_digitArray _ _ _ He). apply weighted_sum_spelled. }
  split; [exact He|]. split; [exact Es|]. rewrite <- Es. exact Hb.
Qed.

(** The state after digits, a decimal point and more digits. *)
Lemma after_point_between ds1 ds2 s :
  reachable cvt s ->
  numeric s = 0 ->
  forallb is_digit ds1 = true ->
  forallb is_digit ds2 = true ->
  (List.length ds1 <= 254)%nat ->
  after cvt s (ds1 ++ "."%char :: ds2) =
  set_decimal (Z.of_nat (List.length ds1) + 1) (after cvt s (ds1 ++ ds2)).
Proof.
  intros Hr Hn Hd1 Hd2 Hlen.
  pose proof (reachable_inv cvt s Hr) as Hi.
  pose proof (inv_after cvt ds1 s Hi) as Hi1.
  rewrite after_app, after_cons, after_point.
  rewrite after_digits_set_decimal by (try assumption; apply (inv_length _ Hi1)).
  rewrite <- after_app. f_equal.
  assert (En : numeric (after cvt s ds1) = Z.of_nat (List.length ds1)).
  { destruct ds1 as [|c ds1']; [exact Hn|].
    destruct (digits_appended cvt (c :: ds1') s (inv_length _ Hi) Hd1)
      as (_ & En & _); cbn [List.length] in *; try lia. }
  rewrite En. apply to_byte_small. lia.
Qed.

(** The finalized value after a unit suffix. *)
Lemma finalized_after_suffix t c mult :
  (toupper c = "K"%char /\ mult = 1000) \/
  (toupper c = "M"%char /\ mult = 1000000) ->
  finalized_value (after cvt t [c]) =
  ddiv (dmul (double_of_ulong (parseValue_f t)) (double_of_ulong mult))
       (double_of_ulong (divider (state_of (terminate t)))).
Proof.
  intros H.
  assert (Ht : is_digit c = false /\ (char_val c =? 46) = false).
  { destruct H as [[HC _]|[HC _]];
      apply (toupper_terminator c _ HC); cbv [command_letters In]; tauto. }
  destruct Ht as [H1 H2].
  rewrite after_one, parseCommand_terminator by assumption.
  rewrite execute_state_eq.
  assert (E : execute_state (toupper c) (state_of (terminate t))
              = set_multiplier mult (state_of (terminate t))).
  { destruct H as [[-> ->]|[-> ->]]; reflexivity. }
  rewrite E, finalized_unfold.
  unfold parseValue_f. rewrite (terminate_state (set_multiplier _ _)).
  destruct (terminate_keeps t) as (Ta & _). cbv zeta in Ta.
  cbn [digitArray multiplier set_multiplier]. rewrite Ta.
  rewrite terminate_state.
  cbn [decimal numeric divider set_decimal set_numeric set_multiplier
       Z.eqb negb andb].
  destruct (negb (decimal t =? 0) && negb (numeric t =? 0));
    cbn [divider set_divider]; reflexivity.
Qed.

(** A terminator other than a unit suffix leaves the finalized value. *)
Lemma finalized_after_terminator s c :
  is_digit c = false -> (char_val c =? 46) = false ->
  toupper c <> "K"%char -> toupper c <> "M"%char ->
  finalized_value (after cvt s [c]) = finalized_value s.
Proof.
  intros H1 H2 HK HM.
  rewrite after_one, parseCommand_terminator by assumption.
  rewrite execute_state_eq.
  unfold finalized_value at 2.
  rewrite (terminate_state s).
  set (u := if negb (decimal s =? 0) && negb (numeric s =? 0)
            then set_divider (powerOf10 (numeric s - decimal s + 1)) s
            else s).
  clearbody u.
  destruct (toupper c) as [[] [] [] [] [] [] [] []];
    try (exfalso; apply HK; reflexivity);
    try (exfalso; apply HM; reflexivity);
    cbv [execute_state]; unfold finalized_value; rewrite terminate_state;
    unfold parseValue, parseValue_f;
    cbn [digitArray multiplier divider decimal numeric
         set_decimal set_numeric set_echo set_debug set_waveType
         Z.eqb negb andb];
    reflexivity.
Qed.

Lemma parseValue_f_set_decimal v t :
  parseValue_f (set_decimal v t) = parseValue_f t.
Proof. unfold parseValue_f. cbn [digitArray set_decimal]. reflexivity. Qed.

End EntryValues.

(** X11.  The decimal point.  On a fresh entry in a reachable state, digits, a
    decimal point and more digits - one to eight digits in all, on
    either side of the point - are read as follows: the decimal counter
    records the position, the terminator sets the divider to 10 to the
    number of digits after the point, and the finalized value is the
    integer of all digits, converted to [double], divided in single
    precision by that divider.  When the integer is at most 16777216
    the value is the single precision number nearest to the decimal
    number typed.  This covers "5." (divider 1) and ".5" (divider 10). *)
Theorem decimal_point_entry
        (cvt : double -> Z) (s : state) (ds1 ds2 : list ascii) :
  reachable cvt s ->
  numeric s = 0 ->
  forallb is_digit ds1 = true ->
  forallb is_digit ds2 = true ->
  (1 <= List.length ds1 + List.length ds2 <= 8)%nat ->
  let s' := after cvt s (ds1 ++ "."%char :: ds2) in
  let N := spelled (ds1 ++ ds2) in
  let D := 10 ^ Z.of_nat (List.length ds2) in
  numeric s' = Z.of_nat (List.length ds1 + List.length ds2) /\
  decimal s' = Z.of_nat (List.length ds1) + 1 /\
  divider (state_of (terminate s')) = D /\
  finalized_value s' = ddiv (double_of_ulong N) (double_of_ulong D) /\
  (N <= 2 ^ 24 ->
   finalized_value s' = round32 (inject_Z N / inject_Z D)).
Proof.
  intros Hr Hn Hd1 Hd2 Hlen. cbv zeta.
  assert (Hd : forallb is_digit (ds1 ++ ds2) = true)
    by (rewrite forallb_app, Hd1, Hd2; reflexivity).
  assert (HlenD : (1 <= List.length (ds1 ++ ds2) <= 8)%nat)
    by (rewrite length_app; exact Hlen).
  destruct (entered_value cvt (ds1 ++ ds2) s Hr Hn Hd HlenD)
    as ([Ea En Em Ev Ec] & Ef & Hb).
  rewrite after_point_between by (try assumption; lia).
  set (u := after cvt s (ds1 ++ ds2)) in *.
  rewrite length_app in En.
  assert (Ediv : divider (state_of (terminate
                   (set_decimal (Z.of_nat (List.length ds1) + 1) u)))
                 = 10 ^ Z.of_nat (List.length ds2)).
  { rewrite terminate_state.
    cbn [decimal numeric set_decimal]. rewrite En.
    destruct (Z.eqb_spec (Z.of_nat (List.length ds1) + 1) 0); [lia|].
    destruct (Z.eqb_spec (Z.of_nat (List.length ds1 + List.length ds2)) 0);
      [lia|].
    cbn [negb andb divider set_decimal set_numeric set_divider].
    replace (Z.of_nat (List.length ds1 + List.length ds2)
             - (Z.of_nat (List.length ds1) + 1) + 1)
      with (Z.of_nat (List.length ds2)) by lia.
    apply powerOf10_exact. lia. }
  assert (Ev' : finalized_value
                  (set_decimal (Z.of_nat (List.length ds1) + 1) u)
                = ddiv (double_of_ulong (spelled (ds1 ++ ds2)))
                       (double_of_ulong (10 ^ Z.of_nat (List.length ds2)))).
  { rewrite finalized_unfold, Ediv, parseValue_f_set_decimal.
    replace (multiplier (set_decimal (Z.of_nat (List.length ds1) + 1) u))
      with 1 by (symmetry; exact Em).
    rewrite Ef.
    destruct (double_of_ulong_finite (spelled (ds1 ++ ds2))) as [x Ex];
      [lia|].
    destruct (double_of_ulong_binary32 _ x (proj1 Hb) Ex) as [Hbx Hx].
    rewrite Ex, dmul_one by assumption. reflexivity. }
  split; [exact En|]. split; [reflexivity|]. split; [exact Ediv|].
  split; [exact Ev'|].
  intros Hle. rewrite Ev'.
  rewrite double_of_ulong_exact by lia.
  rewrite double_of_ulong_pow10 by lia.
  cbn [ddiv].
  replace (Qeq_bool (inject_Z (10 ^ Z.of_nat (List.length ds2))) 0)
    with false; [reflexivity|].
  symmetry. apply not_true_is_false. intros E. apply Qeq_bool_iff in E.
  unfold Qeq in E. cbn in E.
  assert (0 < 10 ^ Z.of_nat (List.length ds2)) by (apply Z.pow_pos_nonneg; lia).
  lia.
Qed.

(** ".25" is a quarter exactly; "12.345" is the single precision number
    nearest to 12.345, which is 12944671 / 2^20. *)
Lemma decimal_point_entry_witness :
  reachable wrapping_conversion booted /\
  numeric booted = 0 /\
  forallb is_digit [] = true /\
  forallb is_digit ["2"; "5"]%char = true /\
  (1 <= List.length (@nil ascii) + List.length ["2"; "5"]%char <= 8)%nat /\
  finalized_value (after wrapping_conversion booted ["."; "2"; "5"]%char)
    = Finite (1 # 4) /\
  finalized_value
    (after wrapping_conversion booted ["1"; "2"; "."; "3"; "4"; "5"]%char)
    = Finite (12944671 # 1048576).
Proof.
  assert (Hr : reachable wrapping_conversion booted) by constructor.
  assert (Hl : (1 <= List.length (@nil ascii) + List.length ["2"; "5"]%char
                <= 8)%nat) by (cbn; lia).
  split; [exact Hr|]. split; [reflexivity|]. split; [reflexivity|].
  split; [reflexivity|]. split; [exact Hl|].
  destruct (decimal_point_entry wrapping_conversion booted [] ["2"; "5"]%char
              Hr eq_refl eq_refl eq_refl Hl) as (_ & _ & _ & _ & Hv).
  split.
  - cbn [app] in Hv. rewrite Hv by (vm_compute; discriminate).
    vm_compute. reflexivity.
  - vm_compute. reflexivity.
Defined.

(** X12.  The unit suffix.  On a fresh entry in a reachable state, one to eight
    digits followed by 'K' (or 'k') finalize to the single precision
    product of the number they spell, converted to [double], and 1000,
    followed by 'M' (or 'm') of that number and 1000000: this is the
    value the next command reads.  When the number is at most 16777216
    the value is the single precision number nearest to the exact
    product. *)
Theorem unit_suffix_scales
        (cvt : double -> Z) (s : state) (ds : list ascii) (c : ascii)
        (mult : Z) :
  reachable cvt s ->
  numeric s = 0 ->
  decimal s = 0 ->
  forallb is_digit ds = true ->
  (1 <= List.length ds <= 8)%nat ->
  (toupper c = "K"%char /\ mult = 1000) \/
  (toupper c = "M"%char /\ mult = 1000000) ->
  let V := finalized_value (after cvt s (ds ++ [c])) in
  V = dmul (double_of_ulong (spelled ds)) (double_of_ulong mult) /\
  (spelled ds <= 2 ^ 24 -> V = round32 (inject_Z (spelled ds * mult))).
Proof.
  intros Hr Hn Hc Hd Hlen Hs. cbv zeta.
  destruct (entered_value cvt ds s Hr Hn Hd Hlen)
    as ([Ea En Em Ev Ec] & Ef & Hb).
  assert (Hmult : 0 <= mult <= 2 ^ 24)
    by (destruct Hs as [[_ ->]|[_ ->]]; lia).
  assert (E : finalized_value (after cvt s (ds ++ [c]))
              = dmul (double_of_ulong (spelled ds)) (double_of_ulong mult)).
  { rewrite after_app, (finalized_after_suffix cvt _ c mult Hs).
    rewrite Ef, terminate_state, Ec, Hc.
    cbn [Z.eqb negb andb divider set_decimal set_numeric]. rewrite Ev.
    destruct (double_of_ulong (spelled ds)) as [x|] eqn:Ex; [|reflexivity].
    destruct (double_of_ulong_binary32 _ x (proj1 Hb) Ex) as [_ Hx].
    rewrite (double_of_ulong_exact mult Hmult).
    apply ddiv_one_dmul; [exact Hx|].
    change 0%Q with (inject_Z 0). rewrite <- Zle_Qle. lia. }
  split; [exact E|].
  intros Hle. rewrite E.
  rewrite double_of_ulong_exact by lia.
  rewrite (double_of_ulong_exact mult Hmult). cbn [dmul].
  apply round32_comp. rewrite inject_Z_mult. reflexivity.
Qed.

(** "5k" is 5000; "12345678K" is 12345677824, the single precision
    number nearest to 12345678000. *)
Lemma unit_suffix_scales_witness :
  reachable wrapping_conversion booted /\
  numeric booted = 0 /\ decimal booted = 0 /\
  forallb is_digit ["5"]%char = true /\
  (1 <= List.length ["5"]%char <= 8)%nat /\
  finalized_value (after wrapping_conversion booted ["5"; "k"]%char)
    = Finite (inject_Z 5000) /\
  finalized_value
    (after wrapping_conversion booted
           ["1"; "2"; "3"; "4"; "5"; "6"; "7"; "8"; "K"]%char)
    = Finite (inject_Z 12345677824).
Proof.
  assert (Hr : reachable wrapping_conversion booted) by constructor.
  assert (Hl : (1 <= List.length ["5"]%char <= 8)%nat) by (cbn; lia).
  split; [exact Hr|]. split; [reflexivity|]. split; [reflexivity|].
  split; [reflexivity|]. split; [exact Hl|].
  destruct (unit_suffix_scales wrapping_conversion booted ["5"]%char "k"%char
              1000 Hr eq_refl eq_refl eq_refl Hl
              (or_introl (conj eq_refl eq_refl))) as [_ Hv].
  split.
  - cbn [app] in Hv. rewrite Hv by (vm_compute; discriminate).
    vm_compute. reflexivity.
  - vm_compute. reflexivity.
Defined.

(** X13.  Decimal point and unit suffix together.  Digits, a decimal point,
    more digits (one to eight digits in all) and then 'K' or 'M' finalize
    to the number spelled, converted to [double], times 1000 or 1000000,
    divided by 10 to the number of digits after the point, both in
    single precision and in this order: the suffix, being a terminator,
    fixes the divider, and the following command keeps it.  "1.5K" is
    1500. *)
Theorem unit_suffix_after_decimal_point
        (cvt : double -> Z) (s : state) (ds1 ds2 : list ascii) (c : ascii)
        (mult : Z) :
  reachable cvt s ->
  numeric s = 0 ->
  forallb is_digit ds1 = true ->
  forallb is_digit ds2 = true ->
  (1 <= List.length ds1 + List.length ds2 <= 8)%nat ->
  (toupper c = "K"%char /\ mult = 1000) \/
  (toupper c = "M"%char /\ mult = 1000000) ->
  let s' := after cvt s ((ds1 ++ "."%char :: ds2) ++ [c]) in
  let N := spelled (ds1 ++ ds2) in
  let D := 10 ^ Z.of_nat (List.length ds2) in
  multiplier s' = mult /\
  divider s' = D /\
  finalized_value s' =
    ddiv (dmul (double_of_ulong N) (double_of_ulong mult))
         (double_of_ulong D) /\
  (N <= 2 ^ 24 ->
   finalized_value s' =
     ddiv (round32 (inject_Z (N * mult))) (Finite (inject_Z D))).
Proof.
  intros Hr Hn Hd1 Hd2 Hlen Hs. cbv zeta.
  assert (Hd : forallb is_digit (ds1 ++ ds2) = true)
    by (rewrite forallb_app, Hd1, Hd2; reflexivity).
  assert (HlenD : (1 <= List.length (ds1 ++ ds2) <= 8)%nat)
    by (rewrite length_app; exact Hlen).
  destruct (entered_value cvt (ds1 ++ ds2) s Hr Hn Hd HlenD)
    as ([Ea En Em Ev Ec] & Ef & Hb).
  assert (Hmult : 0 <= mult <= 2 ^ 24)
    by (destruct Hs as [[_ ->]|[_ ->]]; lia).
  assert (Ht : is_digit c = false /\ (char_val c =? 46) = false).
  { destruct Hs as [[HC _]|[HC _]];
      apply (toupper_terminator c _ HC); cbv [command_letters In]; tauto. }
  destruct Ht as [H1 H2].
  rewrite after_app.
  rewrite after_point_between by (try assumption; lia).
  set (u := after cvt s (ds1 ++ ds2)) in *.
  rewrite length_app in En.
  assert (Ediv : divider (state_of (terminate
                   (set_decimal (Z.of_nat (List.length ds1) + 1) u)))
                 = 10 ^ Z.of_nat (List.length ds2)).
  { rewrite terminate_state.
    cbn [decimal numeric set_decimal]. rewrite En.
    destruct (Z.eqb_spec (Z.of_nat (List.length ds1) + 1) 0); [lia|].
    destruct (Z.eqb_spec (Z.of_nat (List.length ds1 + List.length ds2)) 0);
      [lia|].
    cbn [negb andb divider set_decimal set_numeric set_divider].
    replace (Z.of_nat (List.length ds1 + List.length ds2)
             - (Z.of_nat (List.length ds1) + 1) + 1)
      with (Z.of_nat (List.length ds2)) by lia.
    apply powerOf10_exact. lia. }
  set (t := set_decimal (Z.of_nat (List.length ds1) + 1) u) in *.
  assert (Es : after cvt t [c] = set_multiplier mult (state_of (terminate t))).
  { rewrite after_one, parseCommand_terminator by assumption.
    rewrite execute_state_eq.
    destruct Hs as [[-> ->]|[-> ->]]; reflexivity. }
  assert (Ev' : finalized_value (after cvt t [c])
                = ddiv (dmul (double_of_ulong (spelled (ds1 ++ ds2)))
                             (double_of_ulong mult))
                       (double_of_ulong (10 ^ Z.of_nat (List.length ds2)))).
  { rewrite (finalized_after_suffix cvt _ c mult Hs), Ediv.
    unfold t. rewrite parseValue_f_set_decimal, Ef. reflexivity. }
  split; [rewrite Es; reflexivity|].
  split; [rewrite Es; cbn [divider set_multiplier]; exact Ediv|].
  split; [exact Ev'|].
  intros Hle. rewrite Ev'.
  rewrite double_of_ulong_exact by lia.
  rewrite (double_of_ulong_exact mult Hmult).
  rewrite double_of_ulong_pow10 by lia.
  cbn [dmul]. reflexivity.
Qed.

Lemma unit_suffix_after_decimal_point_witness :
  reachable wrapping_conversion booted /\
  numeric booted = 0 /\
  forallb is_digit ["1"]%char = true /\
  forallb is_digit ["5"]%char = true /\
  (1 <= List.length ["1"]%char + List.length ["5"]%char <= 8)%nat /\
  finalized_value
    (after wrapping_conversion booted ["1"; "."; "5"; "K"]%char)
    = Finite (inject_Z 1500).
Proof.
  assert (Hr : reachable wrapping_conversion booted) by constructor.
  assert (Hl : (1 <= List.length ["1"]%char + List.length ["5"]%char
                <= 8)%nat) by (cbn; lia).
  split; [exact Hr|]. split; [reflexivity|]. split; [reflexivity|].
  split; [reflexivity|]. split; [exact Hl|].
  destruct (unit_suffix_after_decimal_point wrapping_conversion booted
              ["1"]%char ["5"]%char "K"%char 1000 Hr eq_refl eq_refl eq_refl
              Hl (or_introl (conj eq_refl eq_refl))) as (_ & _ & _ & Hv).
  cbn [app] in Hv. rewrite Hv by (vm_compute; discriminate).
  vm_compute. reflexivity.
Defined.

(** X14.  The value persists.  A terminator other than a unit suffix leaves
    the finalized value as it was, so an encoder command sent after it,
    without new digits, writes the same three words: "S" after "S"
    repeats the frequency, and 'O', 'E', 'Z', '?' or a line end between
    two commands do not disturb it. *)
Theorem terminator_keeps_value
        (cvt : double -> Z) (s : state) (c c' : ascii)
        (isFreq : bool) (wave : Z) :
  is_digit c = false ->
  (char_val c =? 46) = false ->
  toupper c <> "K"%char ->
  toupper c <> "M"%char ->
  encoder_command (toupper c') = Some (isFreq, wave) ->
  finalized_value (after cvt s [c]) = finalized_value s /\
  writes cvt (after cvt s [c]) [c'] = writes cvt s [c'].
Proof.
  intros H1 H2 HK HM Hc'.
  pose proof (finalized_after_terminator cvt s c H1 H2 HK HM) as E.
  split; [exact E|].
  destruct (encoder_command_effect cvt s c' isFreq wave Hc') as [-> _].
  destruct (encoder_command_effect cvt (after cvt s [c]) c' isFreq wave Hc')
    as [-> _].
  unfold command_reg. rewrite E. reflexivity.
Qed.

Lemma terminator_keeps_value_witness :
  let s := after wrapping_conversion booted ["5"; "k"]%char in
  is_digit "S" = false /\
  (char_val "S" =? 46) = false /\
  toupper "S" <> "K"%char /\
  toupper "S" <> "M"%char /\
  encoder_command (toupper "t") = Some (true, wTriangle) /\
  writes wrapping_conversion (after wrapping_conversion s ["S"%char])
         ["t"%char]
    = writes wrapping_conversion s ["t"%char].
Proof.
  cbv zeta.
  assert (HK : toupper "S" <> "K"%char) by (vm_compute; discriminate).
  assert (HM : toupper "S" <> "M"%char) by (vm_compute; discriminate).
  split; [reflexivity|]. split; [reflexivity|]. split; [exact HK|].
  split; [exact HM|]. split; [reflexivity|].
  destruct (terminator_keeps_value wrapping_conversion
              (after wrapping_conversion booted ["5"; "k"]%char)
              "S"%char "t"%char true wTriangle
              eq_refl eq_refl HK HM eq_refl) as [_ Hw].
  exact Hw.
Defined.

(** X15.  Division by zero.  On a fresh entry in a reachable state, a decimal
    point followed by [n] digits (1 to 255) makes the terminator set the
    divider to [10 ^ n] modulo [2 ^ 32].  From 32 digits on the divider
    is 0: [parseValue] divides by zero, the finalized value is not
    finite, and the register value an encoder command writes is the clamp
    of what the platform converts a non-finite value to. *)
Theorem long_fraction_divides_by_zero
        (cvt : double -> Z) (s : state) (ds : list ascii) :
  reachable cvt s ->
  numeric s = 0 ->
  forallb is_digit ds = true ->
  (1 <= List.length ds <= 255)%nat ->
  let s' := after cvt s ("."%char :: ds) in
  divider (state_of (terminate s'))
    = 10 ^ Z.of_nat (List.length ds) mod 2 ^ 32 /\
  ((32 <= List.length ds)%nat ->
   divider (state_of (terminate s')) = 0 /\
   finalized_value s' = NonFinite /\
   forall isFreq,
     command_reg cvt isFreq s' = clamp_reg (to_ulong (cvt NonFinite))).
Proof.
  intros Hr Hn Hd Hlen. cbv zeta.
  pose proof (reachable_inv cvt s Hr) as Hi.
  pose proof (after_point_between cvt [] ds s Hr Hn eq_refl Hd
                ltac:(cbn [List.length]; lia)) as Ep.
  cbn [app List.length Z.of_nat Z.add] in Ep. rewrite Ep. clear Ep.
  destruct (digits_appended cvt ds s (inv_length _ Hi) Hd ltac:(lia)
              ltac:(lia) ltac:(lia)) as (_ & En & _).
  rewrite Hn, Z.add_0_l in En.
  set (u := after cvt s ds) in *.
  assert (Ediv : divider (state_of (terminate (set_decimal 1 u)))
                 = powerOf10 (Z.of_nat (List.length ds))).
  { rewrite terminate_state. cbn [decimal numeric set_decimal]. rewrite En.
    destruct (Z.eqb_spec (Z.of_nat (List.length ds)) 0); [lia|].
    cbn [Z.eqb negb andb divider set_decimal set_numeric set_divider].
    f_equal. lia. }
  split.
  - rewrite Ediv, powerOf10_formula.
    rewrite (Z.mod_small (Z.of_nat (List.length ds)) (2 ^ 8))
      by (change (2 ^ 8) with 256; lia).
    reflexivity.
  - intros H32.
    assert (E0 : divider (state_of (terminate (set_decimal 1 u))) = 0)
      by (rewrite Ediv; apply powerOf10_zero; lia).
    assert (Ev : finalized_value (set_decimal 1 u) = NonFinite)
      by (rewrite finalized_unfold, E0; apply ddiv_zero).
    split; [exact E0|]. split; [exact Ev|].
    intros isFreq. unfold command_reg. rewrite Ev.
    destruct isFreq; reflexivity.
Qed.

Lemma long_fraction_divides_by_zero_witness :
  let ds := ["1"; "2"; "3"; "4"; "5"; "6"; "7"; "8"; "9"; "0"]%char in
  reachable wrapping_conversion booted /\
  numeric booted = 0 /\
  forallb is_digit ds = true /\
  (1 <= List.length ds <= 255)%nat /\
  divider (state_of (terminate
                       (after wrapping_conversion booted ("."%char :: ds))))
    = 1410065408.
Proof.
  cbv zeta.
  assert (Hr : reachable wrapping_conversion booted) by constructor.
  assert (Hl : (1 <= List.length
                       ["1"; "2"; "3"; "4"; "5"; "6"; "7"; "8"; "9"; "0"]%char
                <= 255)%nat) by (cbn; lia).
  split; [exact Hr|]. split; [reflexivity|]. split; [reflexivity|].
  split; [exact Hl|].
  destruct (long_fraction_divides_by_zero wrapping_conversion booted
              ["1"; "2"; "3"; "4"; "5"; "6"; "7"; "8"; "9"; "0"]%char
              Hr eq_refl eq_refl Hl) as [E _].
  rewrite E. reflexivity.
Defined.

(** X16.  The raw command.  On a fresh entry in a reachable state, one to
    eight digits followed by 'N' (or 'n') write the number typed to the
    frequency register, without frequency conversion but by way of a
    [double]: the two FREQ0 words recombine to the rounded finalized
    value, which is the number itself when the number is at most
    16777216 and within 4 of it otherwise, and the control word is that
    of Sine. *)
Theorem raw_command_writes_number
        (cvt : double -> Z) (s : state) (ds : list ascii) (c : ascii) :
  reachable cvt s ->
  numeric s = 0 ->
  decimal s = 0 ->
  forallb is_digit ds = true ->
  (1 <= List.length ds <= 8)%nat ->
  toupper c = "N"%char ->
  exists lsbWord msbWord r,
    writes cvt (after cvt s ds) [c] = [lsbWord; msbWord; 0x2000] /\
    finalized_value (after cvt s ds) = Finite r /\
    recombine lsbWord msbWord = round_half_away r /\
    spelled ds - 4 <= recombine lsbWord msbWord <= spelled ds + 4 /\
    (spelled ds <= 2 ^ 24 -> recombine lsbWord msbWord = spelled ds) /\
    waveType (after cvt s (ds ++ [c])) = wSine.
Proof.
  intros Hr Hn Hc Hd Hlen HN.
  destruct (entered_value cvt ds s Hr Hn Hd Hlen)
    as ([Ea En Em Ev Ec] & Ef & Hb).
  change (10 ^ 8) with 100000000 in Hb.
  assert (Hcmd : encoder_command (toupper c) = Some (false, wSine))
    by (rewrite HN; reflexivity).
  destruct (encoder_command_effect cvt (after cvt s ds) c false wSine Hcmd)
    as [Hw Hs].
  assert (Ev' : finalized_value (after cvt s ds)
                = double_of_ulong (spelled ds)).
  { rewrite <- Ef. apply finalized_plain; try congruence. rewrite Ef. lia. }
  destruct (double_of_ulong_finite (spelled ds)) as [r Er]; [lia|].
  destruct (double_of_ulong_binary32 _ r (proj1 Hb) Er) as [_ Hr0].
  pose proof (double_of_ulong_near (spelled ds) r ltac:(lia) Er) as Hnear.
  pose proof (round_half_away_nonneg r Hr0) as Hlo.
  assert (Hhi : spelled ds - 4 <= round_half_away r <= spelled ds + 4).
  { pose proof (round_half_away_near r Hr0) as [Hn1 Hn2].
    split.
    - assert (H : (inject_Z (spelled ds + -5) < inject_Z (round_half_away r))%Q).
      { rewrite inject_Z_plus. change (inject_Z (-5)) with (-5 # 1)%Q. lra. }
      rewrite <- Zlt_Qlt in H. lia.
    - assert (H : (inject_Z (round_half_away r) < inject_Z (spelled ds + 4 + 1))%Q).
      { rewrite !inject_Z_plus. change (inject_Z 4) with 4%Q.
        change (inject_Z 1) with 1%Q. lra. }
      rewrite <- Zlt_Qlt in H. lia. }
  assert (Hrec : recombine
            (Z.lor (Z.land (command_reg cvt false (after cvt s ds)) 0x3FFF)
                   0x4000)
            (Z.lor (Z.shiftr (Z.land (command_reg cvt false (after cvt s ds))
                                     0xFFFC000) 14) 0x4000)
          = round_half_away r).
  { unfold command_reg. rewrite Ev', Er. cbn [dround].
    rewrite ulong_of_integral by lia.
    unfold clamp_reg.
    destruct (Z.leb_spec 0x8000000 (round_half_away r)); [lia|].
    unfold recombine. apply recombine_words. lia. }
  do 3 eexists. split; [exact Hw|]. rewrite Hrec.
  split; [rewrite Ev'; exact Er|]. split; [reflexivity|].
  split; [exact Hhi|]. split.
  - intros Hle. rewrite (double_of_ulong_exact (spelled ds)) in Er by lia.
    apply Finite_eq in Er. subst r.
    apply round_half_away_inject. lia.
  - rewrite after_app, Hs. reflexivity.
Qed.

(** "42n" writes 42; "99999999N" writes 100000000. *)
Lemma raw_command_writes_number_witness :
  reachable wrapping_conversion booted /\
  numeric booted = 0 /\ decimal booted = 0 /\
  forallb is_digit ["4"; "2"]%char = true /\
  (1 <= List.length ["4"; "2"]%char <= 8)%nat /\
  toupper "n" = "N"%char /\
  (exists lsbWord msbWord,
    writes wrapping_conversion
           (after wrapping_conversion booted ["4"; "2"]%char) ["n"%char]
      = [lsbWord; msbWord; 0x2000] /\
    recombine lsbWord msbWord = 42) /\
  writes wrapping_conversion booted
         ["9"; "9"; "9"; "9"; "9"; "9"; "9"; "9"; "N"]%char
    = [0x6100; 0x57D7; 0x2000] /\
  recombine 0x6100 0x57D7 = 100000000.
Proof.
  assert (Hr : reachable wrapping_conversion booted) by constructor.
  assert (Hl : (1 <= List.length ["4"; "2"]%char <= 8)%nat) by (cbn; lia).
  split; [exact Hr|]. split; [reflexivity|]. split; [reflexivity|].
  split; [reflexivity|]. split; [exact Hl|]. split; [reflexivity|].
  split; [|split; vm_compute; reflexivity].
  destruct (raw_command_writes_number wrapping_conversion booted
              ["4"; "2"]%char "n"%char Hr eq_refl eq_refl eq_refl Hl eq_refl)
    as (lsbWord & msbWord & r & Hw & _ & _ & _ & Hx & _).
  exists lsbWord, msbWord. split; [exact Hw|].
  apply Hx. vm_compute. discriminate.
Defined.

(** ** Properties beyond the claims: the three-wire link *)

Section Pins.

Lemma testbit_to_byte x i : 0 <= i < 8 -> Z.testbit (to_byte x) i = Z.testbit x i.
Proof. intros H. unfold to_byte. apply Z.mod_pow2_bits_low. lia. Qed.

(** Setting a pin sets that bit and keeps the other seven. *)
Lemma set_pin_bit x n i :
  0 <= n < 8 -> 0 <= i < 8 ->
  Z.testbit (to_byte (Z.lor x (BV n))) i = Z.testbit x i || (n =? i).
Proof.
  intros Hn Hi. rewrite testbit_to_byte by assumption.
  unfold BV. rewrite Z.lor_spec, Z.shiftl_1_l, Z.pow2_bits_eqb by lia.
  reflexivity.
Qed.

(** Clearing a pin clears that bit and keeps the other seven. *)
Lemma clear_pin_bit x n i :
  0 <= n < 8 -> 0 <= i < 8 ->
  Z.testbit (to_byte (Z.land x (Z.lnot (BV n)))) i
  = Z.testbit x i && negb (n =? i).
Proof.
  intros Hn Hi. rewrite testbit_to_byte by assumption.
  unfold BV. rewrite Z.land_spec, Z.lnot_spec, Z.shiftl_1_l by lia.
  rewrite Z.pow2_bits_eqb by lia. reflexivity.
Qed.

Ltac pin_simpl :=
  unfold data_line, fsync_line, clk_line, other_pins_as,
    DATA_HIGH, DATA_LOW, FSYNC_HIGH, FSYNC_LOW, CLK_HIGH, CLK_LOW,
    PB0, PB1, PB2 in *;
  intros;
  rewrite ?set_pin_bit, ?clear_pin_bit by lia;
  repeat match goal with
  | |- context [?n =? ?i] => destruct (Z.eqb_spec n i); try lia
  end;
  cbn [Z.eqb Pos.eqb negb];
  rewrite ?orb_true_r, ?orb_false_r, ?andb_true_r, ?andb_false_r;
  try reflexivity.

Lemma clk_after_high p : clk_line (CLK_HIGH p) = true.
Proof. pin_simpl. Qed.
Lemma clk_after_low p : clk_line (CLK_LOW p) = false.
Proof. pin_simpl. Qed.
Lemma fsync_after_high p : fsync_line (FSYNC_HIGH p) = true.
Proof. pin_simpl. Qed.
Lemma fsync_after_low p : fsync_line (FSYNC_LOW p) = false.
Proof. pin_simpl. Qed.
Lemma data_after_high p : data_line (DATA_HIGH p) = true.
Proof. pin_simpl. Qed.
Lemma data_after_low p : data_line (DATA_LOW p) = false.
Proof. pin_simpl. Qed.

Lemma clk_kept p :
  clk_line (DATA_HIGH p) = clk_line p /\ clk_line (DATA_LOW p) = clk_line p /\
  clk_line (FSYNC_HIGH p) = clk_line p /\ clk_line (FSYNC_LOW p) = clk_line p.
Proof. repeat split; pin_simpl. Qed.

Lemma fsync_kept p :
  fsync_line (DATA_HIGH p) = fsync_line p /\
  fsync_line (DATA_LOW p) = fsync_line p /\
  fsync_line (CLK_HIGH p) = fsync_line p /\
  fsync_line (CLK_LOW p) = fsync_line p.
Proof. repeat split; pin_simpl. Qed.

Lemma data_kept p :
  data_line (CLK_HIGH p) = data_line p /\ data_line (CLK_LOW p) = data_line p.
Proof. repeat split; pin_simpl. Qed.

Lemma other_pins_kept portb p :
  other_pins_as portb p ->
  other_pins_as portb (DATA_HIGH p) /\ other_pins_as portb (DATA_LOW p) /\
  other_pins_as portb (FSYNC_HIGH p) /\ other_pins_as portb (FSYNC_LOW p) /\
  other_pins_as portb (CLK_HIGH p) /\ other_pins_as portb (CLK_LOW p).
Proof.
  intros H. repeat split; intros i Hi; rewrite <- (H i Hi);
    unfold DATA_HIGH, DATA_LOW, FSYNC_HIGH, FSYNC_LOW, CLK_HIGH, CLK_LOW,
      PB0, PB1, PB2;
    rewrite ?set_pin_bit, ?clear_pin_bit by lia;
    repeat match goal with
    | |- context [?n =? i] => destruct (Z.eqb_spec n i); [lia|]
    end;
    cbn [negb]; rewrite ?orb_false_r, ?andb_true_r; reflexivity.
Qed.

End Pins.

Section Frames.

Lemma msb_test dat :
  (Z.land dat 0x8000 =? 0) = negb (Z.testbit dat 15).
Proof.
  change 0x8000 with (2 ^ 15).
  destruct (Z.testbit dat 15) eqn:E; cbn [negb].
  - apply Z.eqb_neq. intros H.
    apply (f_equal (fun x => Z.testbit x 15)) in H.
    rewrite Z.land_spec, E, Z.pow2_bits_eqb, Z.bits_0 in H by lia.
    discriminate H.
  - apply Z.eqb_eq. apply Z.bits_inj'. intros i Hi.
    rewrite Z.land_spec, Z.pow2_bits_eqb, Z.bits_0 by lia.
    destruct (Z.eqb_spec 15 i) as [<-|]; [rewrite E|];
      rewrite ?andb_false_r; reflexivity.
Qed.

Lemma shift_bit dat j :
  1 <= j <= 15 ->
  Z.testbit (to_word (Z.shiftl dat 1)) j = Z.testbit dat (j - 1).
Proof.
  intros H. unfold to_word.
  rewrite Z.mod_pow2_bits_low, Z.shiftl_spec by lia. reflexivity.
Qed.

Lemma last_cons (l : list Z) :
  forall p d, last (p :: l) d = last l p.
Proof.
  induction l as [|q l IH]; intros p d; [reflexivity|].
  change (last (p :: q :: l) d) with (last (q :: l) d).
  rewrite (IH q d), (IH q p). reflexivity.
Qed.

Lemma sampled_bits_app prev l1 l2 :
  sampled_bits prev (l1 ++ l2) =
  sampled_bits prev l1 ++ sampled_bits (last l1 prev) l2.
Proof.
  revert prev. induction l1 as [|p l1 IH]; intros prev; [reflexivity|].
  cbn [app sampled_bits]. rewrite IH, last_cons.
  destruct (clk_line prev && negb (clk_line p) && negb (fsync_line p));
    reflexivity.
Qed.

(** The loop shifts out the top [count] bits, one per falling clock edge,
    and leaves the clock high and frame sync low. *)
Lemma shift_out_spec count :
  forall dat p,
    (count <= 16)%nat ->
    clk_line p = true -> fsync_line p = false ->
    let r := shift_out count dat p in
    sampled_bits p (snd r) =
      map (fun i => Z.testbit dat (15 - Z.of_nat i)) (seq 0 count) /\
    clk_line (fst r) = true /\ fsync_line (fst r) = false /\
    last (snd r) p = fst r /\
    List.length (snd r) = (3 * count)%nat /\
    (forall portb, other_pins_as portb p ->
                   other_pins_as portb (fst r) /\
                   Forall (other_pins_as portb) (snd r)).
Proof.
  induction count as [|n IH]; intros dat p Hn Hc Hf; cbv zeta.
  - cbn [shift_out fst snd sampled_bits seq map last List.length Nat.mul].
    repeat split; auto.
  - cbn [shift_out fst snd].
    set (p1 := if negb (Z.land dat 0x8000 =? 0)
               then DATA_HIGH p else DATA_LOW p).
    assert (Hc1 : clk_line p1 = true)
      by (subst p1; destruct (clk_kept p) as (E1 & E2 & _);
          destruct (negb _); congruence).
    assert (Hf1 : fsync_line p1 = false)
      by (subst p1; destruct (fsync_kept p) as (E1 & E2 & _);
          destruct (negb _); congruence).
    assert (Hd1 : data_line p1 = Z.testbit dat 15).
    { subst p1. rewrite msb_test, negb_involutive.
      destruct (Z.testbit dat 15);
        [apply data_after_high|apply data_after_low]. }
    set (p2 := CLK_LOW p1).
    assert (Hc2 : clk_line p2 = false) by apply clk_after_low.
    assert (Hf2 : fsync_line p2 = false)
      by (subst p2; destruct (fsync_kept p1) as (_ & _ & _ & E); congruence).
    assert (Hd2 : data_line p2 = Z.testbit dat 15)
      by (subst p2; destruct (data_kept p1) as (_ & E); congruence).
    set (p3 := CLK_HIGH p2).
    assert (Hc3 : clk_line p3 = true) by apply clk_after_high.
    assert (Hf3 : fsync_line p3 = false)
      by (subst p3; destruct (fsync_kept p2) as (_ & _ & E & _); congruence).
    destruct (IH (to_word (Z.shiftl dat 1)) p3 ltac:(lia) Hc3 Hf3)
      as (Hs & Hcr & Hfr & Hl & Hlen & Ho).
    set (r := shift_out n (to_word (Z.shiftl dat 1)) p3) in *. clearbody r.
    split; [|split; [exact Hcr|split; [exact Hfr|split; [|split]]]].
    + cbn [sampled_bits]. rewrite Hc, Hc1, Hc2, Hf2, Hd2, Hs.
      cbn [negb andb seq map].
      change (15 - Z.of_nat 0) with 15. f_equal.
      rewrite <- seq_shift, map_map.
      apply map_ext_in. intros i Hi. apply in_seq in Hi.
      rewrite shift_bit by lia. f_equal. lia.
    + rewrite !last_cons. exact Hl.
    + cbn [List.length]. rewrite Hlen. lia.
    + intros portb Hp.
      destruct (other_pins_kept portb p Hp) as (Ha & Hb & _).
      assert (Hp1 : other_pins_as portb p1)
        by (subst p1; destruct (negb _); assumption).
      destruct (other_pins_kept portb p1 Hp1) as (_ & _ & _ & _ & _ & Hp2).
      destruct (other_pins_kept portb p2 Hp2) as (_ & _ & _ & _ & Hp3 & _).
      destruct (Ho portb Hp3) as [Hr1 Hr2].
      split; [exact Hr1|]. repeat constructor; assumption.
Qed.

Lemma bits_value_acc l acc :
  bits_value l acc = acc * 2 ^ Z.of_nat (List.length l) + bits_value l 0.
Proof.
  revert acc. induction l as [|b l IH]; intros acc.
  - cbn [bits_value List.length]. change (2 ^ Z.of_nat 0) with 1. lia.
  - cbn [bits_value List.length].
    rewrite (IH (2 * acc + Z.b2z b)), (IH (2 * 0 + Z.b2z b)).
    rewrite Nat2Z.inj_succ, Z.pow_succ_r by lia. ring.
Qed.

Lemma bits_value_testbits w n :
  bits_value
    (map (fun i => Z.testbit w (Z.of_nat n - 1 - Z.of_nat i)) (seq 0 n)) 0
  = w mod 2 ^ Z.of_nat n.
Proof.
  induction n as [|n IH].
  - cbn [seq map bits_value]. change (2 ^ Z.of_nat 0) with 1.
    rewrite Z.mod_1_r. reflexivity.
  - cbn [seq map bits_value].
    rewrite <- seq_shift, map_map.
    rewrite bits_value_acc, length_map, length_seq.
    replace (map (fun x => Z.testbit w (Z.of_nat (S n) - 1 - Z.of_nat (S x)))
                 (seq 0 n))
      with (map (fun i => Z.testbit w (Z.of_nat n - 1 - Z.of_nat i)) (seq 0 n))
      by (apply map_ext; intros i; f_equal; lia).
    rewrite IH.
    replace (Z.of_nat (S n) - 1 - Z.of_nat 0) with (Z.of_nat n) by lia.
    rewrite Z.testbit_spec' by lia.
    rewrite Nat2Z.inj_succ, Z.pow_succ_r by lia.
    rewrite (Z.mul_comm 2 (2 ^ Z.of_nat n)), Z.rem_mul_r by lia. ring.
Qed.

Lemma word_bits_value w : 0 <= w < 2 ^ 16 -> bits_value (word_bits w) 0 = w.
Proof.
  intros H. unfold word_bits.
  pose proof (bits_value_testbits w 16) as E.
  change (Z.of_nat 16 - 1) with 15 in E. rewrite E.
  apply Z.mod_small. exact H.
Qed.

(** The frame around the loop: clock high, frame sync low, the 16 bits,
    frame sync high. *)
Lemma frame_assembly portb (r : Z * list Z) (bits : list bool) :
  let p1 := CLK_HIGH portb in
  let p2 := FSYNC_LOW p1 in
  let p3 := FSYNC_HIGH (fst r) in
  sampled_bits p2 (snd r) = bits ->
  clk_line (fst r) = true ->
  last (snd r) p2 = fst r ->
  List.length (snd r) = 48%nat ->
  (other_pins_as portb p2 ->
   other_pins_as portb (fst r) /\ Forall (other_pins_as portb) (snd r)) ->
  sampled_bits portb (p1 :: p2 :: snd r ++ [p3]) = bits /\
  List.length (p1 :: p2 :: snd r ++ [p3]) = 51%nat /\
  fsync_line p3 = true /\
  clk_line p3 = true /\
  Forall (other_pins_as portb) (p1 :: p2 :: snd r ++ [p3]).
Proof.
  intros p1 p2 p3 Hs Hcr Hl Hlen Ho.
  assert (Hc1 : clk_line p1 = true) by apply clk_after_high.
  assert (Hc2 : clk_line p2 = true)
    by (subst p2; destruct (clk_kept p1) as (_ & _ & _ & E); congruence).
  assert (Hp0 : other_pins_as portb portb) by (intros i Hi; reflexivity).
  destruct (other_pins_kept portb portb Hp0) as (_ & _ & _ & _ & Hp1 & _).
  fold p1 in Hp1.
  destruct (other_pins_kept portb p1 Hp1) as (_ & _ & _ & Hp2 & _).
  fold p2 in Hp2.
  destruct (Ho Hp2) as [Hor Hot].
  destruct (other_pins_kept portb (fst r) Hor) as (_ & _ & Hp3 & _).
  fold p3 in Hp3.
  assert (Hc3 : clk_line p3 = true)
    by (subst p3; destruct (clk_kept (fst r)) as (_ & _ & E & _); congruence).
  split; [|split; [|split; [apply fsync_after_high|split; [exact Hc3|]]]].
  - cbn [sampled_bits]. rewrite Hc1, Hc2. cbn [negb andb].
    rewrite andb_false_r. cbn [andb].
    rewrite sampled_bits_app, Hs, Hl.
    cbn [sampled_bits]. rewrite Hcr, Hc3. cbn [negb andb].
    apply app_nil_r.
  - cbn [List.length]. rewrite length_app, Hlen. reflexivity.
  - apply Forall_cons; [exact Hp1|]. apply Forall_cons; [exact Hp2|].
    apply Forall_app. split; [exact Hot|].
    apply Forall_cons; [exact Hp3|apply Forall_nil].
Qed.

(** One call of the register writer, as the chip sees it. *)
Lemma frame_on_the_wire dat portb :
  let r := AD9833_writeRegister_pins dat portb in
  sampled_bits portb (snd r) = word_bits (to_word dat) /\
  List.length (snd r) = 51%nat /\
  fsync_line (fst r) = true /\
  clk_line (fst r) = true /\
  Forall (other_pins_as portb) (snd r).
Proof.
  assert (Hc2 : clk_line (FSYNC_LOW (CLK_HIGH portb)) = true).
  { destruct (clk_kept (CLK_HIGH portb)) as (_ & _ & _ & E).
    rewrite E. apply clk_after_high. }
  destruct (shift_out_spec 16 (to_word dat) (FSYNC_LOW (CLK_HIGH portb))
              (le_n _) Hc2 (fsync_after_low _))
    as (Hs & Hcr & _ & Hl & Hlen & Ho).
  exact (frame_assembly portb
           (shift_out 16 (to_word dat) (FSYNC_LOW (CLK_HIGH portb)))
           (word_bits (to_word dat)) Hs Hcr Hl Hlen (Ho portb)).
Qed.

End Frames.

(** X17.  The register writer on the wire.  For every word and every value of
    PORTB, one call of [AD9833_writeRegister] makes 51 writes to PORTB:
    the chip, sampling the data line on each falling clock edge while
    frame sync is low, receives exactly 16 bits, bits 15 down to 0 of the
    word, so the word it decodes is the word written; clock and frame
    sync are left high; pins 3 to 7 of PORTB keep their level in every
    write. *)
Theorem register_frame_round_trip (dat portb : Z) :
  let r := AD9833_writeRegister_pins dat portb in
  sampled_bits portb (snd r) = word_bits (to_word dat) /\
  bits_value (sampled_bits portb (snd r)) 0 = to_word dat /\
  List.length (sampled_bits portb (snd r)) = 16%nat /\
  List.length (snd r) = 51%nat /\
  fsync_line (fst r) = true /\
  clk_line (fst r) = true /\
  Forall (other_pins_as portb) (snd r).
Proof.
  cbv zeta.
  destruct (frame_on_the_wire dat portb) as (Hs & Hl & Hf & Hc & Ho).
  split; [exact Hs|]. rewrite Hs.
  split; [apply word_bits_value; unfold to_word; apply Z.mod_pos_bound; lia|].
  split; [reflexivity|]. auto.
Qed.

(** X18.  [initSigGen] on the wire.  Whatever DDRB and PORTB hold, it makes
    pins 0 to 2 outputs and leaves the direction of pins 3 to 7; raising
    frame sync and clock gives the chip no bit, and the one frame that
    follows is the reset word 0x2100; clock and frame sync end high. *)
Theorem initSigGen_sends_reset (ddrb portb : Z) :
  let r := initSigGen_pins ddrb portb in
  let ddrb' := fst (fst r) in
  let portb' := snd (fst r) in
  (forall i, 0 <= i < 3 -> Z.testbit ddrb' i = true) /\
  (forall i, 3 <= i < 8 -> Z.testbit ddrb' i = Z.testbit ddrb i) /\
  bits_value (sampled_bits portb (snd r)) 0 = 0x2100 /\
  List.length (sampled_bits portb (snd r)) = 16%nat /\
  fsync_line portb' = true /\
  clk_line portb' = true.
Proof.
  cbv zeta. unfold initSigGen_pins. cbn [fst snd].
  set (p1 := FSYNC_HIGH portb). set (p2 := CLK_HIGH p1).
  destruct (frame_on_the_wire 0x2100 p2) as (Hs & Hl & Hf & Hc & Ho).
  assert (Hc1 : clk_line p1 = clk_line portb)
    by (destruct (clk_kept portb) as (_ & _ & E & _); exact E).
  assert (Hc2 : clk_line p2 = true) by apply clk_after_high.
  assert (E : sampled_bits portb
                (p1 :: p2 :: snd (AD9833_writeRegister_pins 0x2100 p2))
              = word_bits (to_word 0x2100)).
  { cbn [sampled_bits]. rewrite Hc1, Hc2, Hs.
    destruct (clk_line portb); reflexivity. }
  rewrite E.
  split; [|split; [|split; [reflexivity|split; [reflexivity|auto]]]].
  - intros i Hi. rewrite testbit_to_byte, Z.lor_spec by lia.
    assert (H : i = 0 \/ i = 1 \/ i = 2) by lia.
    destruct H as [->|[->| ->]]; apply orb_true_r.
  - intros i Hi. rewrite testbit_to_byte, Z.lor_spec by lia.
    change (Z.lor (Z.lor (BV PB0) (BV PB1)) (BV PB2)) with (Z.ones 3).
    rewrite Z.testbit_ones_nonneg by lia.
    destruct (Z.ltb_spec i 3); [lia|apply orb_false_r].
Qed.

(** ** Properties beyond the claims: accuracy of the encoder *)

Section Accuracy.

Variable cvt : double -> Z.

(** The single precision constant is a little below [2^28 / 25e6], by
    less than one part in [2 ^ 27]. *)
Lemma freq_to_reg_below :
  ((11258999 # 1048576) <= inject_Z (2 ^ 28) / inject_Z 25000000)%Q /\
  ((inject_Z (2 ^ 28) / inject_Z 25000000 - (11258999 # 1048576))
     * inject_Z (2 ^ 27)
   <= inject_Z (2 ^ 28) / inject_Z 25000000)%Q.
Proof. split; discriminate. Qed.

(** The register value of 'S' and 'T' against the exact scaled value. *)
Lemma command_reg_error s V E :
  reachable cvt s ->
  finalized_value s = Finite V ->
  -126 <= E <= 26 ->
  (V * (inject_Z (2 ^ 28) / inject_Z 25000000) < pow2 (E + 1))%Q ->
  0 <= command_reg cvt true s < 2 ^ 27 /\
  (inject_Z (command_reg cvt true s) - ((1 # 2) + (5 # 4) * pow2 (E - 24))
   <= V * (inject_Z (2 ^ 28) / inject_Z 25000000)
   <= inject_Z (command_reg cvt true s) + ((1 # 2) + (5 # 4) * pow2 (E - 24)))%Q.
Proof.
  intros Hr HV HE Hlt.
  pose proof (inv_terminate s (reachable_inv cvt s Hr)) as Hi.
  pose proof HV as HV'. rewrite finalized_value_eq in HV'.
  destruct (parseValue_binary32 (state_of (terminate s)) V Hi HV')
    as [_ HV0].
  destruct freq_to_reg_below as [Hc1 Hc2].
  set (c := (inject_Z (2 ^ 28) / inject_Z 25000000)%Q) in *.
  set (c32 := (11258999 # 1048576)%Q) in *.
  assert (Hc32 : (0 <= c32)%Q) by discriminate.
  assert (Hq0 : (0 <= V * c32)%Q) by (apply Qmult_le_0_compat; assumption).
  assert (Hqc : (V * c32 <= V * c)%Q).
  { rewrite !(Qmult_comm V). apply Qmult_le_compat_r; assumption. }
  assert (Hq1 : (V * c32 < pow2 (E + 1))%Q) by lra.
  assert (Hp27 : (pow2 (E + 1) <= pow2 27)%Q) by (apply pow2_le; lia).
  destruct (round32_finite (V * c32) Hq0) as [P EP].
  { apply Qlt_le_trans with (pow2 27); [lra|]. apply pow2_le. lia. }
  pose proof (round32_error (V * c32) P E Hq0 Hq1 ltac:(lia) EP) as [He1 He2].
  destruct (round32_binary32 (V * c32) P Hq0 EP) as [_ HP0].
  pose proof (round_half_away_nonneg P HP0) as Hn0.
  pose proof (round_half_away_near P HP0) as [Hn1 Hn2].
  assert (Hu : (pow2 (E - 24) <= pow2 2)%Q) by (apply pow2_le; lia).
  change (pow2 2) with 4%Q in Hu. change (pow2 27) with 134217728%Q in Hp27.
  pose proof (pow2_pos (E - 24)) as Hu0.
  (* the gap between the two constants, scaled by V *)
  assert (Hgap : (V * c - V * c32 <= (1 # 4) * pow2 (E - 24))%Q).
  { assert (G : ((V * c - V * c32) * inject_Z (2 ^ 27) <= V * c)%Q).
    { setoid_replace ((V * c - V * c32) * inject_Z (2 ^ 27))%Q
        with (V * ((c - c32) * inject_Z (2 ^ 27)))%Q by ring.
      rewrite !(Qmult_comm V). apply Qmult_le_compat_r; assumption. }
    assert (Ep : (pow2 (E + 1) == (1 # 4) * pow2 (E - 24) * inject_Z (2 ^ 27))%Q).
    { replace (E + 1) with ((E - 24) + 25) by lia. rewrite pow2_add.
      change (pow2 25) with (inject_Z (2 ^ 25)).
      change (inject_Z (2 ^ 25)) with 33554432%Q.
      change (inject_Z (2 ^ 27)) with 134217728%Q. ring. }
    change (inject_Z (2 ^ 27)) with 134217728%Q in G, Ep.
    lra. }
  assert (Hn32 : round_half_away P < 2 ^ 32).
  { assert (H : (inject_Z (round_half_away P) < inject_Z (2 ^ 32))%Q).
    { change (inject_Z (2 ^ 32)) with 4294967296%Q. lra. }
    rewrite <- Zlt_Qlt in H. exact H. }
  assert (Ereg : command_reg cvt true s = clamp_reg (round_half_away P)).
  { unfold command_reg. rewrite HV, freq_to_reg_value. cbn [dmul].
    fold c32. rewrite EP. cbn [dround].
    rewrite ulong_of_integral by lia. reflexivity. }
  rewrite Ereg. unfold clamp_reg.
  destruct (Z.leb_spec 0x8000000 (round_half_away P)) as [Hge|Hlt27].
  - (* the clamp fires: only just below 2 ^ 27 *)
    rewrite Zle_Qle in Hge. change (inject_Z 134217728) with 134217728%Q in Hge.
    destruct (Z.eq_dec E 26) as [->|NE].
    + change (pow2 (26 - 24)) with 4%Q in *.
      change (pow2 (26 + 1)) with 134217728%Q in *.
      change (inject_Z 134217727) with 134217727%Q.
      split; [lia|]. split; lra.
    + exfalso.
      assert (H26 : (pow2 (E + 1) <= pow2 26)%Q) by (apply pow2_le; lia).
      assert (H1 : (pow2 (E - 24) <= pow2 1)%Q) by (apply pow2_le; lia).
      change (pow2 26) with 67108864%Q in H26.
      change (pow2 1) with 2%Q in H1. lra.
  - split; [lia|]. split; lra.
Qed.

End Accuracy.

(** X19.  Accuracy.  In a reachable state whose finalized value [V] has an
    exact scaled value [V * 2^28 / 25e6] below [2 ^ (E + 1)], for an [E]
    up to 26, the register value that 'S' or 'T' writes (the two FREQ0
    words recombined) differs from the exact scaled value by half a
    register step and 5/4 of [2 ^ (E - 24)] at most: half a step for
    [round], the rest for the single precision product and constant.
    That is 0.5006 steps at 1 kHz and at most 5.5 steps, about 0.51 Hz,
    below the clamp. *)
Theorem frequency_error_bound
        (cvt : double -> Z) (s : state) (c : ascii) (V : Q) (E : Z) :
  reachable cvt s ->
  toupper c = "S"%char \/ toupper c = "T"%char ->
  finalized_value s = Finite V ->
  -126 <= E <= 26 ->
  (V * (inject_Z (2 ^ 28) / inject_Z 25000000) < pow2 (E + 1))%Q ->
  exists lsbWord msbWord controlWord,
    writes cvt s [c] = [lsbWord; msbWord; controlWord] /\
    (inject_Z (recombine lsbWord msbWord)
       - ((1 # 2) + (5 # 4) * pow2 (E - 24))
     <= V * (inject_Z (2 ^ 28) / inject_Z 25000000)
     <= inject_Z (recombine lsbWord msbWord)
       + ((1 # 2) + (5 # 4) * pow2 (E - 24)))%Q.
Proof.
  intros Hr Hc HV HE Hlt.
  assert (Hcmd : exists wave, encoder_command (toupper c) = Some (true, wave)).
  { destruct Hc as [-> | ->]; eexists; reflexivity. }
  destruct Hcmd as [wave Hcmd].
  destruct (encoder_command_effect cvt s c true wave Hcmd) as [Hw _].
  destruct (command_reg_error cvt s V E Hr HV HE Hlt) as (Hb & Herr).
  do 3 eexists. split; [exact Hw|].
  unfold recombine. rewrite recombine_words by lia.
  exact Herr.
Qed.

(** At 5 MHz ([E = 25]) the register value 53687092 is 0.8 above the
    exact 53687091.2, within the bound of 3. *)
Lemma frequency_error_bound_witness :
  let s := after wrapping_conversion booted ["5"; "M"]%char in
  let target := (inject_Z 5000000 * (inject_Z (2 ^ 28) / inject_Z 25000000))%Q in
  reachable wrapping_conversion s /\
  (toupper "S" = "S"%char \/ toupper "S" = "T"%char) /\
  finalized_value s = Finite (inject_Z 5000000) /\
  -126 <= 25 <= 26 /\
  (target < pow2 (25 + 1))%Q /\
  exists lsbWord msbWord controlWord,
    writes wrapping_conversion s ["S"%char]
      = [lsbWord; msbWord; controlWord] /\
    (inject_Z (recombine lsbWord msbWord) - 3 <= target
     <= inject_Z (recombine lsbWord msbWord) + 3)%Q.
Proof.
  cbv zeta.
  assert (Hr : reachable wrapping_conversion
                 (after wrapping_conversion booted ["5"; "M"]%char))
    by (apply reachable_after; constructor).
  assert (HV : finalized_value
                 (after wrapping_conversion booted ["5"; "M"]%char)
               = Finite (inject_Z 5000000)) by (vm_compute; reflexivity).
  assert (Hlt : (inject_Z 5000000 * (inject_Z (2 ^ 28) / inject_Z 25000000)
                 < pow2 (25 + 1))%Q) by reflexivity.
  split; [exact Hr|]. split; [left; reflexivity|]. split; [exact HV|].
  split; [lia|]. split; [exact Hlt|].
  destruct (frequency_error_bound wrapping_conversion
              (after wrapping_conversion booted ["5"; "M"]%char) "S"%char
              (inject_Z 5000000) 25 Hr (or_introl eq_refl) HV ltac:(lia) Hlt)
    as (lsbWord & msbWord & controlWord & Hw & Herr).
  exists lsbWord, msbWord, controlWord. split; [exact Hw|].
  change (pow2 (25 - 24)) with 2%Q in Herr. lra.
Defined.

(** ** Properties beyond the claims: start-up and repeated points *)

Section StartUp.

Variable cvt : double -> Z.

Lemma off_writes c s :
  toupper c = "O"%char -> writes cvt s [c] = [0x2100].
Proof.
  intros HO.
  destruct (toupper_terminator c _ HO) as [H1 H2];
    [cbv [command_letters In]; tauto|].
  rewrite writes_one, parseCommand_terminator_writes by assumption.
  rewrite HO. cbv [execute]. run_monad. unfold AD9833_reset.
  rewrite register_writes_app, println_writes, writeRegister_writes.
  reflexivity.
Qed.

Lemma waveType_kept c s :
  encoder_command (toupper c) = None ->
  waveType (after cvt s [c]) = waveType s.
Proof.
  intros H. rewrite after_one.
  destruct (is_digit c) eqn:Ed;
    [rewrite parseCommand_digit by assumption; reflexivity|].
  destruct (char_val c =? 46) eqn:Ep;
    [rewrite parseCommand_point by assumption; reflexivity|].
  rewrite parseCommand_terminator by assumption.
  rewrite execute_state_eq.
  destruct (terminate_keeps s) as (_ & _ & Tw & _). cbv zeta in Tw.
  rewrite <- Tw. generalize (state_of (terminate s)). intros t.
  revert H. destruct (toupper c) as [[] [] [] [] [] [] [] []];
    cbv [execute_state encoder_command]; intros H;
    try discriminate H; reflexivity.
Qed.

Lemma after_digit_set_decimal c t v :
  is_digit c = true ->
  after cvt (set_decimal v t) [c] = set_decimal v (after cvt t [c]).
Proof.
  intros Hc. rewrite !after_one, !parseCommand_digit by assumption.
  reflexivity.
Qed.

Lemma after_digits_commute ds t v :
  forallb is_digit ds = true ->
  after cvt (set_decimal v t) ds = set_decimal v (after cvt t ds).
Proof.
  revert t. induction ds as [|c ds IH]; intros t Hd; [reflexivity|].
  cbn [forallb] in Hd. apply andb_prop in Hd. destruct Hd as [Hc Hds].
  rewrite (after_cons cvt c ds), (after_cons cvt c ds t).
  rewrite after_digit_set_decimal by assumption. apply IH. exact Hds.
Qed.

End StartUp.

(** X20.  Start-up.  [setup] sends the reset word twice and changes no
    variable.  From any state, as long as none of 'N', 'S', 'T' arrives,
    every word written to the chip is the reset word 0x2100 and
    [waveType] stays as it is: after start-up the chip is held in reset
    until the first frequency command. *)
Theorem held_in_reset_until_frequency_command
        (cvt : double -> Z) (s : state) (input : list ascii) :
  Forall (fun c => encoder_command (toupper c) = None) input ->
  register_writes (trace_of (setup initial_state)) = [0x2100; 0x2100] /\
  booted = initial_state /\
  Forall (fun w => w = 0x2100) (writes cvt s input) /\
  waveType (after cvt s input) = waveType s.
Proof.
  intros H. split; [reflexivity|]. split; [reflexivity|].
  revert s. induction H as [|c input Hc _ IH]; intros s.
  - split; [constructor|reflexivity].
  - change (c :: input) with ([c] ++ input).
    rewrite writes_app, after_app.
    destruct (IH (after cvt s [c])) as [IH1 IH2].
    split.
    + apply Forall_app. split; [|exact IH1].
      destruct (ascii_dec (toupper c) "O"%char) as [EO|EO].
      * rewrite (off_writes cvt c s EO). repeat constructor.
      * rewrite (silent_byte cvt c s Hc EO). constructor.
    + rewrite IH2. apply waveType_kept. exact Hc.
Qed.

Lemma held_in_reset_until_frequency_command_witness :
  Forall (fun c => encoder_command (toupper c) = None)
         ["5"; "k"; "o"; "?"]%char /\
  Forall (fun w => w = 0x2100)
         (writes wrapping_conversion booted ["5"; "k"; "o"; "?"]%char) /\
  waveType (after wrapping_conversion booted ["5"; "k"; "o"; "?"]%char)
    = wReset.
Proof.
  assert (H : Forall (fun c => encoder_command (toupper c) = None)
                     ["5"; "k"; "o"; "?"]%char)
    by (repeat constructor).
  split; [exact H|].
  destruct (held_in_reset_until_frequency_command wrapping_conversion booted
              ["5"; "k"; "o"; "?"]%char H) as (_ & _ & Hw & Ht).
  split; [exact Hw|exact Ht].
Defined.

(** X21.  A second decimal point replaces the first.  Whatever came before, a
    decimal point followed by digits and another decimal point leaves
    the state that the digits and the one later point alone would leave:
    "1.2.3" is read as "12.3". *)
Theorem second_decimal_point_wins
        (cvt : double -> Z) (s : state) (pre ds post : list ascii) :
  forallb is_digit ds = true ->
  after cvt s (pre ++ "."%char :: ds ++ "."%char :: post)
  = after cvt s (pre ++ ds ++ "."%char :: post).
Proof.
  intros Hd.
  rewrite !after_app. set (t := after cvt s pre).
  rewrite (after_cons cvt "."%char), after_point.
  rewrite !after_app, after_digits_commute by exact Hd.
  rewrite (after_cons cvt "."%char post),
    (after_cons cvt "."%char post (after cvt t ds)).
  rewrite !after_point. reflexivity.
Qed.

Lemma second_decimal_point_wins_witness :
  forallb is_digit ["2"]%char = true /\
  after wrapping_conversion booted
        (["1"] ++ "." :: ["2"] ++ "." :: ["3"; "S"])%char
  = after wrapping_conversion booted (["1"] ++ ["2"] ++ "." :: ["3"; "S"])%char.
Proof.
  split; [reflexivity|].
  exact (second_decimal_point_wins wrapping_conversion booted
           ["1"]%char ["2"]%char ["3"; "S"]%char eq_refl).
Defined.
